(** * Terraform provider adapters: SageMaker Workforce, S3 object data source, S3 tag helpers

    A shallow embedding of
      - internal/service/sagemaker/workforce.go  (schema, CRUD, expand/flatten),
      - the S3 object data source (dataSourceObjectRead, isContentTypeAllowed),
      - internal/service/s3/tags.go              (list/update tag helpers),
    together with the properties their specification states.

    Go values are modelled as follows: a [*T] is an [option T] ([None] is nil),
    a [string] is a [string] of bytes, [map[string]T] is a [gmap string T], a
    [*schema.Set] of strings is a [gset string], an [error] is an [option error]
    ([None] is the nil error), and a failed type assertion or a nil dereference
    is the [Panic] outcome of [result]. *)

From Stdlib Require Import Ascii String.
From stdpp Require Import base option list strings gmap fin_maps fin_sets.

(** ** Regular expressions, as far as the source uses them *)

Module Regexp.

(** The operators of Go's [regexp/syntax] that the patterns of the source
    need.  Go matches on UTF-8; every pattern below is ASCII and [.] stands
    for any rune but the line feed, which is one byte wide, so matching byte
    by byte decides the same strings. *)
Inductive re : Type :=
| NoMatch
| EmptyMatch
| Literal (c : ascii)
| AnyCharNotNL
| Concat (r1 r2 : re)
| Alternate (r1 r2 : re)
| Star (r : re).

Definition Plus (r : re) : re := Concat r (Star r).

Fixpoint LiteralString (w : string) : re :=
  match w with
  | EmptyString => EmptyMatch
  | String c w' => Concat (Literal c) (LiteralString w')
  end.

Definition newline : ascii := "010"%char.

(** The language of an expression. *)
Inductive matches : re → string → Prop :=
| MEmpty : matches EmptyMatch ""
| MLiteral c : matches (Literal c) (String c "")
| MAny c : c ≠ newline → matches AnyCharNotNL (String c "")
| MConcat r1 r2 s1 s2 :
    matches r1 s1 → matches r2 s2 → matches (Concat r1 r2) (s1 +:+ s2)
| MAltL r1 r2 s : matches r1 s → matches (Alternate r1 r2) s
| MAltR r1 r2 s : matches r2 s → matches (Alternate r1 r2) s
| MStarNil r : matches (Star r) ""
| MStarApp r s1 s2 :
    matches r s1 → matches (Star r) s2 → matches (Star r) (s1 +:+ s2).

Fixpoint nullable (r : re) : bool :=
  match r with
  | NoMatch | Literal _ | AnyCharNotNL => false
  | EmptyMatch | Star _ => true
  | Concat r1 r2 => nullable r1 && nullable r2
  | Alternate r1 r2 => nullable r1 || nullable r2
  end.

Fixpoint deriv (c : ascii) (r : re) : re :=
  match r with
  | NoMatch | EmptyMatch => NoMatch
  | Literal c' => if decide (c = c') then EmptyMatch else NoMatch
  | AnyCharNotNL => if decide (c = newline) then NoMatch else EmptyMatch
  | Concat r1 r2 =>
      if nullable r1
      then Alternate (Concat (deriv c r1) r2) (deriv c r2)
      else Concat (deriv c r1) r2
  | Alternate r1 r2 => Alternate (deriv c r1) (deriv c r2)
  | Star r1 => Concat (deriv c r1) (Star r1)
  end.

(** The whole of [s] is in the language. *)
Fixpoint accepts (r : re) (s : string) : bool :=
  match s with
  | EmptyString => nullable r
  | String c s' => accepts (deriv c r) s'
  end.

(** Some prefix of [s] is in the language. *)
Fixpoint accepts_prefix (r : re) (s : string) : bool :=
  nullable r ||
  match s with
  | EmptyString => false
  | String c s' => accepts_prefix (deriv c r) s'
  end.

(** [f] holds of some suffix of [s]: the search for a place to start. *)
Fixpoint search (f : string → bool) (s : string) : bool :=
  f s ||
  match s with
  | EmptyString => false
  | String _ s' => search f s'
  end.

(** A compiled pattern: [^] and [$] occur in the source only as the first
    and the last symbol of a pattern, with no flags, so they anchor at the
    two ends of the text. *)
Record Regexp : Type := MustCompile {
  beginText : bool;
  body : re;
  endText : bool
}.

Definition MatchString (p : Regexp) (s : string) : bool :=
  let here := if endText p then accepts (body p) else accepts_prefix (body p) in
  if beginText p then here s else search here s.

End Regexp.

Import Regexp.

(** ** Go values shared by the three adapters *)

(** The outcome of code that may panic (a failed type assertion). *)
Inductive result (A : Type) : Type :=
| Ok (a : A)
| Panic.
Arguments Ok {A} a.
Arguments Panic {A}.

#[global] Instance result_ret : MRet result := λ A a, Ok a.
#[global] Instance result_bind : MBind result := λ A B f r,
  match r with Ok a => f a | Panic => Panic end.

(** [error]: an AWS API error with its code and message ([awserr.Error], and
    smithy's [APIError] for the v2 client), the resource-not-found error of the
    finders, a plain error, and an error that wraps another one
    ([fmt.Errorf] with [%w]). *)
Inductive error : Type :=
| AwsError (code message : string)
| NotFoundError (message : string)
| ErrorString (message : string)
| Wrapped (message : string) (cause : error).

#[global] Instance error_eq_dec : EqDecision error.
Proof. solve_decision. Defined.

(** [err.Error()]. *)
Definition Error (e : error) : string :=
  match e with
  | AwsError code message => code +:+ ": " +:+ message
  | NotFoundError message | ErrorString message | Wrapped message _ => message
  end.

(** [errors.As] to an AWS error: the first one in the chain of causes. *)
Fixpoint asAwsError (e : error) : option (string * string) :=
  match e with
  | AwsError code message => Some (code, message)
  | Wrapped _ cause => asAwsError cause
  | _ => None
  end.

(** Modelled from the spec: [tfresource.NotFound] lives in internal/tfresource,
    which is not among the sources.  Section 7 has every error surfaced as it
    is, wrapped with context; the one a finder returns for a resource that is
    gone is told apart through the chain of causes. *)
Fixpoint isNotFound (e : error) : bool :=
  match e with
  | NotFoundError _ => true
  | Wrapped _ cause => isNotFound cause
  | _ => false
  end.

(** [strings.HasPrefix] and [strings.Contains]. *)
Fixpoint HasPrefix (s prefix : string) : bool :=
  match prefix, s with
  | EmptyString, _ => true
  | String p prefix', String c s' => bool_decide (c = p) && HasPrefix s' prefix'
  | String _ _, EmptyString => false
  end.

Fixpoint Contains (s substr : string) : bool :=
  HasPrefix s substr ||
  match s with
  | EmptyString => false
  | String _ s' => Contains s' substr
  end.

Module tfawserr.

(** [ErrCodeEquals(err, codes...)]: [err] is an AWS error whose code is one
    of [codes]. *)
Definition ErrCodeEquals (err : option error) (codes : list string) : bool :=
  match err ≫= asAwsError with
  | Some (code, _) => bool_decide (code ∈ codes)
  | None => false
  end.

(** [ErrMessageContains(err, code, message)]. *)
Definition ErrMessageContains (err : option error) (code message : string) : bool :=
  match err ≫= asAwsError with
  | Some (c, m) => bool_decide (c = code) && Contains m message
  | None => false
  end.

End tfawserr.

Module aws.
Definition String (s : string) : option string := Some s.
Definition StringValue (p : option string) : string := default "" p.
Definition BoolValue (p : option bool) : bool := default false p.
End aws.

(** Diagnostics. *)
Inductive Severity : Type := SeverityError | SeverityWarning.

Record Diagnostic : Type := { severity : Severity; Summary : string }.

Definition Diagnostics : Type := list Diagnostic.

#[global] Instance Severity_eq_dec : EqDecision Severity.
Proof. solve_decision. Defined.
#[global] Instance Diagnostic_eq_dec : EqDecision Diagnostic.
Proof. solve_decision. Defined.

Module sdkdiag.
(** Modelled from the spec: [sdkdiag.AppendErrorf] lives in internal/errs, which
    is not among the sources.  Section 7 has errors "surfaced to the caller as
    diagnostics": one error diagnostic is added, its message already
    formatted. *)
Definition AppendErrorf (diags : Diagnostics) (message : string) : Diagnostics :=
  diags ++ [{| severity := SeverityError; Summary := message |}].
End sdkdiag.

Definition HasError (diags : Diagnostics) : bool :=
  existsb (λ dg, bool_decide (severity dg = SeverityError)) diags.

(** A connection is modelled by the calls made on it so far; a service answers
    a call from that history and the call's input, so that an answer may
    differ from one attempt to the next.  [Conn C A] is code that makes calls
    of type [C], may panic, and returns an [A]. *)
Definition Conn (C A : Type) : Type := list C → result A * list C.

Definition conn_ret {C A} (a : A) : Conn C A := λ log, (Ok a, log).

Definition conn_bind {C A B} (m : Conn C A) (f : A → Conn C B) : Conn C B :=
  λ log, match m log with
         | (Ok a, log') => f a log'
         | (Panic, log') => (Panic, log')
         end.

Definition lift {C A} (r : result A) : Conn C A := λ log, (r, log).

(** One call: the answer is computed from the history, the call is recorded. *)
Definition call {C A} (c : C) (answer : list C → A) : Conn C A :=
  λ log, (Ok (answer log), log ++ [c]).

#[global] Instance Conn_ret {C} : MRet (Conn C) := λ A, conn_ret.
#[global] Instance Conn_bind {C} : MBind (Conn C) := λ A B f m, conn_bind m f.

(** ** The plugin SDK: attribute values, resource data, schemas *)

(** A field of a nested block: a string or a set of strings. *)
Inductive fval : Type :=
| VString (s : string)
| VSet (xs : gset string).

#[global] Instance fval_eq_dec : EqDecision fval.
Proof. solve_decision. Defined.

(** [map[string]interface{}] of a nested block. *)
Abbreviation block := (gmap string fval).

(** A top-level attribute.  A list attribute holds nested blocks; an element
    is [None] where the Go slice holds a nil interface, and a field map
    otherwise, as the framework builds it for a nested resource (so that
    [l[0].(map[string]interface{})] does not fail). *)
Inductive value : Type :=
| VStr (s : string)
| VBool (b : bool)
| VInt (n : Z)
| VList (l : list (option block))
| VMap (m : gmap string string).

#[global] Instance value_eq_dec : EqDecision value.
Proof. solve_decision. Defined.

(** [schema.ResourceData]: the id, whether the resource is being created,
    the prior state and the attributes as read by [Get] and written by [Set]. *)
Record ResourceData : Type := {
  Id : string;
  IsNewResource : bool;
  state : gmap string value;
  attrs : gmap string value
}.

Definition SetId (v : string) (d : ResourceData) : ResourceData :=
  {| Id := v; IsNewResource := IsNewResource d; state := state d; attrs := attrs d |}.

(** [d.Set(key, v)].  Every value the adapters store has the type the schema
    declares for its key, for which [Set] returns no error. *)
Definition d_Set (key : string) (v : value) (d : ResourceData) : ResourceData :=
  {| Id := Id d; IsNewResource := IsNewResource d; state := state d;
     attrs := <[key := v]> (attrs d) |}.

(** [d.Set] of a pointer stores what it points to, and the zero value for nil. *)
Definition d_SetStringPtr (key : string) (p : option string) : ResourceData → ResourceData :=
  d_Set key (VStr (aws.StringValue p)).
Definition d_SetBoolPtr (key : string) (p : option bool) : ResourceData → ResourceData :=
  d_Set key (VBool (aws.BoolValue p)).
Definition d_SetIntPtr (key : string) (p : option Z) : ResourceData → ResourceData :=
  d_Set key (VInt (default 0%Z p)).

Definition stringOf (v : option value) : string :=
  match v with Some (VStr s) => s | _ => "" end.
Definition listOf (v : option value) : list (option block) :=
  match v with Some (VList l) => l | _ => [] end.

(** [d.Get(key).(string)] and [d.Get(key).([]interface{})]: the zero value
    where the attribute is not set. *)
Definition GetString (d : ResourceData) (key : string) : string := stringOf (attrs d !! key).
Definition GetList (d : ResourceData) (key : string) : list (option block) := listOf (attrs d !! key).

(** [d.GetOk(key)]: the second component tells whether the value is set to
    something other than the zero value. *)
Definition GetOkString (d : ResourceData) (key : string) : string * bool :=
  let s := GetString d key in (s, bool_decide (s ≠ "")).
Definition GetOkList (d : ResourceData) (key : string) : list (option block) * bool :=
  let l := GetList d key in (l, bool_decide (l ≠ [])).

(** [reflect.DeepEqual] on the values of a list attribute.  A set is a
    [*schema.Set], a pointer to a structure with the hash function of the set
    among its fields: the old and the new value are read apart, so that the
    pointers differ, and a function that is not nil is deeply equal to
    nothing.  Two sets are therefore never deeply equal.  Maps are deeply
    equal when they have the same length and the values under each key are;
    slices when they have the same length and their elements are, a nil
    element being equal to a nil element only. *)
Definition deepEqual_fval (a b : fval) : bool :=
  match a, b with
  | VString s, VString t => bool_decide (s = t)
  | _, _ => false
  end.

Definition deepEqual_block (m m' : block) : bool :=
  bool_decide (size m = size m')
  && forallb (λ kv, match m' !! kv.1 with
                    | Some v' => deepEqual_fval kv.2 v'
                    | None => false
                    end) (map_to_list m).

Fixpoint deepEqual_list (l l' : list (option block)) : bool :=
  match l, l' with
  | [], [] => true
  | None :: l, None :: l' => deepEqual_list l l'
  | Some m :: l, Some m' :: l' => deepEqual_block m m' && deepEqual_list l l'
  | _, _ => false
  end.

(** [d.HasChange(key)] for a list attribute: the old and the new value are
    not deeply equal (a slice has no [Equal] method to go by). *)
Definition HasChangeList (d : ResourceData) (key : string) : bool :=
  negb (deepEqual_list (listOf (state d !! key)) (listOf (attrs d !! key))).

(** [d.Get("key.0.field").(string)]. *)
Definition GetBlockString (d : ResourceData) (key field : string) : string :=
  match GetList d key with
  | Some m :: _ => match m !! field with Some (VString s) => s | _ => "" end
  | _ => ""
  end.

Module schema.

Inductive ValueType : Type := TypeString | TypeBool | TypeInt | TypeList | TypeSet | TypeMap.

(** The validators the Workforce schema names. *)
#[warnings="-register-all"] Inductive ValidateFunc : Type :=
| StringLenBetween (lo hi : nat)
| IsURLWithHTTPS
| IsCIDR
| StringMatch (pattern message : string)
| All (fs : list ValidateFunc).

(** The scalar fields of [schema.Schema]; [MaxItems = 0] is the unset value. *)
Record Props : Type := {
  Type_ : ValueType;
  Optional : bool;
  Required : bool;
  Computed : bool;
  ForceNew : bool;
  Sensitive : bool;
  MaxItems : nat;
  ExactlyOneOf : list string;
  Validate : option ValidateFunc
}.

(** [schema.Schema] with its [Elem]: none, a nested resource (its schema
    map, keys in the order of the source) or an element schema. *)
#[warnings="-register-all"] Inductive Schema : Type :=
| mkSchema (props : Props) (Elem : Elem_t)
with Elem_t : Type :=
| NoElem
| ElemResource (fields : list (string * Schema))
| ElemSchema (s : Schema).

Definition props (s : Schema) : Props := match s with mkSchema p _ => p end.
Definition Elem (s : Schema) : Elem_t := match s with mkSchema _ e => e end.

Definition of_type (t : ValueType) : Props :=
  {| Type_ := t; Optional := false; Required := false; Computed := false;
     ForceNew := false; Sensitive := false; MaxItems := 0; ExactlyOneOf := [];
     Validate := None |}.

Fixpoint lookup (key : string) (fields : list (string * Schema)) : option Schema :=
  match fields with
  | [] => None
  | (k, s) :: rest => if decide (k = key) then Some s else lookup key rest
  end.

(** Whether a configuration sets an attribute, as [GetOk] tells it. *)
Definition isSet (config : gmap string value) (key : string) : bool :=
  match config !! key with
  | None => false
  | Some (VStr s) => bool_decide (s ≠ "")
  | Some (VBool b) => b
  | Some (VInt n) => bool_decide (n ≠ 0%Z)
  | Some (VList l) => bool_decide (l ≠ [])
  | Some (VMap m) => bool_decide (m ≠ ∅)
  end.

(** The framework's check of an [ExactlyOneOf] group on a configuration
    whose values are all known: the attribute's own key joins the group,
    and exactly one key of the group is set. *)
Definition validateExactlyOneAttribute
    (key : string) (s : Schema) (config : gmap string value) : bool :=
  match ExactlyOneOf (props s) with
  | [] => true
  | group =>
      let allKeys := remove_dups (group ++ [key]) in
      bool_decide (length (filter (λ k, isSet config k = true) allKeys) = 1)
  end.

(** All attributes of a schema map pass their [ExactlyOneOf] check. *)
Definition validateGroups (fields : list (string * Schema)) (config : gmap string value) : bool :=
  forallb (λ ks, validateExactlyOneAttribute ks.1 ks.2 config) fields.

End schema.

Module flex.

(** Modelled from the spec: [flex.ExpandStringSet] and [flex.FlattenStringSet]
    live in internal/flex, which is not among the sources.  Section 4 of the
    specification describes expanding and flattening as one-to-one copies with
    nil checks: the members of the set become the elements of the slice, and
    the elements of a slice (none, for a nil slice) the members of the set. *)
Definition ExpandStringSet (configured : gset string) : list string :=
  elements configured.

(** Modelled from the spec: the way back of [ExpandStringSet], a nil slice
    giving the empty set. *)
Definition FlattenStringSet (l : option (list string)) : gset string :=
  list_to_set (default [] l).

End flex.

(** ** SageMaker Workforce *)

(** The request and response structures of the SageMaker SDK.  A slice field
    is [None] when nil. *)
Module CognitoConfig.
Record t : Type := mk { ClientId : option string; UserPool : option string }.
End CognitoConfig.

Module OidcConfig.
Record t : Type := mk {
  AuthorizationEndpoint : option string;
  ClientId : option string;
  ClientSecret : option string;
  Issuer : option string;
  JwksUri : option string;
  LogoutEndpoint : option string;
  TokenEndpoint : option string;
  UserInfoEndpoint : option string
}.
End OidcConfig.

Module OidcConfigForResponse.
Record t : Type := mk {
  AuthorizationEndpoint : option string;
  ClientId : option string;
  Issuer : option string;
  JwksUri : option string;
  LogoutEndpoint : option string;
  TokenEndpoint : option string;
  UserInfoEndpoint : option string
}.
End OidcConfigForResponse.

Module SourceIpConfig.
Record t : Type := mk { Cidrs : option (list string) }.
End SourceIpConfig.

Module WorkforceVpcConfigRequest.
Record t : Type := mk {
  SecurityGroupIds : option (list string);
  Subnets : option (list string);
  VpcId : option string
}.
End WorkforceVpcConfigRequest.

Module WorkforceVpcConfigResponse.
Record t : Type := mk {
  SecurityGroupIds : option (list string);
  Subnets : option (list string);
  VpcEndpointId : option string;
  VpcId : option string
}.
End WorkforceVpcConfigResponse.

Module Workforce.
Record t : Type := mk {
  WorkforceArn : option string;
  SubDomain : option string;
  WorkforceName : option string;
  CognitoConfig : option CognitoConfig.t;
  OidcConfig : option OidcConfigForResponse.t;
  SourceIpConfig : option SourceIpConfig.t;
  WorkforceVpcConfig : option WorkforceVpcConfigResponse.t
}.
End Workforce.

Module CreateWorkforceInput.
Record t : Type := mk {
  WorkforceName : option string;
  CognitoConfig : option CognitoConfig.t;
  OidcConfig : option OidcConfig.t;
  SourceIpConfig : option SourceIpConfig.t;
  WorkforceVpcConfig : option WorkforceVpcConfigRequest.t
}.
End CreateWorkforceInput.

Module UpdateWorkforceInput.
Record t : Type := mk {
  WorkforceName : option string;
  OidcConfig : option OidcConfig.t;
  SourceIpConfig : option SourceIpConfig.t;
  WorkforceVpcConfig : option WorkforceVpcConfigRequest.t
}.
End UpdateWorkforceInput.

Module DeleteWorkforceInput.
Record t : Type := mk { WorkforceName : option string }.
End DeleteWorkforceInput.

Module sagemaker.

(** The calls the Workforce resource makes on its connection.  The finder and
    the two waiters (find.go and wait.go, not among the sources) are calls
    too: all that the resource sees of them is what they return. *)
Inductive Call : Type :=
| CreateWorkforce (input : CreateWorkforceInput.t)
| UpdateWorkforce (input : UpdateWorkforceInput.t)
| DeleteWorkforce (input : DeleteWorkforceInput.t)
| FindWorkforce (name : string)
| WaitActive (name : string)
| WaitDeleted (name : string).

(** The service: each answer is the error of the call ([None] for nil); the
    finder returns a Workforce or an error. *)
Record API : Type := {
  CreateWorkforceWithContext : list Call → CreateWorkforceInput.t → option error;
  UpdateWorkforceWithContext : list Call → UpdateWorkforceInput.t → option error;
  DeleteWorkforceWithContext : list Call → DeleteWorkforceInput.t → option error;
  FindWorkforceByName : list Call → string → Workforce.t + error;
  WaitWorkforceActive : list Call → string → option error;
  WaitWorkforceDeleted : list Call → string → option error
}.

End sagemaker.

Import schema.

Definition optional (p : Props) : Props :=
  {| Type_ := Type_ p; Optional := true; Required := Required p; Computed := Computed p;
     ForceNew := ForceNew p; Sensitive := Sensitive p; MaxItems := MaxItems p;
     ExactlyOneOf := ExactlyOneOf p; Validate := Validate p |}.
Definition required (p : Props) : Props :=
  {| Type_ := Type_ p; Optional := Optional p; Required := true; Computed := Computed p;
     ForceNew := ForceNew p; Sensitive := Sensitive p; MaxItems := MaxItems p;
     ExactlyOneOf := ExactlyOneOf p; Validate := Validate p |}.
Definition computed (p : Props) : Props :=
  {| Type_ := Type_ p; Optional := Optional p; Required := Required p; Computed := true;
     ForceNew := ForceNew p; Sensitive := Sensitive p; MaxItems := MaxItems p;
     ExactlyOneOf := ExactlyOneOf p; Validate := Validate p |}.
Definition forceNew (p : Props) : Props :=
  {| Type_ := Type_ p; Optional := Optional p; Required := Required p; Computed := Computed p;
     ForceNew := true; Sensitive := Sensitive p; MaxItems := MaxItems p;
     ExactlyOneOf := ExactlyOneOf p; Validate := Validate p |}.
Definition sensitive (p : Props) : Props :=
  {| Type_ := Type_ p; Optional := Optional p; Required := Required p; Computed := Computed p;
     ForceNew := ForceNew p; Sensitive := true; MaxItems := MaxItems p;
     ExactlyOneOf := ExactlyOneOf p; Validate := Validate p |}.
Definition maxItems (n : nat) (p : Props) : Props :=
  {| Type_ := Type_ p; Optional := Optional p; Required := Required p; Computed := Computed p;
     ForceNew := ForceNew p; Sensitive := Sensitive p; MaxItems := n;
     ExactlyOneOf := ExactlyOneOf p; Validate := Validate p |}.
Definition exactlyOneOf (keys : list string) (p : Props) : Props :=
  {| Type_ := Type_ p; Optional := Optional p; Required := Required p; Computed := Computed p;
     ForceNew := ForceNew p; Sensitive := Sensitive p; MaxItems := MaxItems p;
     ExactlyOneOf := keys; Validate := Validate p |}.
Definition validateFunc (f : ValidateFunc) (p : Props) : Props :=
  {| Type_ := Type_ p; Optional := Optional p; Required := Required p; Computed := Computed p;
     ForceNew := ForceNew p; Sensitive := Sensitive p; MaxItems := MaxItems p;
     ExactlyOneOf := ExactlyOneOf p; Validate := Some f |}.

Definition httpsURL : ValidateFunc := All [StringLenBetween 1 500; IsURLWithHTTPS].

(** [ResourceWorkforce().Schema], attribute by attribute. *)
Definition ResourceWorkforce : list (string * Schema) :=
  [ ("arn", mkSchema (computed (of_type TypeString)) NoElem);
    ("cognito_config",
     mkSchema
       (exactlyOneOf ["oidc_config"; "cognito_config"]
          (maxItems 1 (forceNew (optional (of_type TypeList)))))
       (ElemResource
          [ ("client_id", mkSchema (required (of_type TypeString)) NoElem);
            ("user_pool", mkSchema (required (of_type TypeString)) NoElem) ]));
    ("oidc_config",
     mkSchema
       (exactlyOneOf ["oidc_config"; "cognito_config"]
          (maxItems 1 (optional (of_type TypeList))))
       (ElemResource
          [ ("authorization_endpoint",
             mkSchema (validateFunc httpsURL (required (of_type TypeString))) NoElem);
            ("client_id",
             mkSchema (validateFunc (StringLenBetween 1 1024) (required (of_type TypeString))) NoElem);
            ("client_secret",
             mkSchema (validateFunc (StringLenBetween 1 1024)
                         (sensitive (required (of_type TypeString)))) NoElem);
            ("issuer", mkSchema (validateFunc httpsURL (required (of_type TypeString))) NoElem);
            ("jwks_uri", mkSchema (validateFunc httpsURL (required (of_type TypeString))) NoElem);
            ("logout_endpoint",
             mkSchema (validateFunc httpsURL (required (of_type TypeString))) NoElem);
            ("token_endpoint",
             mkSchema (validateFunc httpsURL (required (of_type TypeString))) NoElem);
            ("user_info_endpoint",
             mkSchema (validateFunc httpsURL (required (of_type TypeString))) NoElem) ]));
    ("source_ip_config",
     mkSchema (maxItems 1 (computed (optional (of_type TypeList))))
       (ElemResource
          [ ("cidrs",
             mkSchema (maxItems 10 (required (of_type TypeSet)))
               (ElemSchema (mkSchema (validateFunc IsCIDR (of_type TypeString)) NoElem))) ]));
    ("subdomain", mkSchema (computed (of_type TypeString)) NoElem);
    ("workforce_name",
     mkSchema
       (validateFunc
          (All [StringLenBetween 1 63;
                StringMatch "^[a-zA-Z0-9]([a-zA-Z0-9\-])*$"
                  "Valid characters are a-z, A-Z, 0-9, and - (hyphen)."])
          (forceNew (required (of_type TypeString))))
       NoElem);
    ("workforce_vpc_config",
     mkSchema (maxItems 1 (optional (of_type TypeList)))
       (ElemResource
          [ ("security_group_ids",
             mkSchema (maxItems 5 (optional (of_type TypeSet)))
               (ElemSchema (mkSchema (of_type TypeString) NoElem)));
            ("subnets",
             mkSchema (maxItems 16 (optional (of_type TypeSet)))
               (ElemSchema (mkSchema (of_type TypeString) NoElem)));
            ("vpc_endpoint_id", mkSchema (computed (of_type TypeString)) NoElem);
            ("vpc_id", mkSchema (optional (of_type TypeString)) NoElem) ])) ].

(** [v.(string)] and [v.( *schema.Set)] on [m[key]]: a missing key or a value
    of the other type panics. *)
Definition assertString (v : option fval) : result string :=
  match v with Some (VString s) => Ok s | _ => Panic end.

Definition assertSet (v : option fval) : result (gset string) :=
  match v with Some (VSet xs) => Ok xs | _ => Panic end.

Definition expandWorkforceSourceIPConfig (l : list (option block))
  : result (option SourceIpConfig.t) :=
  match l with
  | [] | None :: _ => Ok None
  | Some m :: _ =>
      cidrs ← assertSet (m !! "cidrs");
      Ok (Some {| SourceIpConfig.Cidrs := Some (flex.ExpandStringSet cidrs) |})
  end.

Definition flattenWorkforceSourceIPConfig (config : option SourceIpConfig.t) : list block :=
  match config with
  | None => []
  | Some config =>
      [ {[ "cidrs" := VSet (flex.FlattenStringSet (SourceIpConfig.Cidrs config)) ]} ]
  end.

Definition expandWorkforceCognitoConfig (l : list (option block))
  : result (option CognitoConfig.t) :=
  match l with
  | [] | None :: _ => Ok None
  | Some m :: _ =>
      client_id ← assertString (m !! "client_id");
      user_pool ← assertString (m !! "user_pool");
      Ok (Some {| CognitoConfig.ClientId := aws.String client_id;
                  CognitoConfig.UserPool := aws.String user_pool |})
  end.

Definition flattenWorkforceCognitoConfig (config : option CognitoConfig.t) : list block :=
  match config with
  | None => []
  | Some config =>
      [ {[ "client_id" := VString (aws.StringValue (CognitoConfig.ClientId config));
           "user_pool" := VString (aws.StringValue (CognitoConfig.UserPool config)) ]} ]
  end.

Definition expandWorkforceOIDCConfig (l : list (option block))
  : result (option OidcConfig.t) :=
  match l with
  | [] | None :: _ => Ok None
  | Some m :: _ =>
      authorization_endpoint ← assertString (m !! "authorization_endpoint");
      client_id ← assertString (m !! "client_id");
      client_secret ← assertString (m !! "client_secret");
      issuer ← assertString (m !! "issuer");
      jwks_uri ← assertString (m !! "jwks_uri");
      logout_endpoint ← assertString (m !! "logout_endpoint");
      token_endpoint ← assertString (m !! "token_endpoint");
      user_info_endpoint ← assertString (m !! "user_info_endpoint");
      Ok (Some {| OidcConfig.AuthorizationEndpoint := aws.String authorization_endpoint;
                  OidcConfig.ClientId := aws.String client_id;
                  OidcConfig.ClientSecret := aws.String client_secret;
                  OidcConfig.Issuer := aws.String issuer;
                  OidcConfig.JwksUri := aws.String jwks_uri;
                  OidcConfig.LogoutEndpoint := aws.String logout_endpoint;
                  OidcConfig.TokenEndpoint := aws.String token_endpoint;
                  OidcConfig.UserInfoEndpoint := aws.String user_info_endpoint |})
  end.

Definition flattenWorkforceOIDCConfig
    (config : option OidcConfigForResponse.t) (clientSecret : string) : list block :=
  match config with
  | None => []
  | Some config =>
      [ {[ "authorization_endpoint" :=
             VString (aws.StringValue (OidcConfigForResponse.AuthorizationEndpoint config));
           "client_id" := VString (aws.StringValue (OidcConfigForResponse.ClientId config));
           "client_secret" := VString clientSecret;
           "issuer" := VString (aws.StringValue (OidcConfigForResponse.Issuer config));
           "jwks_uri" := VString (aws.StringValue (OidcConfigForResponse.JwksUri config));
           "logout_endpoint" :=
             VString (aws.StringValue (OidcConfigForResponse.LogoutEndpoint config));
           "token_endpoint" :=
             VString (aws.StringValue (OidcConfigForResponse.TokenEndpoint config));
           "user_info_endpoint" :=
             VString (aws.StringValue (OidcConfigForResponse.UserInfoEndpoint config)) ]} ]
  end.

Definition expandWorkforceVPCConfig (l : list (option block))
  : result (option WorkforceVpcConfigRequest.t) :=
  match l with
  | [] | None :: _ =>
      Ok (Some {| WorkforceVpcConfigRequest.SecurityGroupIds := None;
                  WorkforceVpcConfigRequest.Subnets := None;
                  WorkforceVpcConfigRequest.VpcId := None |})
  | Some m :: _ =>
      security_group_ids ← assertSet (m !! "security_group_ids");
      subnets ← assertSet (m !! "subnets");
      vpc_id ← assertString (m !! "vpc_id");
      Ok (Some {| WorkforceVpcConfigRequest.SecurityGroupIds :=
                    Some (flex.ExpandStringSet security_group_ids);
                  WorkforceVpcConfigRequest.Subnets := Some (flex.ExpandStringSet subnets);
                  WorkforceVpcConfigRequest.VpcId := aws.String vpc_id |})
  end.

Definition flattenWorkforceVPCConfig (config : option WorkforceVpcConfigResponse.t) : list block :=
  match config with
  | None => []
  | Some config =>
      [ {[ "security_group_ids" :=
             VSet (flex.FlattenStringSet (WorkforceVpcConfigResponse.SecurityGroupIds config));
           "subnets" := VSet (flex.FlattenStringSet (WorkforceVpcConfigResponse.Subnets config));
           "vpc_endpoint_id" :=
             VString (aws.StringValue (WorkforceVpcConfigResponse.VpcEndpointId config));
           "vpc_id" := VString (aws.StringValue (WorkforceVpcConfigResponse.VpcId config)) ]} ]
  end.

(** A flattened list as [d.Set] stores it. *)
Definition blocks (l : list block) : value := VList (Some <$> l).

Import sagemaker.

Definition resourceWorkforceRead (conn : API) (d : ResourceData)
  : Conn Call (Diagnostics * ResourceData) :=
  let diags : Diagnostics := [] in
  found ← call (FindWorkforce (Id d)) (λ log, FindWorkforceByName conn log (Id d));
  match found with
  | inr err =>
      if negb (IsNewResource d) && isNotFound err then
        mret (diags, SetId "" d)
      else
        mret (sdkdiag.AppendErrorf diags
                ("reading SageMaker Workforce (" +:+ Id d +:+ "): " +:+ Error err), d)
  | inl workforce =>
      let d := d_SetStringPtr "arn" (Workforce.WorkforceArn workforce) d in
      let d := d_SetStringPtr "subdomain" (Workforce.SubDomain workforce) d in
      let d := d_SetStringPtr "workforce_name" (Workforce.WorkforceName workforce) d in
      let d := d_Set "cognito_config"
                 (blocks (flattenWorkforceCognitoConfig (Workforce.CognitoConfig workforce))) d in
      let d := match Workforce.OidcConfig workforce with
               | Some _ =>
                   d_Set "oidc_config"
                     (blocks (flattenWorkforceOIDCConfig (Workforce.OidcConfig workforce)
                                (GetBlockString d "oidc_config" "client_secret"))) d
               | None => d
               end in
      let d := d_Set "source_ip_config"
                 (blocks (flattenWorkforceSourceIPConfig (Workforce.SourceIpConfig workforce))) d in
      let d := d_Set "workforce_vpc_config"
                 (blocks (flattenWorkforceVPCConfig (Workforce.WorkforceVpcConfig workforce))) d in
      mret (diags, d)
  end.

(** An optional block of the create input: expanded when [GetOk] finds it. *)
Definition whenOk {A} (got : list (option block) * bool)
    (expand : list (option block) → result (option A)) : result (option A) :=
  if got.2 then expand got.1 else Ok None.

Definition resourceWorkforceCreate (conn : API) (d : ResourceData)
  : Conn Call (Diagnostics * ResourceData) :=
  let diags : Diagnostics := [] in
  let name := GetString d "workforce_name" in
  cognito ← lift (whenOk (GetOkList d "cognito_config") expandWorkforceCognitoConfig);
  oidc ← lift (whenOk (GetOkList d "oidc_config") expandWorkforceOIDCConfig);
  sourceIp ← lift (whenOk (GetOkList d "source_ip_config") expandWorkforceSourceIPConfig);
  vpc ← lift (whenOk (GetOkList d "workforce_vpc_config") expandWorkforceVPCConfig);
  let input := {| CreateWorkforceInput.WorkforceName := aws.String name;
                  CreateWorkforceInput.CognitoConfig := cognito;
                  CreateWorkforceInput.OidcConfig := oidc;
                  CreateWorkforceInput.SourceIpConfig := sourceIp;
                  CreateWorkforceInput.WorkforceVpcConfig := vpc |} in
  err ← call (CreateWorkforce input) (λ log, CreateWorkforceWithContext conn log input);
  match err with
  | Some err =>
      mret (sdkdiag.AppendErrorf diags
              ("creating SageMaker Workforce (" +:+ name +:+ "): " +:+ Error err), d)
  | None =>
      let d := SetId name d in
      err ← call (WaitActive name) (λ log, WaitWorkforceActive conn log name);
      match err with
      | Some err =>
          mret (sdkdiag.AppendErrorf diags
                  ("waiting for SageMaker Workforce (" +:+ Id d +:+ ") create: " +:+ Error err), d)
      | None =>
          '(readDiags, d) ← resourceWorkforceRead conn d;
          mret (diags ++ readDiags, d)
      end
  end.

(** An optional block of the update input: expanded when the attribute changed. *)
Definition whenChanged {A} (d : ResourceData) (key : string)
    (expand : list (option block) → result (option A)) : result (option A) :=
  if HasChangeList d key then expand (GetList d key) else Ok None.

Definition resourceWorkforceUpdate (conn : API) (d : ResourceData)
  : Conn Call (Diagnostics * ResourceData) :=
  let diags : Diagnostics := [] in
  sourceIp ← lift (whenChanged d "source_ip_config" expandWorkforceSourceIPConfig);
  oidc ← lift (whenChanged d "oidc_config" expandWorkforceOIDCConfig);
  vpc ← lift (whenChanged d "workforce_vpc_config" expandWorkforceVPCConfig);
  let input := {| UpdateWorkforceInput.WorkforceName := aws.String (Id d);
                  UpdateWorkforceInput.OidcConfig := oidc;
                  UpdateWorkforceInput.SourceIpConfig := sourceIp;
                  UpdateWorkforceInput.WorkforceVpcConfig := vpc |} in
  err ← call (UpdateWorkforce input) (λ log, UpdateWorkforceWithContext conn log input);
  match err with
  | Some err =>
      mret (sdkdiag.AppendErrorf diags
              ("updating SageMaker Workforce (" +:+ Id d +:+ "): " +:+ Error err), d)
  | None =>
      err ← call (WaitActive (Id d)) (λ log, WaitWorkforceActive conn log (Id d));
      match err with
      | Some err =>
          mret (sdkdiag.AppendErrorf diags
                  ("waiting for SageMaker Workforce (" +:+ Id d +:+ ") update: " +:+ Error err), d)
      | None =>
          '(readDiags, d) ← resourceWorkforceRead conn d;
          mret (diags ++ readDiags, d)
      end
  end.

Definition resourceWorkforceDelete (conn : API) (d : ResourceData)
  : Conn Call (Diagnostics * ResourceData) :=
  let diags : Diagnostics := [] in
  let input := {| DeleteWorkforceInput.WorkforceName := aws.String (Id d) |} in
  err ← call (DeleteWorkforce input) (λ log, DeleteWorkforceWithContext conn log input);
  if tfawserr.ErrMessageContains err "ValidationException" "No workforce" then
    mret (diags, d)
  else
    match err with
    | Some err =>
        mret (sdkdiag.AppendErrorf diags
                ("deleting SageMaker Workforce (" +:+ Id d +:+ "): " +:+ Error err), d)
    | None =>
        err ← call (WaitDeleted (Id d)) (λ log, WaitWorkforceDeleted conn log (Id d));
        match err with
        | Some err =>
            mret (sdkdiag.AppendErrorf diags
                    ("waiting for SageMaker Workforce (" +:+ Id d +:+ ") delete: " +:+ Error err), d)
        | None => mret (diags, d)
        end
    end.

(** ** Tags *)

Module tftags.

(** Modelled from the spec: the tag package (internal/tags) is not among the
    sources.  The glossary's tag set is "a mapping of string keys to string
    values"; section 8 asks that an empty or absent tag set be "an empty
    mapping, never null"; section 4 names the operations as merging and
    diffing.  A Go map is either nil or allocated, so [KeyValueTags] keeps the
    two apart. *)
Inductive KeyValueTags : Type :=
| nil_map
| make (m : gmap string string).

(** Modelled from the spec: [tags.Map()], the entries as a plain mapping. *)
Definition Map (tags : KeyValueTags) : gmap string string :=
  match tags with nil_map => ∅ | make m => m end.

(** [len(tags)]: the number of entries; none for a nil map. *)
Definition len (tags : KeyValueTags) : nat := size (Map tags).

(** Modelled from the spec: [New(ctx, i)] allocates a map with the entries of
    [i], and with none for a nil [i] ("an empty mapping, never null"). *)
Definition New (i : option (gmap string string)) : KeyValueTags :=
  make (default ∅ i).

(** Modelled from the spec: [tags.Ignore(ignoreTags)], the diff of section 4:
    the entries of [tags] under keys that [ignoreTags] does not have. *)
Definition Ignore (tags ignoreTags : KeyValueTags) : KeyValueTags :=
  make (filter (λ kv, Map ignoreTags !! kv.1 = None) (Map tags)).

(** Modelled from the spec: [tags.Merge(mergeTags)], the merge of section 4:
    the entries of both, those of [mergeTags] first. *)
Definition Merge (tags mergeTags : KeyValueTags) : KeyValueTags :=
  make (Map mergeTags ∪ Map tags).

(** Modelled from the spec: [tags.IgnoreAWS()], the tags without those that
    AWS keeps for itself under the [aws:] prefix. *)
Definition IgnoreAWS (tags : KeyValueTags) : KeyValueTags :=
  make (filter (λ kv, HasPrefix kv.1 "aws:" = false) (Map tags)).

(** Modelled from the spec: [IgnoreConfig] and [tags.IgnoreConfig(config)],
    the externally-ignored tags of section 4: the keys and key prefixes the
    provider is told to leave alone. *)
Record IgnoreConfig_t : Type := { Keys : KeyValueTags; KeyPrefixes : list string }.

Definition IgnoreConfig (config : option IgnoreConfig_t) (tags : KeyValueTags) : KeyValueTags :=
  match config with
  | None => tags
  | Some config =>
      Ignore
        (make (filter (λ kv, existsb (HasPrefix kv.1) (KeyPrefixes config) = false) (Map tags)))
        (Keys config)
  end.

End tftags.

(** ** S3: tag helpers and the object data source *)

Module s3.

Definition Time : Type := Z.

Module HeadObjectInput.
Record t : Type := mk {
  Bucket : option string;
  Key : option string;
  Range : option string;
  VersionId : option string
}.
End HeadObjectInput.

Module GetObjectInput.
Record t : Type := mk {
  Bucket : option string;
  Key : option string;
  Range : option string;
  VersionId : option string
}.
End GetObjectInput.

(** The fields of [s3.HeadObjectOutput] that the data source reads. *)
Module HeadObjectOutput.
Record t : Type := mk {
  BucketKeyEnabled : option bool;
  CacheControl : option string;
  ContentDisposition : option string;
  ContentEncoding : option string;
  ContentLanguage : option string;
  ContentLength : option Z;
  ContentType : option string;
  DeleteMarker : option bool;
  ETag : option string;
  Expiration : option string;
  Expires : option string;
  LastModified : option Time;
  Metadata : gmap string string;
  ObjectLockLegalHoldStatus : option string;
  ObjectLockMode : option string;
  ObjectLockRetainUntilDate : option Time;
  ServerSideEncryption : option string;
  SSEKMSKeyId : option string;
  StorageClass : option string;
  VersionId : option string;
  WebsiteRedirectLocation : option string
}.
End HeadObjectOutput.

(** [s3.GetObjectOutput]: what reading [Body] to its end gives. *)
Module GetObjectOutput.
Record t : Type := mk { Body : string + error }.
End GetObjectOutput.

(** A tag set on the wire: [[]*s3.Tag], each tag a key and a value. *)
Definition TagSet : Type := list (string * string).

Inductive Call : Type :=
| GetBucketTagging (bucket : string)
| PutBucketTagging (bucket : string) (tagSet : TagSet)
| DeleteBucketTagging (bucket : string)
| GetObjectTagging (bucket key : string)
| PutObjectTagging (bucket key : string) (tagSet : TagSet)
| DeleteObjectTagging (bucket key : string)
| HeadObject (input : HeadObjectInput.t)
| GetObject (input : GetObjectInput.t).

(** A call that changes the tags of the bucket or object. *)
Definition mutating (c : Call) : bool :=
  match c with
  | PutBucketTagging _ _ | DeleteBucketTagging _
  | PutObjectTagging _ _ _ | DeleteObjectTagging _ _ => true
  | _ => false
  end.

(** The v1 connection ([s3iface.S3API]); [retriesWithin t] is the number of
    further attempts that fit in a timeout of [t] seconds. *)
Record S3API : Type := {
  GetBucketTaggingWithContext : list Call → string → TagSet + error;
  PutBucketTaggingWithContext : list Call → string → TagSet → option error;
  DeleteBucketTaggingWithContext : list Call → string → option error;
  GetObjectTaggingWithContext : list Call → string → string → TagSet + error;
  PutObjectTaggingWithContext : list Call → string → string → TagSet → option error;
  DeleteObjectTaggingWithContext : list Call → string → string → option error;
  HeadObjectWithContext : list Call → HeadObjectInput.t → HeadObjectOutput.t + error;
  GetObjectWithContext : list Call → GetObjectInput.t → GetObjectOutput.t + error;
  retriesWithin : nat → nat
}.

(** The v2 client, as far as [ObjectListTags] uses it. *)
Record Client : Type := {
  GetObjectTagging_v2 : list Call → string → string → TagSet + error;
  retriesWithin_v2 : nat → nat
}.

(** [meta.( *conns.AWSClient)]. *)
Record AWSClient : Type := {
  S3Conn : S3API;
  IgnoreTagsConfig : option tftags.IgnoreConfig_t
}.

End s3.

Import tftags s3.

Module tfresource.

(** Modelled from the spec: the retry helpers (internal/tfresource) are not
    among the sources.  Section 5 describes them as a blocking
    poll-until-condition parameterized by a timeout: [f] is tried again while
    its error is one to retry and the timeout leaves attempts. *)
Fixpoint RetryWhen {A} (retry : error → bool) (attempts : nat)
    (f : Conn Call (A + error)) : Conn Call (A + error) :=
  r ← f;
  match r, attempts with
  | inr err, S attempts' => if retry err then RetryWhen retry attempts' f else mret r
  | _, _ => mret r
  end.

(** Modelled from the spec: the same loop, retrying on the given error
    codes. *)
Definition RetryWhenAWSErrCodeEquals {A} (attempts : nat)
    (f : Conn Call (A + error)) (codes : list string) : Conn Call (A + error) :=
  RetryWhen (λ err, tfawserr.ErrCodeEquals (Some err) codes) attempts f.

(** Modelled from the spec: [RetryWhenIsA] at the type of the [NoSuchKey]
    error, which is the error the service reports under that code. *)
Definition RetryWhenIsA_NoSuchKey {A} (attempts : nat)
    (f : Conn Call (A + error)) : Conn Call (A + error) :=
  RetryWhen (λ err, tfawserr.ErrCodeEquals (Some err) ["NoSuchKey"]) attempts f.

End tfresource.

(** Modelled from the spec: the two codes of the "no tag set" error of
    section 7 are constants of errors.go, which is not among the sources; the
    comment in [BucketListTags] names both. *)
Definition errCodeNoSuchTagSet : string := "NoSuchTagSet".
Definition errCodeNoSuchTagSetError : string := "NoSuchTagSetError".

(** [s3.ErrCodeNoSuchKey] of the SDK. *)
Definition ErrCodeNoSuchKey : string := "NoSuchKey".

(** Modelled from the spec: [KeyValueTags(ctx, tags)] and [keyValueTagsV2]
    (the generated tags file of the package, not among the sources) flatten a
    tag set to a mapping, a later tag replacing an earlier one of the same
    key. *)
Definition KeyValueTags_of (tags : TagSet) : KeyValueTags :=
  make (foldl (λ m kv, <[kv.1 := kv.2]> m) ∅ tags).

(** Modelled from the spec: [Tags(tags)], the way back to a tag set. *)
Definition Tags (tags : KeyValueTags) : TagSet := map_to_list (Map tags).

Definition errOf {A} (r : A + error) : option error :=
  match r with inl _ => None | inr err => Some err end.

Definition BucketListTags (conn : S3API) (identifier : string)
  : Conn Call (KeyValueTags * option error) :=
  output ← call (GetBucketTagging identifier)
             (λ log, GetBucketTaggingWithContext conn log identifier);
  if tfawserr.ErrCodeEquals (errOf output) [errCodeNoSuchTagSet; errCodeNoSuchTagSetError] then
    mret (tftags.New None, None)
  else
    match output with
    | inr err => mret (tftags.New None, Some err)
    | inl tagSet => mret (KeyValueTags_of tagSet, None)
    end.

Definition ObjectListTags (conn : Client) (bucket key : string)
  : Conn Call (KeyValueTags * option error) :=
  outputRaw ← tfresource.RetryWhenIsA_NoSuchKey (retriesWithin_v2 conn 60)
                (call (GetObjectTagging bucket key)
                   (λ log, GetObjectTagging_v2 conn log bucket key));
  if tfawserr.ErrCodeEquals (errOf outputRaw) [errCodeNoSuchTagSet; errCodeNoSuchTagSetError] then
    mret (tftags.New None, None)
  else
    match outputRaw with
    | inr err => mret (tftags.New None, Some err)
    | inl tagSet => mret (KeyValueTags_of tagSet, None)
    end.

Definition ObjectListTagsV1 (conn : S3API) (bucket key : string)
  : Conn Call (KeyValueTags * option error) :=
  outputRaw ← tfresource.RetryWhenAWSErrCodeEquals (retriesWithin conn 60)
                (call (GetObjectTagging bucket key)
                   (λ log, GetObjectTaggingWithContext conn log bucket key))
                [ErrCodeNoSuchKey];
  if tfawserr.ErrCodeEquals (errOf outputRaw) [errCodeNoSuchTagSet; errCodeNoSuchTagSetError] then
    mret (tftags.New None, None)
  else
    match outputRaw with
    | inr err => mret (tftags.New None, Some err)
    | inl tagSet => mret (KeyValueTags_of tagSet, None)
    end.

Definition BucketUpdateTags (conn : S3API) (identifier : string)
    (oldTagsMap newTagsMap : option (gmap string string)) : Conn Call (option error) :=
  let oldTags := tftags.New oldTagsMap in
  let newTags := tftags.New newTagsMap in
  '(allTags, err) ← BucketListTags conn identifier;
  match err with
  | Some err =>
      mret (Some (Wrapped ("listing resource tags (" +:+ identifier +:+ "): " +:+ Error err) err))
  | None =>
      let ignoredTags := Ignore (Ignore allTags oldTags) newTags in
      if bool_decide (0 < len newTags + len ignoredTags) then
        let tagSet := Tags (Merge newTags ignoredTags) in
        err ← call (PutBucketTagging identifier tagSet)
                (λ log, PutBucketTaggingWithContext conn log identifier tagSet);
        match err with
        | Some err =>
            mret (Some (Wrapped
                    ("setting resource tags (" +:+ identifier +:+ "): " +:+ Error err) err))
        | None => mret None
        end
      else if bool_decide (0 < len oldTags) && bool_decide (len ignoredTags = 0) then
        err ← call (DeleteBucketTagging identifier)
                (λ log, DeleteBucketTaggingWithContext conn log identifier);
        match err with
        | Some err =>
            mret (Some (Wrapped
                    ("deleting resource tags (" +:+ identifier +:+ "): " +:+ Error err) err))
        | None => mret None
        end
      else mret None
  end.

Definition ObjectUpdateTags (conn : S3API) (bucket key : string)
    (oldTagsMap newTagsMap : option (gmap string string)) : Conn Call (option error) :=
  let oldTags := tftags.New oldTagsMap in
  let newTags := tftags.New newTagsMap in
  '(allTags, err) ← ObjectListTagsV1 conn bucket key;
  match err with
  | Some err =>
      mret (Some (Wrapped
              ("listing resource tags (" +:+ bucket +:+ "/" +:+ key +:+ "): " +:+ Error err) err))
  | None =>
      let ignoredTags := Ignore (Ignore allTags oldTags) newTags in
      if bool_decide (0 < len newTags + len ignoredTags) then
        let tagSet := Tags (Merge newTags ignoredTags) in
        err ← call (PutObjectTagging bucket key tagSet)
                (λ log, PutObjectTaggingWithContext conn log bucket key tagSet);
        match err with
        | Some err =>
            mret (Some (Wrapped
                    ("setting resource tags (" +:+ bucket +:+ "/" +:+ key +:+ "): "
                       +:+ Error err) err))
        | None => mret None
        end
      else if bool_decide (0 < len oldTags) && bool_decide (len ignoredTags = 0) then
        err ← call (DeleteObjectTagging bucket key)
                (λ log, DeleteObjectTaggingWithContext conn log bucket key);
        match err with
        | Some err =>
            mret (Some (Wrapped
                    ("deleting resource tags (" +:+ bucket +:+ "/" +:+ key +:+ "): "
                       +:+ Error err) err))
        | None => mret None
        end
      else mret None
  end.

(** [strings.Trim(s, cutset)] for a cutset of one byte. *)
Fixpoint TrimLeft (c : ascii) (s : string) : string :=
  match s with
  | String c' s' => if decide (c' = c) then TrimLeft c s' else s
  | EmptyString => EmptyString
  end.

Definition reverse_string (s : string) : string :=
  string_of_list_ascii (rev (list_ascii_of_string s)).

Definition Trim (s : string) (c : ascii) : string :=
  reverse_string (TrimLeft c (reverse_string (TrimLeft c s))).

Definition double_quote : ascii := "034"%char.

Definition StorageClassStandard : string := "STANDARD".

(** The patterns of [isContentTypeAllowed], in the order of the source:
<<
      ^application/atom\+xml$      ^application/json$       ^application/ld\+json$
      ^application/x-csh$          ^application/x-httpd-php$  ^application/x-sh$
      ^application/xhtml\+xml$     ^application/xml$        ^text/.+
>> *)
Definition allowedContentTypes : list Regexp :=
  [ MustCompile true (LiteralString "application/atom+xml") true;
    MustCompile true (LiteralString "application/json") true;
    MustCompile true (LiteralString "application/ld+json") true;
    MustCompile true (LiteralString "application/x-csh") true;
    MustCompile true (LiteralString "application/x-httpd-php") true;
    MustCompile true (LiteralString "application/x-sh") true;
    MustCompile true (LiteralString "application/xhtml+xml") true;
    MustCompile true (LiteralString "application/xml") true;
    MustCompile true (Concat (LiteralString "text/") (Plus AnyCharNotNL)) false ].

Definition isContentTypeAllowed (contentType : option string) : bool :=
  match contentType with
  | None => false
  | Some contentType => existsb (λ r, MatchString r contentType) allowedContentTypes
  end.

Section ObjectDataSource.

(** [t.Format(time.RFC1123)], and [flattenObjectDate] of object.go, which is
    not among the sources. *)
Variable FormatRFC1123 : Time → string.
Variable flattenObjectDate : option Time → string.

(** The attributes copied from the response of [HeadObject], up to
    [website_redirect_location]. *)
Definition setHeadAttributes (out : HeadObjectOutput.t) (d : ResourceData) : ResourceData :=
  let d := d_SetBoolPtr "bucket_key_enabled" (HeadObjectOutput.BucketKeyEnabled out) d in
  let d := d_SetStringPtr "cache_control" (HeadObjectOutput.CacheControl out) d in
  let d := d_SetStringPtr "content_disposition" (HeadObjectOutput.ContentDisposition out) d in
  let d := d_SetStringPtr "content_encoding" (HeadObjectOutput.ContentEncoding out) d in
  let d := d_SetStringPtr "content_language" (HeadObjectOutput.ContentLanguage out) d in
  let d := d_SetIntPtr "content_length" (HeadObjectOutput.ContentLength out) d in
  let d := d_SetStringPtr "content_type" (HeadObjectOutput.ContentType out) d in
  let d := d_Set "etag"
             (VStr (Trim (aws.StringValue (HeadObjectOutput.ETag out)) double_quote)) d in
  let d := d_SetStringPtr "expiration" (HeadObjectOutput.Expiration out) d in
  let d := d_SetStringPtr "expires" (HeadObjectOutput.Expires out) d in
  let d := match HeadObjectOutput.LastModified out with
           | Some t => d_Set "last_modified" (VStr (FormatRFC1123 t)) d
           | None => d_Set "last_modified" (VStr "") d
           end in
  let d := d_Set "metadata" (VMap (HeadObjectOutput.Metadata out)) d in
  let d := d_SetStringPtr "object_lock_legal_hold_status"
             (HeadObjectOutput.ObjectLockLegalHoldStatus out) d in
  let d := d_SetStringPtr "object_lock_mode" (HeadObjectOutput.ObjectLockMode out) d in
  let d := d_Set "object_lock_retain_until_date"
             (VStr (flattenObjectDate (HeadObjectOutput.ObjectLockRetainUntilDate out))) d in
  let d := d_SetStringPtr "server_side_encryption" (HeadObjectOutput.ServerSideEncryption out) d in
  let d := d_SetStringPtr "sse_kms_key_id" (HeadObjectOutput.SSEKMSKeyId out) d in
  let d := d_SetStringPtr "version_id" (HeadObjectOutput.VersionId out) d in
  d_SetStringPtr "website_redirect_location" (HeadObjectOutput.WebsiteRedirectLocation out) d.

(** The storage class: [STANDARD] is the default and is not in the response. *)
Definition setStorageClass (out : HeadObjectOutput.t) (d : ResourceData) : ResourceData :=
  match HeadObjectOutput.StorageClass out with
  | None => d_Set "storage_class" (VStr StorageClassStandard) d
  | Some _ => d_SetStringPtr "storage_class" (HeadObjectOutput.StorageClass out) d
  end.

(** The end of the read: the tags of the object. *)
Definition readTags (meta : AWSClient) (bucket key : string)
    (diags : Diagnostics) (d : ResourceData) : Conn Call (Diagnostics * ResourceData) :=
  '(tags, err) ← ObjectListTagsV1 (S3Conn meta) bucket key;
  match err with
  | Some err =>
      mret (sdkdiag.AppendErrorf diags
              ("listing tags for S3 Bucket (" +:+ bucket +:+ ") Object (" +:+ key +:+ "): "
                 +:+ Error err), d)
  | None =>
      mret (diags,
            d_Set "tags" (VMap (Map (IgnoreConfig (IgnoreTagsConfig meta) (IgnoreAWS tags)))) d)
  end.

(** The input of [HeadObject]: bucket and key, and the range and the version
    when they are given. *)
Definition headObjectInput (d : ResourceData) : HeadObjectInput.t :=
  let range := GetOkString d "range" in
  let version := GetOkString d "version_id" in
  {| HeadObjectInput.Bucket := aws.String (GetString d "bucket");
     HeadObjectInput.Key := aws.String (GetString d "key");
     HeadObjectInput.Range := if range.2 then aws.String range.1 else None;
     HeadObjectInput.VersionId := if version.2 then aws.String version.1 else None |}.

(** [strconv.Quote], which is what the verb [%q] of [fmt] prints for a
    string: the string between double quotes, with backslash, double quote
    and the bytes that do not print written as escapes.  It belongs to the Go
    library and is kept as a parameter. *)
Variable Quote : string → string.

Definition versionText (d : ResourceData) : string :=
  let version := GetOkString d "version_id" in
  if version.2 then " of version " +:+ Quote version.1 else "".

Definition uniqueId (d : ResourceData) : string :=
  let version := GetOkString d "version_id" in
  let uniqueId := (GetString d "bucket" +:+ "/") +:+ GetString d "key" in
  if version.2 then uniqueId +:+ ("@" +:+ version.1) else uniqueId.

(** The input of [GetObject], built after the attributes are set: the range
    as given, the version as [HeadObject] returned it. *)
Definition getObjectInput (bucket key : string) (d : ResourceData) (out : HeadObjectOutput.t)
  : GetObjectInput.t :=
  let range := GetOkString d "range" in
  {| GetObjectInput.Bucket := aws.String bucket;
     GetObjectInput.Key := aws.String key;
     GetObjectInput.Range := if range.2 then aws.String range.1 else None;
     GetObjectInput.VersionId := HeadObjectOutput.VersionId out |}.

Definition dataSourceObjectRead (meta : AWSClient) (d : ResourceData)
  : Conn Call (Diagnostics * ResourceData) :=
  let diags : Diagnostics := [] in
  let conn := S3Conn meta in
  let bucket := GetString d "bucket" in
  let key := GetString d "key" in
  let input := headObjectInput d in
  let versionText := versionText d in
  let uniqueId := uniqueId d in
  head ← call (HeadObject input) (λ log, HeadObjectWithContext conn log input);
  match head with
  | inr err =>
      mret (sdkdiag.AppendErrorf diags
              ("getting S3 Bucket (" +:+ bucket +:+ ") Object (" +:+ key +:+ "): "
                 +:+ Error err), d)
  | inl out =>
      if aws.BoolValue (HeadObjectOutput.DeleteMarker out) then
        mret (sdkdiag.AppendErrorf diags
                ("Requested S3 object " +:+ Quote (bucket +:+ key) +:+ versionText
                   +:+ " has been deleted"), d)
      else
        let d := SetId uniqueId d in
        let d := setHeadAttributes out d in
        let d := setStorageClass out d in
        if isContentTypeAllowed (HeadObjectOutput.ContentType out) then
          let input := getObjectInput bucket key d out in
          got ← call (GetObject input) (λ log, GetObjectWithContext conn log input);
          match got with
          | inr err =>
              mret (sdkdiag.AppendErrorf diags ("Failed getting S3 object: " +:+ Error err), d)
          | inl out =>
              match GetObjectOutput.Body out with
              | inr err =>
                  mret (sdkdiag.AppendErrorf diags
                          ("Failed reading content of S3 object (" +:+ uniqueId +:+ "): "
                             +:+ Error err), d)
              | inl content => readTags meta bucket key diags (d_Set "body" (VStr content) d)
              end
          end
        else
          readTags meta bucket key diags d
  end.

End ObjectDataSource.

(** ** Notions used to state the properties *)

(** A string between double quotes: an ETag as S3 sends it and, for the
    samples, whose strings hold nothing to escape, what [%q] prints. *)
Definition inQuotes (s : string) : string :=
  String double_quote (s +:+ String double_quote EmptyString).

(** The content types that the allow-list admits as they stand. *)
Definition exactContentTypes : list string :=
  [ "application/atom+xml"; "application/json"; "application/ld+json";
    "application/x-csh"; "application/x-httpd-php"; "application/x-sh";
    "application/xhtml+xml"; "application/xml" ].

(** A field value of the type a schema declares. *)
Definition hasType (t : ValueType) (v : fval) : bool :=
  match t, v with
  | TypeString, VString _ | TypeSet, VSet _ => true
  | _, _ => false
  end.

(** The fields that the Workforce schema declares for a nested block. *)
Definition blockFields (key : string) : list (string * Schema) :=
  match schema.lookup key ResourceWorkforce with
  | Some s => match Elem s with ElemResource fields => fields | _ => [] end
  | None => []
  end.

(** A field map is valid for a block when it holds exactly the fields of the
    schema, each with a value of the declared type; a valid input is a list
    of one such map. *)
Definition validBlock (key : string) (m : block) : Prop :=
  ∀ k, match schema.lookup k (blockFields key) with
       | Some s => ∃ v, m !! k = Some v ∧ hasType (Type_ (props s)) v = true
       | None => m !! k = None
       end.

Definition validInput (key : string) (l : list (option block)) : Prop :=
  ∃ m, l = [Some m] ∧ validBlock key m.

(** What the service keeps of a request and gives back on a read: an OIDC
    configuration without its secret, a VPC configuration together with the
    endpoint the service made for it. *)
Definition oidcResponse (config : OidcConfig.t) : OidcConfigForResponse.t :=
  {| OidcConfigForResponse.AuthorizationEndpoint := OidcConfig.AuthorizationEndpoint config;
     OidcConfigForResponse.ClientId := OidcConfig.ClientId config;
     OidcConfigForResponse.Issuer := OidcConfig.Issuer config;
     OidcConfigForResponse.JwksUri := OidcConfig.JwksUri config;
     OidcConfigForResponse.LogoutEndpoint := OidcConfig.LogoutEndpoint config;
     OidcConfigForResponse.TokenEndpoint := OidcConfig.TokenEndpoint config;
     OidcConfigForResponse.UserInfoEndpoint := OidcConfig.UserInfoEndpoint config |}.

Definition vpcResponse (config : WorkforceVpcConfigRequest.t) (endpoint : option string)
  : WorkforceVpcConfigResponse.t :=
  {| WorkforceVpcConfigResponse.SecurityGroupIds :=
       WorkforceVpcConfigRequest.SecurityGroupIds config;
     WorkforceVpcConfigResponse.Subnets := WorkforceVpcConfigRequest.Subnets config;
     WorkforceVpcConfigResponse.VpcEndpointId := endpoint;
     WorkforceVpcConfigResponse.VpcId := WorkforceVpcConfigRequest.VpcId config |}.

(** The request that [expandWorkforceVPCConfig] makes of no block at all. *)
Definition emptyVpcConfigRequest : WorkforceVpcConfigRequest.t :=
  {| WorkforceVpcConfigRequest.SecurityGroupIds := None;
     WorkforceVpcConfigRequest.Subnets := None;
     WorkforceVpcConfigRequest.VpcId := None |}.

(** Sample blocks. *)
Definition sampleCognito : block :=
  {[ "client_id" := VString "client-1"; "user_pool" := VString "pool-1" ]}.

Definition sampleOidc : block :=
  {[ "authorization_endpoint" := VString "https://idp.example.com/authorize";
     "client_id" := VString "client-1";
     "client_secret" := VString "s3cr3t";
     "issuer" := VString "https://idp.example.com";
     "jwks_uri" := VString "https://idp.example.com/jwks";
     "logout_endpoint" := VString "https://idp.example.com/logout";
     "token_endpoint" := VString "https://idp.example.com/token";
     "user_info_endpoint" := VString "https://idp.example.com/userinfo" ]}.

Definition sampleSourceIp : block := {[ "cidrs" := VSet {[ "10.0.0.0/16" ]} ]}.

Definition sampleVpc (endpoint : string) : block :=
  {[ "security_group_ids" := VSet {[ "sg-1" ]};
     "subnets" := VSet {[ "subnet-1"; "subnet-2" ]};
     "vpc_endpoint_id" := VString endpoint;
     "vpc_id" := VString "vpc-1" ]}.

(** A SageMaker service that answers every call the same way. *)
Definition scriptedSageMaker (create update delete : option error)
    (found : Workforce.t + error) (active deleted : option error) : sagemaker.API :=
  {| CreateWorkforceWithContext := λ _ _, create;
     UpdateWorkforceWithContext := λ _ _, update;
     DeleteWorkforceWithContext := λ _ _, delete;
     FindWorkforceByName := λ _ _, found;
     WaitWorkforceActive := λ _ _, active;
     WaitWorkforceDeleted := λ _ _, deleted |}.

Definition sampleWorkforce : Workforce.t :=
  {| Workforce.WorkforceArn := Some "arn:aws:sagemaker:eu-west-1:123456789012:workforce/team";
     Workforce.SubDomain := Some "team.labeling.eu-west-1.sagemaker.aws";
     Workforce.WorkforceName := Some "team";
     Workforce.CognitoConfig :=
       Some {| CognitoConfig.ClientId := Some "client-1";
               CognitoConfig.UserPool := Some "pool-1" |};
     Workforce.OidcConfig := None;
     Workforce.SourceIpConfig := None;
     Workforce.WorkforceVpcConfig := None |}.

Definition workforceData (isNew : bool) (id : string)
    (prior planned : gmap string value) : ResourceData :=
  {| Id := id; IsNewResource := isNew; state := prior; attrs := planned |}.

(** An S3 service that answers every call the same way. *)
Definition scriptedS3 (bucketTags objectTags : TagSet + error)
    (head : HeadObjectOutput.t + error) (object : GetObjectOutput.t + error) : S3API :=
  {| GetBucketTaggingWithContext := λ _ _, bucketTags;
     PutBucketTaggingWithContext := λ _ _ _, None;
     DeleteBucketTaggingWithContext := λ _ _, None;
     GetObjectTaggingWithContext := λ _ _ _, objectTags;
     PutObjectTaggingWithContext := λ _ _ _ _, None;
     DeleteObjectTaggingWithContext := λ _ _ _, None;
     HeadObjectWithContext := λ _ _, head;
     GetObjectWithContext := λ _ _, object;
     retriesWithin := λ _, 2 |}.

Definition scriptedClient (objectTags : TagSet + error) : Client :=
  {| GetObjectTagging_v2 := λ _ _ _, objectTags; retriesWithin_v2 := λ _, 2 |}.

Definition sampleHead (contentType storageClass : option string) (deleteMarker : option bool)
  : HeadObjectOutput.t :=
  {| HeadObjectOutput.BucketKeyEnabled := None;
     HeadObjectOutput.CacheControl := None;
     HeadObjectOutput.ContentDisposition := None;
     HeadObjectOutput.ContentEncoding := None;
     HeadObjectOutput.ContentLanguage := None;
     HeadObjectOutput.ContentLength := Some 5%Z;
     HeadObjectOutput.ContentType := contentType;
     HeadObjectOutput.DeleteMarker := deleteMarker;
     HeadObjectOutput.ETag := Some "5d41402abc4b2a76b9719d911017c592";
     HeadObjectOutput.Expiration := None;
     HeadObjectOutput.Expires := None;
     HeadObjectOutput.LastModified := None;
     HeadObjectOutput.Metadata := ∅;
     HeadObjectOutput.ObjectLockLegalHoldStatus := None;
     HeadObjectOutput.ObjectLockMode := None;
     HeadObjectOutput.ObjectLockRetainUntilDate := None;
     HeadObjectOutput.ServerSideEncryption := None;
     HeadObjectOutput.SSEKMSKeyId := None;
     HeadObjectOutput.StorageClass := storageClass;
     HeadObjectOutput.VersionId := None;
     HeadObjectOutput.WebsiteRedirectLocation := None |}.

Definition sampleMeta (objectTags : TagSet + error) (head : HeadObjectOutput.t + error) : AWSClient :=
  {| S3Conn := scriptedS3 (inl []) objectTags head
                 (inl {| GetObjectOutput.Body := inl "hello" |});
     IgnoreTagsConfig := None |}.

Definition objectData (planned : gmap string value) : ResourceData :=
  {| Id := ""; IsNewResource := false; state := ∅; attrs := planned |}.

Definition noDate : option Time → string := λ _, "".
Definition noTime : Time → string := λ _, "".

(** Whether a run returned, and the diagnostics and the resource data that it
    returned ([d], had it panicked). *)
Definition returned {C A} (run : result A * list C) : bool :=
  match run.1 with Ok _ => true | Panic => false end.

Definition diagsOf {C} (run : result (Diagnostics * ResourceData) * list C) : Diagnostics :=
  match run.1 with Ok (diags, _) => diags | Panic => [] end.

Definition dataOf {C} (d : ResourceData)
    (run : result (Diagnostics * ResourceData) * list C) : ResourceData :=
  match run.1 with Ok (_, d') => d' | Panic => d end.

(** A Workforce being created with a Cognito block, and an object looked up
    by bucket, key and version. *)
Definition newWorkforce : ResourceData :=
  workforceData true "" ∅
    {[ "workforce_name" := VStr "team"; "cognito_config" := VList [Some sampleCognito] ]}.

Definition versionedObject : ResourceData :=
  objectData {[ "bucket" := VStr "b"; "key" := VStr "k"; "version_id" := VStr "v1" ]}.

Definition plainObject : ResourceData :=
  objectData {[ "bucket" := VStr "b"; "key" := VStr "k" ]}.

Definition text_newline : string := "text/" +:+ String newline "".

(** The calls made from [log] on: what has been added to it. *)
Definition calls_since {C} (log log' : list C) : list C := drop (length log) log'.

(** The create input, as the blocks of the resource data expand. *)
Definition createInput (d : ResourceData)
    (cognito : option CognitoConfig.t) (oidc : option OidcConfig.t)
    (sourceIp : option SourceIpConfig.t) (vpc : option WorkforceVpcConfigRequest.t)
  : CreateWorkforceInput.t :=
  {| CreateWorkforceInput.WorkforceName := aws.String (GetString d "workforce_name");
     CreateWorkforceInput.CognitoConfig := cognito;
     CreateWorkforceInput.OidcConfig := oidc;
     CreateWorkforceInput.SourceIpConfig := sourceIp;
     CreateWorkforceInput.WorkforceVpcConfig := vpc |}.

(** The update input likewise. *)
Definition updateInput (d : ResourceData)
    (oidc : option OidcConfig.t) (sourceIp : option SourceIpConfig.t)
    (vpc : option WorkforceVpcConfigRequest.t) : UpdateWorkforceInput.t :=
  {| UpdateWorkforceInput.WorkforceName := aws.String (Id d);
     UpdateWorkforceInput.OidcConfig := oidc;
     UpdateWorkforceInput.SourceIpConfig := sourceIp;
     UpdateWorkforceInput.WorkforceVpcConfig := vpc |}.

(** Resource data with both authentication blocks set, and with neither. *)
Definition bothAuthConfigs : ResourceData :=
  workforceData true "" ∅
    {[ "workforce_name" := VStr "team";
       "cognito_config" := VList [Some sampleCognito];
       "oidc_config" := VList [Some sampleOidc] ]}.

Definition noAuthConfig : ResourceData :=
  workforceData true "" ∅ {[ "workforce_name" := VStr "team" ]}.

(** A Workforce whose VPC block, set in the prior state, is cleared. *)
Definition clearedVpcConfig : ResourceData :=
  workforceData false "team"
    {[ "workforce_name" := VStr "team";
       "workforce_vpc_config" := VList [Some (sampleVpc "vpce-1")] ]}
    {[ "workforce_name" := VStr "team" ]}.

(** An error that reports, under either code, that there is no tag set. *)
Definition noTagSet (err : error) : Prop :=
  ∃ code message,
    asAwsError err = Some (code, message)
    ∧ (code = "NoSuchTagSet" ∨ code = "NoSuchTagSetError").

(** The calls of a run that change tags. *)
Definition mutations {A} (log : list s3.Call) (run : result A * list s3.Call) : list s3.Call :=
  List.filter mutating (calls_since log run.2).

(** Tag maps for the samples. *)
Definition sampleTags : gmap string string := {[ "env" := "test" ]}.

(** The one corrective call of an update, if any: a put of the new tags
    merged with the ignored ones when there are any, a delete when there are
    none but there were old ones. *)
Definition correction (put : TagSet → s3.Call) (delete : s3.Call)
    (oldTags newTags ignoredTags : KeyValueTags) : list s3.Call :=
  if bool_decide (0 < len newTags + len ignoredTags) then
    [put (Tags (Merge newTags ignoredTags))]
  else if bool_decide (0 < len oldTags) && bool_decide (len ignoredTags = 0) then
    [delete]
  else [].

Definition noSuchTagSet : error := AwsError "NoSuchTagSet" "The TagSet does not exist".
Definition accessDenied : error := AwsError "AccessDenied" "Access Denied".

(** ** The schema of the object data source *)

(** Modelled from the spec: [tftags.TagsSchemaComputed()] lives in
    internal/tags, which is not among the sources; a tag set is "a mapping of
    string keys to string values", here one that the provider computes. *)
Definition TagsSchemaComputed : Schema :=
  mkSchema (computed (of_type TypeMap)) (ElemSchema (mkSchema (of_type TypeString) NoElem)).

Definition computedString : Schema := mkSchema (computed (of_type TypeString)) NoElem.

(** [DataSourceObject().Schema], attribute by attribute. *)
Definition DataSourceObject : list (string * Schema) :=
  [ ("body", computedString);
    ("bucket", mkSchema (required (of_type TypeString)) NoElem);
    ("bucket_key_enabled", mkSchema (computed (of_type TypeBool)) NoElem);
    ("cache_control", computedString);
    ("content_disposition", computedString);
    ("content_encoding", computedString);
    ("content_language", computedString);
    ("content_length", mkSchema (computed (of_type TypeInt)) NoElem);
    ("content_type", computedString);
    ("etag", computedString);
    ("expiration", computedString);
    ("expires", computedString);
    ("key", mkSchema (required (of_type TypeString)) NoElem);
    ("last_modified", computedString);
    ("metadata",
     mkSchema (computed (of_type TypeMap)) (ElemSchema (mkSchema (of_type TypeString) NoElem)));
    ("object_lock_legal_hold_status", computedString);
    ("object_lock_mode", computedString);
    ("object_lock_retain_until_date", computedString);
    ("range", mkSchema (optional (of_type TypeString)) NoElem);
    ("server_side_encryption", computedString);
    ("sse_kms_key_id", computedString);
    ("storage_class", computedString);
    ("version_id", mkSchema (computed (optional (of_type TypeString))) NoElem);
    ("website_redirect_location", computedString);
    ("tags", TagsSchemaComputed) ].

(** ** Notions used to state further properties *)

(** A top-level value of the type a schema declares. *)
Definition valueHasType (t : ValueType) (v : value) : bool :=
  match t, v with
  | TypeString, VStr _ | TypeBool, VBool _ | TypeInt, VInt _
  | TypeList, VList _ | TypeMap, VMap _ => true
  | _, _ => false
  end.

(** From [d] to [d'] every attribute is as it was, or is one that the schema
    declares and holds a value of the declared type. *)
Definition writesWithin (fields : list (string * Schema)) (d d' : ResourceData) : Prop :=
  ∀ k, attrs d' !! k = attrs d !! k
       ∨ ∃ s v, schema.lookup k fields = Some s
                ∧ attrs d' !! k = Some v
                ∧ valueHasType (Type_ (props s)) v = true.

(** A string or set field of a block, when it is there with that type. *)
Definition stringField (m : block) (key : string) : option string :=
  match m !! key with Some (VString s) => Some s | _ => None end.

Definition setField (m : block) (key : string) : option (gset string) :=
  match m !! key with Some (VSet xs) => Some xs | _ => None end.

(** Whether a result is a panic. *)
Definition panicked {A} (r : result A) : bool :=
  match r with Ok _ => false | Panic => true end.

(** A list attribute as the schema wants it: no block, or one valid block. *)
Definition validList (key : string) (l : list (option block)) : Prop :=
  l = [] ∨ validInput key l.

(** The new calls of a run on the SageMaker connection. *)
Definition callsOf {C A} (log : list C) (run : result A * list C) : list C :=
  calls_since log run.2.


(** A Workforce in the state, with its OIDC block and the secret given. *)
Definition oidcInState : ResourceData :=
  workforceData false "team"
    {[ "workforce_name" := VStr "team"; "oidc_config" := VList [Some sampleOidc] ]}
    {[ "workforce_name" := VStr "team"; "oidc_config" := VList [Some sampleOidc] ]}.

Definition notFound : error := NotFoundError "couldn't find resource".

(** A string that begins, or ends, with a given character, and one that is
    made of that character alone. *)
Definition startsWith (c : ascii) (s : string) : Prop :=
  match s with String c' _ => c' = c | EmptyString => False end.

Definition endsWith (c : ascii) (s : string) : Prop := startsWith c (reverse_string s).

Fixpoint repeated (c : ascii) (s : string) : Prop :=
  match s with String c' s' => c' = c ∧ repeated c s' | EmptyString => True end.

(** The attributes that the read of an object copies from the response of
    [HeadObject]. *)
Definition headAttributes : list string :=
  [ "bucket_key_enabled"; "cache_control"; "content_disposition"; "content_encoding";
    "content_language"; "content_length"; "content_type"; "etag"; "expiration"; "expires";
    "last_modified"; "metadata"; "object_lock_legal_hold_status"; "object_lock_mode";
    "object_lock_retain_until_date"; "server_side_encryption"; "sse_kms_key_id";
    "version_id"; "website_redirect_location" ].

(** An object whose ETag comes in quotes, as S3 sends it. *)
Definition quotedETagHead : HeadObjectOutput.t :=
  {| HeadObjectOutput.BucketKeyEnabled := None;
     HeadObjectOutput.CacheControl := None;
     HeadObjectOutput.ContentDisposition := None;
     HeadObjectOutput.ContentEncoding := None;
     HeadObjectOutput.ContentLanguage := None;
     HeadObjectOutput.ContentLength := Some 5%Z;
     HeadObjectOutput.ContentType := Some "image/png";
     HeadObjectOutput.DeleteMarker := None;
     HeadObjectOutput.ETag := Some (inQuotes "5d41402abc4b2a76b9719d911017c592");
     HeadObjectOutput.Expiration := None;
     HeadObjectOutput.Expires := None;
     HeadObjectOutput.LastModified := None;
     HeadObjectOutput.Metadata := ∅;
     HeadObjectOutput.ObjectLockLegalHoldStatus := None;
     HeadObjectOutput.ObjectLockMode := None;
     HeadObjectOutput.ObjectLockRetainUntilDate := None;
     HeadObjectOutput.ServerSideEncryption := None;
     HeadObjectOutput.SSEKMSKeyId := None;
     HeadObjectOutput.StorageClass := None;
     HeadObjectOutput.VersionId := Some "v7";
     HeadObjectOutput.WebsiteRedirectLocation := None |}.

(** An S3 service whose [GetObject] fails. *)
Definition failingGetMeta (head : HeadObjectOutput.t + error) (err : error) : AWSClient :=
  {| S3Conn := scriptedS3 (inl []) (inl []) head (inr err); IgnoreTagsConfig := None |}.

Definition rangedObject : ResourceData :=
  objectData {[ "bucket" := VStr "b"; "key" := VStr "k"; "range" := VStr "bytes=0-9";
                "version_id" := VStr "v1" ]}.

(** ** Notions for the tag updates *)

(** The error, if any, with which the connection answers a call made after
    the calls of [log]. *)
Definition answeredWith (conn : S3API) (log : list s3.Call) (c : s3.Call) : option error :=
  match c with
  | GetBucketTagging bucket => errOf (GetBucketTaggingWithContext conn log bucket)
  | PutBucketTagging bucket tagSet => PutBucketTaggingWithContext conn log bucket tagSet
  | DeleteBucketTagging bucket => DeleteBucketTaggingWithContext conn log bucket
  | GetObjectTagging bucket key => errOf (GetObjectTaggingWithContext conn log bucket key)
  | PutObjectTagging bucket key tagSet => PutObjectTaggingWithContext conn log bucket key tagSet
  | DeleteObjectTagging bucket key => DeleteObjectTaggingWithContext conn log bucket key
  | HeadObject input => errOf (HeadObjectWithContext conn log input)
  | GetObject input => errOf (GetObjectWithContext conn log input)
  end.

(** The last call of a run decides what the run returns: an error is the
    error of that call, wrapped, and is not the no-tag-set error of a read; no
    error means that the call succeeded, or was a read answered with the
    no-tag-set error. *)
Definition lastCallDecides (conn : S3API) (log : list s3.Call)
    (run : result (option error) * list s3.Call) : Prop :=
  ∃ r before c,
    run = (Ok r, log ++ before ++ [c])
    ∧ match r, answeredWith conn (log ++ before) c with
      | Some e, Some cause =>
          (∃ message, e = Wrapped message cause) ∧ (mutating c = false → ¬ noTagSet cause)
      | None, Some cause => mutating c = false ∧ noTagSet cause
      | None, None => True
      | Some _, None => False
      end.

(** The tag sets that the calls of a run put. *)
Definition putTagSets (calls : list s3.Call) : list TagSet :=
  omap (λ c, match c with
             | PutBucketTagging _ tagSet | PutObjectTagging _ _ tagSet => Some tagSet
             | _ => None
             end) calls.

(** The tags that an answer of the service shows to be on the bucket or
    object: those of the tag set it returns, and none when it is the
    no-tag-set error. *)
Definition tagsOnResource (answer : TagSet + error) (found : TagSet) : Prop :=
  answer = inl found ∨ (found = [] ∧ ∃ err, answer = inr err ∧ noTagSet err).

(** A service on which the object appears at the second read of its tags. *)
Definition lateObjectS3 (objectTags : TagSet) : S3API :=
  {| GetBucketTaggingWithContext := λ _ _, inr accessDenied;
     PutBucketTaggingWithContext := λ _ _ _, None;
     DeleteBucketTaggingWithContext := λ _ _, None;
     GetObjectTaggingWithContext :=
       λ log _ _, match log with
                  | [] => inr (AwsError "NoSuchKey" "The specified key does not exist")
                  | _ => inl objectTags
                  end;
     PutObjectTaggingWithContext := λ _ _ _ _, None;
     DeleteObjectTaggingWithContext := λ _ _ _, None;
     HeadObjectWithContext := λ _ _, inr accessDenied;
     GetObjectWithContext := λ _ _, inr accessDenied;
     retriesWithin := λ _, 2 |}.

(** A tag set that holds the new tags and, of the tags found, those under
    keys that neither the old nor the new tags have. *)
Definition keepsUnmanaged (old new : option (gmap string string)) (found : TagSet)
    (tagSet : TagSet) : Prop :=
  ∀ k v, (k, v) ∈ tagSet
         ↔ default ∅ new !! k = Some v
           ∨ (default ∅ new !! k = None ∧ default ∅ old !! k = None
              ∧ Map (KeyValueTags_of found) !! k = Some v).

(** ** Notions for the update of a Workforce *)



(** ** Notions for the writes of a Workforce read *)

(** A value as the Workforce schema wants it under a key: a scalar of the
    declared type; for a list attribute no block or one block, which holds
    exactly the fields of the nested schema, each of its declared type. *)
Definition conformsTo (key : string) (s : Schema) (v : value) : Prop :=
  match v with
  | VList l => Type_ (props s) = TypeList ∧ validList key l
  | _ => valueHasType (Type_ (props s)) v = true
  end.

(** From [d] to [d'] every attribute is as it was, or is one that the
    Workforce schema declares and holds a value as the schema wants it. *)
Definition writesConform (d d' : ResourceData) : Prop :=
  ∀ k, attrs d' !! k = attrs d !! k
       ∨ ∃ s v, schema.lookup k ResourceWorkforce = Some s
                ∧ attrs d' !! k = Some v
                ∧ conformsTo k s v.

(** * Properties *)

(** ** Strings *)

Lemma append_nil_l (s : string) : "" +:+ s = s.
Proof. reflexivity. Qed.

Lemma append_cons (c : ascii) (s1 s2 : string) : String c s1 +:+ s2 = String c (s1 +:+ s2).
Proof. reflexivity. Qed.

Lemma append_nil_r (s : string) : s +:+ "" = s.
Proof. induction s as [|c s IH]; rewrite ?append_cons, ?append_nil_l; congruence. Qed.

Lemma append_assoc (s1 s2 s3 : string) : (s1 +:+ s2) +:+ s3 = s1 +:+ (s2 +:+ s3).
Proof. induction s1 as [|c s1 IH]; rewrite ?append_cons, ?append_nil_l; congruence. Qed.

Lemma append_eq_nil (s1 s2 : string) : s1 +:+ s2 = "" → s1 = "" ∧ s2 = "".
Proof. destruct s1; rewrite ?append_cons, ?append_nil_l; [done | discriminate]. Qed.

(** A concatenation that starts with [c] takes [c] from its first part, or
    its first part is empty. *)
Lemma append_eq_cons (s1 s2 s : string) (c : ascii) :
  s1 +:+ s2 = String c s →
  (s1 = "" ∧ s2 = String c s) ∨ (∃ s1', s1 = String c s1' ∧ s = s1' +:+ s2).
Proof.
  destruct s1 as [|c1 s1]; rewrite ?append_cons, ?append_nil_l; intros H.
  - by left.
  - right. injection H as -> <-. by exists s1.
Qed.

(** ** The matcher decides the language *)

Module RegexpFacts.

Lemma matches_Concat_inv (r1 r2 : re) (s : string) :
  matches (Concat r1 r2) s → ∃ s1 s2, s = s1 +:+ s2 ∧ matches r1 s1 ∧ matches r2 s2.
Proof. inversion 1; subst; eauto. Qed.

Lemma matches_Alternate_inv (r1 r2 : re) (s : string) :
  matches (Alternate r1 r2) s → matches r1 s ∨ matches r2 s.
Proof. inversion 1; subst; eauto. Qed.

Lemma matches_Literal_inv (c : ascii) (s : string) :
  matches (Literal c) s → s = String c "".
Proof. by inversion 1. Qed.

Lemma matches_Any_inv (s : string) :
  matches AnyCharNotNL s → ∃ c, s = String c "" ∧ c ≠ newline.
Proof. inversion 1; subst; eauto. Qed.

Lemma matches_EmptyMatch_inv (s : string) : matches EmptyMatch s → s = "".
Proof. by inversion 1. Qed.

Lemma nullable_spec (r : re) : nullable r = true ↔ matches r "".
Proof.
  induction r as [| | c | | r1 IH1 r2 IH2 | r1 IH1 r2 IH2 | r IH]; simpl.
  - split; [done | inversion 1].
  - split; [constructor | done].
  - split; [done | inversion 1].
  - split; [done | inversion 1].
  - rewrite andb_true_iff, IH1, IH2. split.
    + intros [H1 H2]. by apply (MConcat _ _ "" "").
    + intros (s1 & s2 & Heq & H1 & H2)%matches_Concat_inv. symmetry in Heq.
      apply append_eq_nil in Heq as [-> ->]. done.
  - rewrite orb_true_iff, IH1, IH2. split.
    + intros [H|H]; [by apply MAltL | by apply MAltR].
    + apply matches_Alternate_inv.
  - split; [constructor | done].
Qed.

Lemma star_cons_inv (r : re) (c : ascii) (s : string) :
  matches (Star r) (String c s) →
  ∃ s1 s2, s = s1 +:+ s2 ∧ matches r (String c s1) ∧ matches (Star r) s2.
Proof.
  intros H. remember (Star r) as r' eqn:Hr. remember (String c s) as s' eqn:Hs.
  revert s Hs.
  induction H as [| | | | | | |r0 t1 t2 H1 _ H2 IH2]; intros u Hu; try discriminate.
  injection Hr as ->.
  apply append_eq_cons in Hu as [[-> ->]|(t1' & -> & ->)].
  - by apply IH2.
  - by exists t1', t2.
Qed.

Lemma deriv_spec (c : ascii) (r : re) (s : string) :
  matches (deriv c r) s ↔ matches r (String c s).
Proof.
  revert s.
  induction r as [| | c' | | r1 IH1 r2 IH2 | r1 IH1 r2 IH2 | r IH]; intros s; simpl.
  - split; inversion 1.
  - split; inversion 1.
  - case_decide as Hc.
    + subst c'. split.
      * intros ->%matches_EmptyMatch_inv. constructor.
      * intros H%matches_Literal_inv. injection H as ->. constructor.
    + split; [inversion 1 |].
      intros H%matches_Literal_inv. injection H as ? ?. done.
  - case_decide as Hc.
    + split; [inversion 1 |].
      intros (c' & H & Hne)%matches_Any_inv. injection H as ? ?. congruence.
    + split.
      * intros ->%matches_EmptyMatch_inv. by constructor.
      * intros (c' & H & Hne)%matches_Any_inv. injection H as ? ->. constructor.
  - assert (Hcat : matches (Concat (deriv c r1) r2) s →
                   matches (Concat r1 r2) (String c s)).
    { intros (s1 & s2 & -> & H1 & H2)%matches_Concat_inv.
      apply IH1 in H1. by apply (MConcat _ _ (String c s1) s2). }
    assert (Hinv : matches (Concat r1 r2) (String c s) →
                   matches (Concat (deriv c r1) r2) s ∨
                   (matches r1 "" ∧ matches (deriv c r2) s)).
    { intros (s1 & s2 & Heq & H1 & H2)%matches_Concat_inv. symmetry in Heq.
      apply append_eq_cons in Heq as [[-> ->]|(s1' & -> & ->)].
      - right. split; [done | by apply IH2].
      - left. apply MConcat; [by apply IH1 | done]. }
    destruct (nullable r1) eqn:Hn.
    + split.
      * intros [H|H]%matches_Alternate_inv; [by apply Hcat |].
        apply (MConcat _ _ "" (String c s)); [by apply nullable_spec | by apply IH2].
      * intros H. apply Hinv in H as [H|[_ H]]; [by apply MAltL | by apply MAltR].
    + split; [apply Hcat |].
      intros H. apply Hinv in H as [H|[H _]]; [done |].
      apply nullable_spec in H. congruence.
  - split.
    + intros [H|H]%matches_Alternate_inv; [apply MAltL, IH1 | apply MAltR, IH2]; done.
    + intros [H|H]%matches_Alternate_inv; [apply MAltL, IH1 | apply MAltR, IH2]; done.
  - split.
    + intros (s1 & s2 & -> & H1 & H2)%matches_Concat_inv.
      apply IH in H1. by apply (MStarApp _ (String c s1) s2).
    + intros H. apply star_cons_inv in H as (s1 & s2 & -> & H1 & H2).
      apply MConcat; [by apply IH | done].
Qed.

Lemma accepts_spec (r : re) (s : string) : accepts r s = true ↔ matches r s.
Proof.
  revert r. induction s as [|c s IH]; intros r; simpl.
  - apply nullable_spec.
  - rewrite IH. apply deriv_spec.
Qed.

Lemma accepts_prefix_spec (r : re) (s : string) :
  accepts_prefix r s = true ↔ ∃ s1 s2, s = s1 +:+ s2 ∧ matches r s1.
Proof.
  revert r. induction s as [|c s IH]; intros r; simpl.
  - rewrite orb_false_r, nullable_spec. split.
    + intros H. by exists "", "".
    + intros (s1 & s2 & Heq & H). symmetry in Heq.
      apply append_eq_nil in Heq as [-> _]. done.
  - rewrite orb_true_iff, nullable_spec, IH. split.
    + intros [H|(s1 & s2 & -> & H)].
      * by exists "", (String c s).
      * exists (String c s1), s2. split; [done | by apply deriv_spec].
    + intros (s1 & s2 & Heq & H). symmetry in Heq.
      apply append_eq_cons in Heq as [[-> _]|(s1' & -> & ->)].
      * by left.
      * right. exists s1', s2. split; [done | by apply deriv_spec].
Qed.

Lemma matches_LiteralString (w s : string) : matches (LiteralString w) s ↔ s = w.
Proof.
  revert s. induction w as [|c w IH]; intros s; simpl.
  - split; [apply matches_EmptyMatch_inv | intros ->; constructor].
  - split.
    + intros (s1 & s2 & -> & ->%matches_Literal_inv & ->%IH)%matches_Concat_inv. done.
    + intros ->. apply (MConcat _ _ (String c "") w); [constructor | by apply IH].
Qed.

(** A pattern [^w$] matches the string [w] and no other. *)
Lemma MatchString_anchored (w s : string) :
  MatchString (MustCompile true (LiteralString w) true) s = true ↔ s = w.
Proof. unfold MatchString; simpl. by rewrite accepts_spec, matches_LiteralString. Qed.

Lemma matches_Plus_any (s : string) :
  matches (Plus AnyCharNotNL) s → ∃ c rest, s = String c rest ∧ c ≠ newline.
Proof.
  unfold Plus.
  intros (s1 & s2 & -> & (c & -> & Hc)%matches_Any_inv & _)%matches_Concat_inv.
  by exists c, s2.
Qed.

(** A pattern [^w.+] matches the strings that go on after [w] with a
    character other than the line feed. *)
Lemma MatchString_prefix_any (w s : string) :
  MatchString (MustCompile true (Concat (LiteralString w) (Plus AnyCharNotNL)) false) s = true
  ↔ ∃ c rest, s = w +:+ String c rest ∧ c ≠ newline.
Proof.
  unfold MatchString; simpl. rewrite accepts_prefix_spec. split.
  - intros (s1 & s2 & -> & (t1 & t2 & -> & H1 & H2)%matches_Concat_inv).
    apply matches_LiteralString in H1 as ->.
    apply matches_Plus_any in H2 as (c & rest & -> & Hc).
    exists c, (rest +:+ s2). by rewrite append_assoc.
  - intros (c & rest & -> & Hc).
    exists (w +:+ String c ""), rest. split.
    + by rewrite append_assoc.
    + apply MConcat; [by apply matches_LiteralString |].
      apply (MConcat _ _ (String c "") ""); [by constructor | constructor].
Qed.

End RegexpFacts.

(** ** Running code on a connection *)

Ltac run_conn :=
  unfold mbind, mret, Conn_bind, Conn_ret, conn_bind, conn_ret, call, lift in *;
  simpl in *.

Lemma calls_since_app {C} (log new : list C) : calls_since log (log ++ new) = new.
Proof. unfold calls_since. by rewrite drop_app_length. Qed.

(** A retried call never panics and records nothing but that call, once per
    attempt. *)
Lemma RetryWhen_call {A} (retry : error → bool) (n : nat) (c : s3.Call)
    (answer : list s3.Call → A + error) (log : list s3.Call) :
  ∃ k r, tfresource.RetryWhen retry n (call c answer) log
         = (Ok r, log ++ replicate (S k) c).
Proof.
  revert log. induction n as [|n IH]; intros log; simpl.
  - exists 0, (answer log). run_conn. by destruct (answer log).
  - run_conn. destruct (answer log) as [a|err] eqn:E.
    + by exists 0, (inl a).
    + destruct (retry err).
      * destruct (IH (log ++ [c])) as (k & r & Hk). exists (S k), r.
        rewrite Hk. by rewrite <- app_assoc.
      * by exists 0, (inr err).
Qed.

Lemma ObjectListTagsV1_run (conn : S3API) (bucket key : string) (log : list s3.Call) :
  ∃ k tags err,
    ObjectListTagsV1 conn bucket key log
    = (Ok (tags, err), log ++ replicate (S k) (GetObjectTagging bucket key)).
Proof.
  unfold ObjectListTagsV1, tfresource.RetryWhenAWSErrCodeEquals.
  unfold mbind at 1, Conn_bind, conn_bind.
  destruct (RetryWhen_call
              (λ err, tfawserr.ErrCodeEquals (Some err) [ErrCodeNoSuchKey])
              (retriesWithin conn 60) (GetObjectTagging bucket key)
              (λ log, GetObjectTaggingWithContext conn log bucket key) log)
    as (k & r & ->).
  exists k. destruct (tfawserr.ErrCodeEquals (errOf r) _); [by eexists _, _ |].
  destruct r; by eexists _, _.
Qed.

Lemma attrs_d_Set_ne (key k : string) (v : value) (d : ResourceData) :
  key ≠ k → attrs (d_Set key v d) !! k = attrs d !! k.
Proof. intros H. unfold d_Set; cbn [attrs]. by rewrite lookup_insert_ne. Qed.

Lemma attrs_d_Set_eq (key : string) (v : value) (d : ResourceData) :
  attrs (d_Set key v d) !! key = Some v.
Proof. unfold d_Set; cbn [attrs]. by rewrite lookup_insert_eq. Qed.

Section ObjectDataSourceFacts.

Variable FormatRFC1123 : Time → string.
Variable flattenObjectDate : option Time → string.
Variable Quote : string → string.

(** Reading the tags records only tag reads, leaves the id alone and sets no
    attribute but [tags]. *)
Lemma readTags_run (meta : AWSClient) (bucket key : string)
    (diags : Diagnostics) (d : ResourceData) (log : list s3.Call) :
  ∃ k diags' d',
    readTags meta bucket key diags d log
    = (Ok (diags', d'), log ++ replicate (S k) (GetObjectTagging bucket key))
    ∧ Id d' = Id d
    ∧ (d' = d ∨ (diags' = diags ∧ ∃ v, d' = d_Set "tags" v d)).
Proof.
  unfold readTags. unfold mbind at 1, Conn_bind, conn_bind.
  destruct (ObjectListTagsV1_run (S3Conn meta) bucket key log) as (k & tags & err & ->).
  exists k. destruct err as [err|]; run_conn.
  - eexists _, _. eauto.
  - eexists _, _. split; [done|]. split; [done|]. right. eauto.
Qed.

Lemma setHeadAttributes_Id (out : HeadObjectOutput.t) (d : ResourceData) :
  Id (setHeadAttributes FormatRFC1123 flattenObjectDate out d) = Id d.
Proof. unfold setHeadAttributes. by destruct (HeadObjectOutput.LastModified out). Qed.

Lemma setStorageClass_Id (out : HeadObjectOutput.t) (d : ResourceData) :
  Id (setStorageClass out d) = Id d.
Proof. unfold setStorageClass. by destruct (HeadObjectOutput.StorageClass out). Qed.

(** The attributes that the head of the read sets do not include [body]. *)
Lemma setHeadAttributes_body (out : HeadObjectOutput.t) (d : ResourceData) :
  attrs (setHeadAttributes FormatRFC1123 flattenObjectDate out d) !! "body"
  = attrs d !! "body".
Proof.
  unfold setHeadAttributes, d_SetStringPtr, d_SetBoolPtr, d_SetIntPtr.
  destruct (HeadObjectOutput.LastModified out);
    by repeat (rewrite attrs_d_Set_ne; [|done]).
Qed.

Lemma setStorageClass_body (out : HeadObjectOutput.t) (d : ResourceData) :
  attrs (setStorageClass out d) !! "body" = attrs d !! "body".
Proof.
  unfold setStorageClass, d_SetStringPtr.
  destruct (HeadObjectOutput.StorageClass out); by rewrite attrs_d_Set_ne.
Qed.

End ObjectDataSourceFacts.

(** ** The content-type allow-list *)

Lemma isContentTypeAllowed_iff (s : string) :
  isContentTypeAllowed (Some s) = true
  ↔ s ∈ exactContentTypes ∨ ∃ c rest, s = "text/" +:+ String c rest ∧ c ≠ newline.
Proof.
  unfold isContentTypeAllowed, allowedContentTypes, exactContentTypes.
  cbn [existsb]. rewrite orb_false_r, !orb_true_iff.
  rewrite !RegexpFacts.MatchString_anchored, RegexpFacts.MatchString_prefix_any.
  rewrite !elem_of_cons, elem_of_nil. tauto.
Qed.

Section ObjectRead.

Variable FormatRFC1123 : Time → string.
Variable flattenObjectDate : option Time → string.
Variable Quote : string → string.

Local Abbreviation read := (dataSourceObjectRead FormatRFC1123 flattenObjectDate Quote).

(** The resource data once the response of [HeadObject] is stored. *)
Local Abbreviation stored out d :=
  (setStorageClass out
     (setHeadAttributes FormatRFC1123 flattenObjectDate out (SetId (uniqueId d) d))).

Variables (meta : AWSClient) (d : ResourceData) (log : list s3.Call).

Local Abbreviation bucket := (GetString d "bucket").
Local Abbreviation key := (GetString d "key").
Local Abbreviation head := (HeadObjectWithContext (S3Conn meta) log (headObjectInput d)).
Local Abbreviation log1 := (log ++ [HeadObject (headObjectInput d)]).

(** The read, path by path. *)
Lemma read_head_error (err : error) :
  head = inr err →
  read meta d log
  = (Ok (sdkdiag.AppendErrorf []
           ("getting S3 Bucket (" +:+ bucket +:+ ") Object (" +:+ key +:+ "): "
              +:+ Error err), d), log1).
Proof. intros H. unfold dataSourceObjectRead. run_conn. by rewrite H. Qed.

Lemma read_delete_marker (out : HeadObjectOutput.t) :
  head = inl out →
  aws.BoolValue (HeadObjectOutput.DeleteMarker out) = true →
  read meta d log
  = (Ok (sdkdiag.AppendErrorf []
           ("Requested S3 object " +:+ Quote (bucket +:+ key) +:+ versionText Quote d
              +:+ " has been deleted"), d), log1).
Proof. intros H Hdm. unfold dataSourceObjectRead. run_conn. by rewrite H, Hdm. Qed.

Lemma read_not_allowed (out : HeadObjectOutput.t) :
  head = inl out →
  aws.BoolValue (HeadObjectOutput.DeleteMarker out) = false →
  isContentTypeAllowed (HeadObjectOutput.ContentType out) = false →
  read meta d log = readTags meta bucket key [] (stored out d) log1.
Proof.
  intros H Hdm Hct. unfold dataSourceObjectRead. run_conn. by rewrite H, Hdm, Hct.
Qed.

Local Abbreviation getInput out := (getObjectInput bucket key (stored out d) out).
Local Abbreviation log2 out := (log1 ++ [GetObject (getInput out)]).

Lemma read_allowed (out : HeadObjectOutput.t) :
  head = inl out →
  aws.BoolValue (HeadObjectOutput.DeleteMarker out) = false →
  isContentTypeAllowed (HeadObjectOutput.ContentType out) = true →
  read meta d log
  = match GetObjectWithContext (S3Conn meta) log1 (getInput out) with
    | inr err =>
        (Ok (sdkdiag.AppendErrorf [] ("Failed getting S3 object: " +:+ Error err),
             stored out d), log2 out)
    | inl got =>
        match GetObjectOutput.Body got with
        | inr err =>
            (Ok (sdkdiag.AppendErrorf []
                   ("Failed reading content of S3 object (" +:+ uniqueId d +:+ "): "
                      +:+ Error err), stored out d), log2 out)
        | inl content =>
            readTags meta bucket key [] (d_Set "body" (VStr content) (stored out d)) (log2 out)
        end
    end.
Proof.
  intros H Hdm Hct. unfold dataSourceObjectRead. run_conn. rewrite H, Hdm, Hct.
  destruct (GetObjectWithContext _ _ _) as [got|err]; [|done].
  by destruct (GetObjectOutput.Body got).
Qed.

End ObjectRead.

(** ** Workforce blocks: what a valid field map looks like *)

(** Looking a key up among the declared fields, one field at a time. *)
Lemma lookup_cons (key k : string) (s : Schema) (rest : list (string * Schema)) :
  schema.lookup key ((k, s) :: rest)
  = if decide (k = key) then Some s else schema.lookup key rest.
Proof. reflexivity. Qed.

Ltac field_of H key :=
  let Hk := fresh "Hfield" in
  let Ht := fresh "Htype" in
  pose proof (H key) as Hk;
  match type of Hk with context [blockFields ?b] =>
    let fields := eval vm_compute in (blockFields b) in
    change (blockFields b) with fields in Hk
  end;
  repeat (rewrite lookup_cons in Hk; destruct (decide (_ = key)) as [?|?];
          [try discriminate | try congruence]);
  cbn [props Type_] in Hk;
  let v := fresh "v" in
  destruct Hk as (v & Hk & Ht); destruct v; try discriminate; clear Ht.

(** A key that is none of the declared fields is not in a valid map. *)
Ltac other_field H k :=
  let Hk := fresh "Hother" in
  pose proof (H k) as Hk;
  match type of Hk with context [blockFields ?b] =>
    let fields := eval vm_compute in (blockFields b) in
    change (blockFields b) with fields in Hk
  end;
  repeat (rewrite lookup_cons in Hk; destruct (decide (_ = k)) as [?|?]; [congruence|]);
  cbn [schema.lookup] in Hk.

Ltac valid_map H :=
  apply map_eq; intros k;
  repeat match goal with
         | |- context [<[?key := _]> _ !! k] =>
             destruct (decide (key = k)) as [<-|?];
             [ match goal with Hf : ?m !! key = _ |- ?m !! key = _ => rewrite Hf end;
               reflexivity
             | rewrite (lookup_insert_ne _ key k) by assumption ]
         | |- context [{[?key := _]} !! k] =>
             destruct (decide (key = k)) as [<-|?];
             [ match goal with Hf : ?m !! key = _ |- ?m !! key = _ => rewrite Hf end;
               reflexivity
             | rewrite (lookup_singleton_ne key k) by assumption ]
         end;
  other_field H k; assumption.

Lemma validBlock_cognito (m : block) :
  validBlock "cognito_config" m →
  ∃ client_id user_pool,
    m = {[ "client_id" := VString client_id; "user_pool" := VString user_pool ]}.
Proof.
  intros H. field_of H "client_id". field_of H "user_pool".
  eexists _, _. valid_map H.
Qed.

Lemma validBlock_source_ip (m : block) :
  validBlock "source_ip_config" m → ∃ cidrs, m = {[ "cidrs" := VSet cidrs ]}.
Proof. intros H. field_of H "cidrs". eexists. valid_map H. Qed.

Lemma validBlock_oidc (m : block) :
  validBlock "oidc_config" m →
  ∃ authorization_endpoint client_id client_secret issuer jwks_uri logout_endpoint
    token_endpoint user_info_endpoint,
    m = {[ "authorization_endpoint" := VString authorization_endpoint;
           "client_id" := VString client_id;
           "client_secret" := VString client_secret;
           "issuer" := VString issuer;
           "jwks_uri" := VString jwks_uri;
           "logout_endpoint" := VString logout_endpoint;
           "token_endpoint" := VString token_endpoint;
           "user_info_endpoint" := VString user_info_endpoint ]}.
Proof.
  intros H. field_of H "authorization_endpoint". field_of H "client_id".
  field_of H "client_secret". field_of H "issuer". field_of H "jwks_uri".
  field_of H "logout_endpoint". field_of H "token_endpoint".
  field_of H "user_info_endpoint".
  eexists _, _, _, _, _, _, _, _. valid_map H.
Qed.

Lemma validBlock_vpc (m : block) :
  validBlock "workforce_vpc_config" m →
  ∃ security_group_ids subnets vpc_endpoint_id vpc_id,
    m = {[ "security_group_ids" := VSet security_group_ids;
           "subnets" := VSet subnets;
           "vpc_endpoint_id" := VString vpc_endpoint_id;
           "vpc_id" := VString vpc_id ]}.
Proof.
  intros H. field_of H "security_group_ids". field_of H "subnets".
  field_of H "vpc_endpoint_id". field_of H "vpc_id".
  eexists _, _, _, _. valid_map H.
Qed.

Ltac block_is_valid :=
  let k := fresh "k" in
  intros k;
  match goal with |- context [blockFields ?b] =>
    let fields := eval vm_compute in (blockFields b) in
    change (blockFields b) with fields
  end;
  repeat (rewrite lookup_cons;
          destruct (decide (_ = k)) as [<-|?];
          [ eexists; split; reflexivity | ]);
  cbn [schema.lookup];
  repeat first [ rewrite lookup_insert_ne by assumption
               | rewrite lookup_singleton_ne by assumption ];
  reflexivity.

Lemma cognito_block_valid (client_id user_pool : string) :
  validBlock "cognito_config"
    {[ "client_id" := VString client_id; "user_pool" := VString user_pool ]}.
Proof. block_is_valid. Qed.

Lemma source_ip_block_valid (cidrs : gset string) :
  validBlock "source_ip_config" {[ "cidrs" := VSet cidrs ]}.
Proof. block_is_valid. Qed.

Lemma sampleOidc_valid : validBlock "oidc_config" sampleOidc.
Proof. unfold sampleOidc. block_is_valid. Qed.

Lemma sampleVpc_valid (endpoint : string) :
  validBlock "workforce_vpc_config" (sampleVpc endpoint).
Proof. unfold sampleVpc. block_is_valid. Qed.

(** ** Expanding and flattening the Workforce blocks *)

Lemma cognito_round_trip (l : list (option block)) :
  validInput "cognito_config" l →
  ∃ config,
    expandWorkforceCognitoConfig l = Ok (Some config)
    ∧ Some <$> flattenWorkforceCognitoConfig (Some config) = l.
Proof.
  intros (m & -> & (client_id & user_pool & ->)%validBlock_cognito).
  eexists. split; reflexivity.
Qed.

Lemma source_ip_round_trip (l : list (option block)) :
  validInput "source_ip_config" l →
  ∃ config,
    expandWorkforceSourceIPConfig l = Ok (Some config)
    ∧ Some <$> flattenWorkforceSourceIPConfig (Some config) = l.
Proof.
  intros (m & -> & (cidrs & ->)%validBlock_source_ip).
  eexists. split; [reflexivity |].
  cbn. unfold flex.FlattenStringSet, flex.ExpandStringSet. cbn [default].
  by rewrite list_to_set_elements_L.
Qed.

Lemma oidc_round_trip (m : block) :
  validBlock "oidc_config" m →
  ∃ config,
    expandWorkforceOIDCConfig [Some m] = Ok (Some config)
    ∧ ∀ clientSecret,
        flattenWorkforceOIDCConfig (Some (oidcResponse config)) clientSecret
        = [ <["client_secret" := VString clientSecret]> m ].
Proof.
  intros (ae & ci & cs & iss & jw & lo & te & ui & ->)%validBlock_oidc.
  eexists. split; [reflexivity |].
  intros clientSecret. reflexivity.
Qed.

Lemma vpc_round_trip (m : block) :
  validBlock "workforce_vpc_config" m →
  ∃ config,
    expandWorkforceVPCConfig [Some m] = Ok (Some config)
    ∧ ∀ endpoint,
        flattenWorkforceVPCConfig (Some (vpcResponse config endpoint))
        = [ <["vpc_endpoint_id" := VString (aws.StringValue endpoint)]> m ].
Proof.
  intros (sg & sn & ve & vi & ->)%validBlock_vpc.
  eexists. split; [reflexivity |].
  intros endpoint. cbn. unfold flex.FlattenStringSet, flex.ExpandStringSet. cbn [default].
  rewrite !list_to_set_elements_L. reflexivity.
Qed.

(** C1 (as amended).  For every valid input of a Workforce block, flattening
    what the service keeps of the expanded request gives the input back field
    for field for [cognito_config] and [source_ip_config].  For [oidc_config]
    every field comes back but [client_secret], which is the second argument of
    [flattenWorkforceOIDCConfig] (the value of the prior state), whatever the
    request held.  For [workforce_vpc_config] the security groups, the subnets
    and the VPC id come back, and [vpc_endpoint_id], which the request does
    not carry, is the [VpcEndpointId] of the response. *)
Theorem workforce_round_trip_C1 :
  (∀ l, validInput "cognito_config" l →
        ∃ config, expandWorkforceCognitoConfig l = Ok (Some config)
                  ∧ Some <$> flattenWorkforceCognitoConfig (Some config) = l)
  ∧ (∀ l, validInput "source_ip_config" l →
          ∃ config, expandWorkforceSourceIPConfig l = Ok (Some config)
                    ∧ Some <$> flattenWorkforceSourceIPConfig (Some config) = l)
  ∧ (∀ m, validBlock "oidc_config" m →
          ∃ config,
            expandWorkforceOIDCConfig [Some m] = Ok (Some config)
            ∧ (∀ clientSecret,
                 flattenWorkforceOIDCConfig (Some (oidcResponse config)) clientSecret
                 = [ <["client_secret" := VString clientSecret]> m ])
            ∧ (∀ clientSecret,
                 m !! "client_secret" = Some (VString clientSecret) →
                 Some <$> flattenWorkforceOIDCConfig (Some (oidcResponse config)) clientSecret
                 = [Some m]))
  ∧ (∀ m, validBlock "workforce_vpc_config" m →
          ∃ config,
            expandWorkforceVPCConfig [Some m] = Ok (Some config)
            ∧ (∀ endpoint,
                 flattenWorkforceVPCConfig (Some (vpcResponse config endpoint))
                 = [ <["vpc_endpoint_id" := VString (aws.StringValue endpoint)]> m ])
            ∧ (∀ endpoint,
                 m !! "vpc_endpoint_id" = Some (VString (aws.StringValue endpoint)) →
                 Some <$> flattenWorkforceVPCConfig (Some (vpcResponse config endpoint))
                 = [Some m])).
Proof.
  split; [exact cognito_round_trip |].
  split; [exact source_ip_round_trip |].
  split.
  - intros m (config & Hexpand & Hflatten)%oidc_round_trip.
    exists config. split; [done |]. split; [done |].
    intros clientSecret Hsecret. rewrite Hflatten. cbn. by rewrite insert_id.
  - intros m (config & Hexpand & Hflatten)%vpc_round_trip.
    exists config. split; [done |]. split; [done |].
    intros endpoint Hendpoint. rewrite Hflatten. cbn. by rewrite insert_id.
Qed.

Lemma workforce_round_trip_C1_witness :
  (∃ config, expandWorkforceCognitoConfig [Some sampleCognito] = Ok (Some config)
             ∧ Some <$> flattenWorkforceCognitoConfig (Some config) = [Some sampleCognito])
  ∧ (∃ config, expandWorkforceSourceIPConfig [Some sampleSourceIp] = Ok (Some config)
               ∧ Some <$> flattenWorkforceSourceIPConfig (Some config) = [Some sampleSourceIp])
  ∧ (∃ config, expandWorkforceOIDCConfig [Some sampleOidc] = Ok (Some config)
               ∧ Some <$> flattenWorkforceOIDCConfig (Some (oidcResponse config)) "s3cr3t"
                 = [Some sampleOidc])
  ∧ (∃ config, expandWorkforceVPCConfig [Some (sampleVpc "vpce-1")] = Ok (Some config)
               ∧ Some <$> flattenWorkforceVPCConfig (Some (vpcResponse config (Some "vpce-1")))
                 = [Some (sampleVpc "vpce-1")]).
Proof.
  destruct workforce_round_trip_C1 as (Hcognito & Hsource & Hoidc & Hvpc).
  split; [| split; [| split]].
  - apply Hcognito. exists sampleCognito. split; [reflexivity | apply cognito_block_valid].
  - apply Hsource. exists sampleSourceIp. split; [reflexivity | apply source_ip_block_valid].
  - destruct (Hoidc sampleOidc sampleOidc_valid) as (config & Hexpand & _ & Hsame).
    exists config. split; [exact Hexpand |]. apply Hsame. reflexivity.
  - destruct (Hvpc (sampleVpc "vpce-1") (sampleVpc_valid "vpce-1"))
      as (config & Hexpand & _ & Hsame).
    exists config. split; [exact Hexpand |]. apply (Hsame (Some "vpce-1")). reflexivity.
Defined.

(** C1 as stated does not hold for [workforce_vpc_config]: two valid inputs
    that differ in [vpc_endpoint_id] alone expand to the same request, so
    whatever the service answers to a request, flattening the answer cannot
    give both inputs back. *)
Lemma workforce_round_trip_C1_counterexample :
  ¬ ∃ api : WorkforceVpcConfigRequest.t → WorkforceVpcConfigResponse.t,
      ∀ l, validInput "workforce_vpc_config" l →
           ∃ config, expandWorkforceVPCConfig l = Ok (Some config)
                     ∧ Some <$> flattenWorkforceVPCConfig (Some (api config)) = l.
Proof.
  intros [api H].
  destruct (H [Some (sampleVpc "")]) as (c1 & Hexpand1 & Hflat1).
  { eexists. split; [reflexivity | apply sampleVpc_valid]. }
  destruct (H [Some (sampleVpc "vpce-1")]) as (c2 & Hexpand2 & Hflat2).
  { eexists. split; [reflexivity | apply sampleVpc_valid]. }
  assert (Hsame : expandWorkforceVPCConfig [Some (sampleVpc "")]
                  = expandWorkforceVPCConfig [Some (sampleVpc "vpce-1")])
    by (vm_compute; reflexivity).
  rewrite Hexpand1, Hexpand2 in Hsame. injection Hsame as ->.
  rewrite Hflat1 in Hflat2.
  apply (f_equal (λ l : list (option block),
                    match l with Some m :: _ => m !! "vpc_endpoint_id" | _ => None end))
    in Hflat2.
  vm_compute in Hflat2. discriminate.
Qed.

(** ** The Workforce resource *)

(** A diagnostic appended as an error is an error. *)
Lemma HasError_AppendErrorf (diags : Diagnostics) (message : string) :
  HasError (sdkdiag.AppendErrorf diags message) = true.
Proof.
  unfold HasError, sdkdiag.AppendErrorf. rewrite existsb_app. cbn.
  by rewrite orb_true_r.
Qed.

(** The read makes one call, does not panic, and keeps the id of a resource
    that is being created. *)
Lemma resourceWorkforceRead_run (conn : API) (d : ResourceData) (log : list sagemaker.Call) :
  ∃ diags d',
    resourceWorkforceRead conn d log = (Ok (diags, d'), log ++ [FindWorkforce (Id d)])
    ∧ (IsNewResource d = true → Id d' = Id d).
Proof.
  unfold resourceWorkforceRead. run_conn.
  destruct (FindWorkforceByName conn log (Id d)) as [workforce|err].
  - eexists _, _. split; [reflexivity |]. intros _.
    by destruct (Workforce.OidcConfig workforce).
  - destruct (negb (IsNewResource d) && isNotFound err) eqn:Hgone.
    + eexists _, _. split; [reflexivity |]. intros Hnew. rewrite Hnew in Hgone. done.
    + eexists _, _. split; [reflexivity | done].
Qed.

(** Whatever blocks are set, a create whose blocks expand calls
    [CreateWorkforce] first, with all of them. *)
Lemma resourceWorkforceCreate_calls (conn : API) (d : ResourceData) (log : list sagemaker.Call)
    cognito oidc sourceIp vpc :
  whenOk (GetOkList d "cognito_config") expandWorkforceCognitoConfig = Ok cognito →
  whenOk (GetOkList d "oidc_config") expandWorkforceOIDCConfig = Ok oidc →
  whenOk (GetOkList d "source_ip_config") expandWorkforceSourceIPConfig = Ok sourceIp →
  whenOk (GetOkList d "workforce_vpc_config") expandWorkforceVPCConfig = Ok vpc →
  ∃ diags d' rest,
    resourceWorkforceCreate conn d log
    = (Ok (diags, d'),
       log ++ CreateWorkforce (createInput d cognito oidc sourceIp vpc) :: rest)
    ∧ (HasError diags = false → IsNewResource d = true →
       Id d' = GetString d "workforce_name").
Proof.
  intros Hc Ho Hs Hv. unfold resourceWorkforceCreate.
  unfold mbind, Conn_bind, conn_bind, lift, call. rewrite Hc, Ho, Hs, Hv.
  fold (createInput d cognito oidc sourceIp vpc).
  destruct (CreateWorkforceWithContext conn log _) as [err|].
  { eexists _, _, []. split; [reflexivity |]. by rewrite HasError_AppendErrorf. }
  destruct (WaitWorkforceActive conn _ _) as [err|].
  { eexists _, _, [_]. split; [by rewrite <- app_assoc |]. by rewrite HasError_AppendErrorf. }
  match goal with |- context [resourceWorkforceRead conn ?d1 ?l] =>
    destruct (resourceWorkforceRead_run conn d1 l) as (rd & d' & -> & Hid)
  end.
  eexists _, _, [_; _]. split.
  - unfold mret, Conn_ret, conn_ret. by rewrite <- !app_assoc.
  - intros _ Hnew. by rewrite Hid.
Qed.

(** An update that does not panic has expanded its three blocks and called
    [UpdateWorkforce] first, with what they expanded to. *)
Lemma resourceWorkforceUpdate_calls (conn : API) (d : ResourceData)
    (log log' : list sagemaker.Call) (r : Diagnostics * ResourceData) :
  resourceWorkforceUpdate conn d log = (Ok r, log') →
  ∃ sourceIp oidc vpc rest,
    whenChanged d "source_ip_config" expandWorkforceSourceIPConfig = Ok sourceIp
    ∧ whenChanged d "oidc_config" expandWorkforceOIDCConfig = Ok oidc
    ∧ whenChanged d "workforce_vpc_config" expandWorkforceVPCConfig = Ok vpc
    ∧ log' = log ++ UpdateWorkforce (updateInput d oidc sourceIp vpc) :: rest.
Proof.
  unfold resourceWorkforceUpdate.
  unfold mbind, Conn_bind, conn_bind, lift, call.
  destruct (whenChanged d "source_ip_config" _) as [sourceIp|]; [|discriminate].
  destruct (whenChanged d "oidc_config" _) as [oidc|]; [|discriminate].
  destruct (whenChanged d "workforce_vpc_config" _) as [vpc|]; [|discriminate].
  fold (updateInput d oidc sourceIp vpc). intros H.
  exists sourceIp, oidc, vpc.
  destruct (UpdateWorkforceWithContext conn log _) as [err|].
  { exists []. injection H as _ <-. done. }
  destruct (WaitWorkforceActive conn _ _) as [err|].
  { eexists [_]. injection H as _ <-. by rewrite <- app_assoc. }
  match type of H with context [resourceWorkforceRead conn ?d1 ?l] =>
    destruct (resourceWorkforceRead_run conn d1 l) as (rd & d' & Hread & _);
    rewrite Hread in H
  end.
  eexists [_; _]. injection H as _ <-. by rewrite <- !app_assoc.
Qed.

Lemma ErrMessageContains_true (err : error) (code message : string) :
  tfawserr.ErrMessageContains (Some err) code message = true
  ↔ ∃ m, asAwsError err = Some (code, m) ∧ Contains m message = true.
Proof.
  unfold tfawserr.ErrMessageContains. cbn [mbind option_bind].
  destruct (asAwsError err) as [[c m]|].
  - rewrite andb_true_iff, bool_decide_eq_true. split.
    + intros [-> Hm]. eauto.
    + intros (m' & [= -> ->] & Hm). done.
  - split; [done | by intros (m & ? & _)].
Qed.

(** C3.  When [DeleteWorkforce] fails with a [ValidationException] whose
    message contains [No workforce], the delete returns no diagnostics and
    leaves the resource data as it is; every other error of [DeleteWorkforce]
    is returned as one error diagnostic. *)
Theorem delete_absent_workforce_C3
    (conn : API) (d : ResourceData) (log : list sagemaker.Call) (err : error) :
  let input := {| DeleteWorkforceInput.WorkforceName := aws.String (Id d) |} in
  DeleteWorkforceWithContext conn log input = Some err →
  ((∃ m, asAwsError err = Some ("ValidationException", m)
         ∧ Contains m "No workforce" = true) →
   resourceWorkforceDelete conn d log = (Ok ([], d), log ++ [DeleteWorkforce input]))
  ∧ (¬ (∃ m, asAwsError err = Some ("ValidationException", m)
             ∧ Contains m "No workforce" = true) →
     resourceWorkforceDelete conn d log
     = (Ok ([ {| severity := SeverityError;
                 Summary := "deleting SageMaker Workforce (" +:+ Id d +:+ "): "
                              +:+ Error err |} ], d),
        log ++ [DeleteWorkforce input])).
Proof.
  intros input Herr. unfold resourceWorkforceDelete.
  unfold mbind, Conn_bind, conn_bind, call. fold input. rewrite Herr.
  split; intros H.
  - apply ErrMessageContains_true in H. by rewrite H.
  - rewrite <- ErrMessageContains_true in H. apply not_true_is_false in H.
    by rewrite H.
Qed.

Lemma delete_absent_workforce_C3_witness :
  resourceWorkforceDelete
    (scriptedSageMaker None None
       (Some (AwsError "ValidationException" "No workforce found with name team"))
       (inr (NotFoundError "not found")) None None)
    (workforceData false "team" ∅ ∅) []
  = (Ok ([], workforceData false "team" ∅ ∅),
     [DeleteWorkforce {| DeleteWorkforceInput.WorkforceName := Some "team" |}])
  ∧ HasError
      (match (resourceWorkforceDelete
                (scriptedSageMaker None None (Some (AwsError "ThrottlingException" "slow down"))
                   (inr (NotFoundError "not found")) None None)
                (workforceData false "team" ∅ ∅) []).1 with
       | Ok (diags, _) => diags
       | Panic => []
       end) = true.
Proof.
  split.
  - apply (delete_absent_workforce_C3
             (scriptedSageMaker None None
                (Some (AwsError "ValidationException" "No workforce found with name team"))
                (inr (NotFoundError "not found")) None None)
             (workforceData false "team" ∅ ∅) []
             (AwsError "ValidationException" "No workforce found with name team")).
    + reflexivity.
    + eexists. split; [reflexivity | vm_compute; reflexivity].
  - rewrite (proj2 (delete_absent_workforce_C3
                      (scriptedSageMaker None None
                         (Some (AwsError "ThrottlingException" "slow down"))
                         (inr (NotFoundError "not found")) None None)
                      (workforceData false "team" ∅ ∅) []
                      (AwsError "ThrottlingException" "slow down") eq_refl)).
    + reflexivity.
    + intros (m & Hm & _). vm_compute in Hm. discriminate.
Defined.

Lemma resourceWorkforceCreate_id (conn : API) (d d' : ResourceData)
    (log log' : list sagemaker.Call) (diags : Diagnostics) :
  resourceWorkforceCreate conn d log = (Ok (diags, d'), log') →
  HasError diags = false →
  IsNewResource d = true →
  Id d' = GetString d "workforce_name".
Proof.
  intros Hrun.
  destruct (whenOk (GetOkList d "cognito_config") expandWorkforceCognitoConfig)
    as [cognito|] eqn:Hc;
    [| by unfold resourceWorkforceCreate, mbind, Conn_bind, conn_bind, lift in Hrun;
          rewrite Hc in Hrun].
  destruct (whenOk (GetOkList d "oidc_config") expandWorkforceOIDCConfig)
    as [oidc|] eqn:Ho;
    [| by unfold resourceWorkforceCreate, mbind, Conn_bind, conn_bind, lift in Hrun;
          rewrite Hc, Ho in Hrun].
  destruct (whenOk (GetOkList d "source_ip_config") expandWorkforceSourceIPConfig)
    as [sourceIp|] eqn:Hs;
    [| by unfold resourceWorkforceCreate, mbind, Conn_bind, conn_bind, lift in Hrun;
          rewrite Hc, Ho, Hs in Hrun].
  destruct (whenOk (GetOkList d "workforce_vpc_config") expandWorkforceVPCConfig)
    as [vpc|] eqn:Hv;
    [| by unfold resourceWorkforceCreate, mbind, Conn_bind, conn_bind, lift in Hrun;
          rewrite Hc, Ho, Hs, Hv in Hrun].
  destruct (resourceWorkforceCreate_calls conn d log _ _ _ _ Hc Ho Hs Hv)
    as (diags0 & d0 & rest & Hrun0 & Hid).
  rewrite Hrun0 in Hrun. by simplify_eq.
Qed.

Lemma uniqueId_spec (d : ResourceData) :
  uniqueId d
  = if bool_decide (GetString d "version_id" = "")
    then GetString d "bucket" +:+ "/" +:+ GetString d "key"
    else GetString d "bucket" +:+ "/" +:+ GetString d "key" +:+ "@"
           +:+ GetString d "version_id".
Proof.
  unfold uniqueId, GetOkString. cbn [fst snd].
  destruct (decide (GetString d "version_id" = "")) as [Hv|Hv].
  - rewrite (bool_decide_eq_false_2 _) by (by intros ?).
    rewrite (bool_decide_eq_true_2 _ Hv). by rewrite append_assoc.
  - rewrite (bool_decide_eq_true_2 _ Hv), (bool_decide_eq_false_2 _ Hv).
    by rewrite !append_assoc.
Qed.

Section ObjectId.

Variable FormatRFC1123 : Time → string.
Variable flattenObjectDate : option Time → string.
Variable Quote : string → string.

Local Abbreviation read := (dataSourceObjectRead FormatRFC1123 flattenObjectDate Quote).

(** Once [HeadObject] has answered with an object that is not a delete
    marker, the read returns, with the id set and the storage class stored,
    whatever happens to the body and the tags. *)
Lemma read_stored (meta : AWSClient) (d : ResourceData) (log : list s3.Call)
    (out : HeadObjectOutput.t) :
  HeadObjectWithContext (S3Conn meta) log (headObjectInput d) = inl out →
  aws.BoolValue (HeadObjectOutput.DeleteMarker out) = false →
  ∃ diags d' log',
    read meta d log = (Ok (diags, d'), log')
    ∧ Id d' = uniqueId d
    ∧ attrs d' !! "storage_class" = attrs (setStorageClass out d) !! "storage_class".
Proof.
  intros Hhead Hdm.
  assert (Hstored : ∀ d0 l,
            Id d0 = uniqueId d →
            attrs d0 !! "storage_class" = attrs (setStorageClass out d) !! "storage_class" →
            ∃ diags d' log',
              readTags meta (GetString d "bucket") (GetString d "key") [] d0 l
              = (Ok (diags, d'), log')
              ∧ Id d' = uniqueId d
              ∧ attrs d' !! "storage_class"
                = attrs (setStorageClass out d) !! "storage_class").
  { intros d0 l Hid Hsc.
    destruct (readTags_run meta (GetString d "bucket") (GetString d "key") [] d0 l)
      as (k & dg & d1 & Hrun1 & Hid1 & Hd1).
    exists dg, d1. eexists. split; [exact Hrun1 |]. split; [congruence |].
    destruct Hd1 as [->|(_ & v & ->)]; [done |]. by rewrite attrs_d_Set_ne. }
  assert (Hsc : ∀ d0, attrs (setStorageClass out d0) !! "storage_class"
                      = attrs (setStorageClass out d) !! "storage_class").
  { intros d0. unfold setStorageClass, d_SetStringPtr.
    destruct (HeadObjectOutput.StorageClass out); by rewrite !attrs_d_Set_eq. }
  assert (Hid : ∀ d0, Id d0 = uniqueId d →
                      Id (setStorageClass out
                            (setHeadAttributes FormatRFC1123 flattenObjectDate out d0))
                      = uniqueId d).
  { intros d0 H0. by rewrite setStorageClass_Id, setHeadAttributes_Id. }
  destruct (isContentTypeAllowed (HeadObjectOutput.ContentType out)) eqn:Hct.
  - rewrite (read_allowed _ _ _ _ _ _ _ Hhead Hdm Hct).
    destruct (GetObjectWithContext _ _ _) as [got|err].
    2:{ eexists _, _, _. split; [reflexivity |]. split; [by apply Hid | apply Hsc]. }
    destruct (GetObjectOutput.Body got) as [content|err].
    2:{ eexists _, _, _. split; [reflexivity |]. split; [by apply Hid | apply Hsc]. }
    apply Hstored.
    + cbn [Id d_Set]. by apply Hid.
    + by rewrite attrs_d_Set_ne, Hsc.
  - rewrite (read_not_allowed _ _ _ _ _ _ _ Hhead Hdm Hct).
    apply Hstored; [by apply Hid | apply Hsc].
Qed.

(** A read without error diagnostics has received a response that is not a
    delete marker. *)
Lemma read_success (meta : AWSClient) (d d' : ResourceData)
    (log log' : list s3.Call) (diags : Diagnostics) :
  read meta d log = (Ok (diags, d'), log') →
  HasError diags = false →
  ∃ out, HeadObjectWithContext (S3Conn meta) log (headObjectInput d) = inl out
         ∧ aws.BoolValue (HeadObjectOutput.DeleteMarker out) = false.
Proof.
  intros Hrun Hok.
  destruct (HeadObjectWithContext (S3Conn meta) log (headObjectInput d))
    as [out|err] eqn:Hhead.
  2:{ rewrite (read_head_error _ _ _ _ _ _ _ Hhead) in Hrun. by simplify_eq. }
  destruct (aws.BoolValue (HeadObjectOutput.DeleteMarker out)) eqn:Hdm.
  { rewrite (read_delete_marker _ _ _ _ _ _ _ Hhead Hdm) in Hrun. by simplify_eq. }
  by exists out.
Qed.

(** The body is fetched, or stored, only for an allowed content type. *)
Lemma body_only_when_allowed (meta : AWSClient) (d : ResourceData) (log : list s3.Call) :
  (∃ input, GetObject input ∈ calls_since log (read meta d log).2) ∨
  (∃ diags d', (read meta d log).1 = Ok (diags, d') ∧ attrs d' !! "body" ≠ attrs d !! "body") →
  ∃ out, HeadObjectWithContext (S3Conn meta) log (headObjectInput d) = inl out
         ∧ isContentTypeAllowed (HeadObjectOutput.ContentType out) = true.
Proof.
  destruct (HeadObjectWithContext (S3Conn meta) log (headObjectInput d))
    as [out|err] eqn:Hhead.
  2:{ rewrite (read_head_error _ _ _ _ _ _ _ Hhead). cbn [fst snd].
      rewrite calls_since_app. intros [[i Hi]|(dg & d' & Heq & Hne)].
      - apply list_elem_of_singleton in Hi. discriminate.
      - by simplify_eq. }
  destruct (aws.BoolValue (HeadObjectOutput.DeleteMarker out)) eqn:Hdm.
  { rewrite (read_delete_marker _ _ _ _ _ _ _ Hhead Hdm). cbn [fst snd].
    rewrite calls_since_app. intros [[i Hi]|(dg & d' & Heq & Hne)].
    - apply list_elem_of_singleton in Hi. discriminate.
    - by simplify_eq. }
  destruct (isContentTypeAllowed (HeadObjectOutput.ContentType out)) eqn:Hct;
    [by eauto |].
  rewrite (read_not_allowed _ _ _ _ _ _ _ Hhead Hdm Hct). intros H. exfalso.
  match type of H with context [readTags ?m ?b ?k ?dg ?d1 ?l] =>
    destruct (readTags_run m b k dg d1 l) as (n & dg' & d' & Hrun & _ & Hd');
    rewrite Hrun in H; clear Hrun
  end.
  cbn [fst snd] in H. rewrite <- app_assoc, calls_since_app in H.
  destruct H as [[i Hi]|(dg & d'' & Heq & Hne)].
  - apply elem_of_app in Hi as [Hi|Hi].
    + apply list_elem_of_singleton in Hi. discriminate.
    + apply elem_of_replicate in Hi as [Hi _]. discriminate.
  - simplify_eq. apply Hne.
    destruct Hd' as [->|(_ & v & ->)]; [|rewrite attrs_d_Set_ne by done];
      by rewrite setStorageClass_body, setHeadAttributes_body.
Qed.

(** For an allowed content type (and an object that is there), it is
    fetched. *)
Lemma body_fetched_when_allowed (meta : AWSClient) (d : ResourceData) (log : list s3.Call)
    (out : HeadObjectOutput.t) :
  HeadObjectWithContext (S3Conn meta) log (headObjectInput d) = inl out →
  aws.BoolValue (HeadObjectOutput.DeleteMarker out) = false →
  isContentTypeAllowed (HeadObjectOutput.ContentType out) = true →
  ∃ input, GetObject input ∈ calls_since log (read meta d log).2.
Proof.
  intros Hhead Hdm Hct. rewrite (read_allowed _ _ _ _ _ _ _ Hhead Hdm Hct).
  exists (getObjectInput (GetString d "bucket") (GetString d "key")
            (setStorageClass out
               (setHeadAttributes FormatRFC1123 flattenObjectDate out (SetId (uniqueId d) d)))
            out).
  destruct (GetObjectWithContext _ _ _) as [got|err].
  2:{ cbn [snd]. rewrite <- app_assoc, calls_since_app.
      apply list_elem_of_further, list_elem_of_here. }
  destruct (GetObjectOutput.Body got) as [content|err].
  2:{ cbn [snd]. rewrite <- app_assoc, calls_since_app.
      apply list_elem_of_further, list_elem_of_here. }
  match goal with |- context [readTags ?m ?b ?k ?dg ?d1 ?l] =>
    destruct (readTags_run m b k dg d1 l) as (n & dg' & d' & -> & _)
  end.
  cbn [snd]. rewrite <- !app_assoc, calls_since_app.
  apply list_elem_of_further, list_elem_of_here.
Qed.

End ObjectId.

(** C6.  A create of a Workforce that returns no error leaves the id set to
    the [workforce_name] of the configuration (the framework marks the data
    of a create as new); a read of the S3 object data source that returns no
    error leaves the id set to bucket, [/], key when no [version_id] is given
    and to bucket, [/], key, [@], version when one is. *)
Theorem resource_identifiers_C6 :
  (∀ (conn : API) (d d' : ResourceData) (log log' : list sagemaker.Call) (diags : Diagnostics),
     resourceWorkforceCreate conn d log = (Ok (diags, d'), log') →
     HasError diags = false →
     IsNewResource d = true →
     Id d' = GetString d "workforce_name")
  ∧ (∀ (FormatRFC1123 : Time → string) (flattenObjectDate : option Time → string)
    (Quote : string → string)
       (meta : AWSClient) (d d' : ResourceData) (log log' : list s3.Call)
       (diags : Diagnostics),
       dataSourceObjectRead FormatRFC1123 flattenObjectDate Quote meta d log
       = (Ok (diags, d'), log') →
       HasError diags = false →
       Id d' = if bool_decide (GetString d "version_id" = "")
               then GetString d "bucket" +:+ "/" +:+ GetString d "key"
               else GetString d "bucket" +:+ "/" +:+ GetString d "key" +:+ "@"
                      +:+ GetString d "version_id").
Proof.
  split.
  - exact resourceWorkforceCreate_id.
  - intros F fod Q meta d d' log log' diags Hrun Hok.
    destruct (read_success F fod Q meta d d' log log' diags Hrun Hok)
      as (out & Hhead & Hdm).
    destruct (read_stored F fod Q meta d log out Hhead Hdm)
      as (diags0 & d0 & log0 & Hrun0 & Hid & _).
    rewrite Hrun0 in Hrun. simplify_eq. rewrite Hid. apply uniqueId_spec.
Qed.

(** A run that returned, in terms of what it returned. *)
Lemma run_returned {C} (d : ResourceData)
    (run : result (Diagnostics * ResourceData) * list C) :
  returned run = true → run = (Ok (diagsOf run, dataOf d run), run.2).
Proof. by destruct run as [[[diags d']|] log]. Qed.

Lemma resource_identifiers_C6_witness :
  Id (dataOf newWorkforce
        (resourceWorkforceCreate
           (scriptedSageMaker None None None (inl sampleWorkforce) None None)
           newWorkforce [])) = "team"
  ∧ Id (dataOf versionedObject
          (dataSourceObjectRead noTime noDate inQuotes
             (sampleMeta (inl [("env", "test")])
                (inl (sampleHead (Some "text/plain") None None)))
             versionedObject [])) = "b/k@v1".
Proof.
  destruct resource_identifiers_C6 as [Hworkforce Hobject].
  split.
  - etrans.
    + eapply Hworkforce.
      * apply (run_returned newWorkforce). vm_compute; reflexivity.
      * vm_compute; reflexivity.
      * reflexivity.
    + vm_compute; reflexivity.
  - etrans.
    + eapply Hobject.
      * apply (run_returned versionedObject). vm_compute; reflexivity.
      * vm_compute; reflexivity.
    + vm_compute; reflexivity.
Defined.

(** ** The S3 object data source *)

(** C2 (as amended).  [isContentTypeAllowed] returns true exactly for the
    eight content types of the allow-list taken as they stand and for the
    strings that begin with [text/] followed by a character other than the
    line feed (the [.] of the pattern does not match it); it returns false for
    every other string, [image/png] among them, and for a missing content
    type.  The read fetches the body, and stores it, only when
    [isContentTypeAllowed] returns true for the content type of the response,
    and does fetch it then. *)
Theorem content_type_allow_list_C2 :
  (∀ s, isContentTypeAllowed (Some s) = true
        ↔ s ∈ exactContentTypes ∨ ∃ c rest, s = "text/" +:+ String c rest ∧ c ≠ newline)
  ∧ isContentTypeAllowed (Some "image/png") = false
  ∧ isContentTypeAllowed None = false
  ∧ (∀ (FormatRFC1123 : Time → string) (flattenObjectDate : option Time → string)
    (Quote : string → string)
       (meta : AWSClient) (d : ResourceData) (log : list s3.Call),
       let run := dataSourceObjectRead FormatRFC1123 flattenObjectDate Quote meta d log in
       (∃ input, GetObject input ∈ calls_since log run.2) ∨
       (∃ diags d', run.1 = Ok (diags, d') ∧ attrs d' !! "body" ≠ attrs d !! "body") →
       ∃ out, HeadObjectWithContext (S3Conn meta) log (headObjectInput d) = inl out
              ∧ isContentTypeAllowed (HeadObjectOutput.ContentType out) = true)
  ∧ (∀ (FormatRFC1123 : Time → string) (flattenObjectDate : option Time → string)
    (Quote : string → string)
       (meta : AWSClient) (d : ResourceData) (log : list s3.Call) (out : HeadObjectOutput.t),
       HeadObjectWithContext (S3Conn meta) log (headObjectInput d) = inl out →
       aws.BoolValue (HeadObjectOutput.DeleteMarker out) = false →
       isContentTypeAllowed (HeadObjectOutput.ContentType out) = true →
       ∃ input, GetObject input
                ∈ calls_since log
                    (dataSourceObjectRead FormatRFC1123 flattenObjectDate Quote meta d log).2).
Proof.
  split; [exact isContentTypeAllowed_iff |].
  split; [vm_compute; reflexivity |].
  split; [reflexivity |].
  split.
  - intros F fod Q meta d log run. apply body_only_when_allowed.
  - intros F fod Q meta d log out. apply body_fetched_when_allowed.
Qed.

Lemma content_type_allow_list_C2_witness :
  (∃ out, HeadObjectWithContext
            (S3Conn (sampleMeta (inl []) (inl (sampleHead (Some "text/plain") None None))))
            [] (headObjectInput plainObject) = inl out
          ∧ isContentTypeAllowed (HeadObjectOutput.ContentType out) = true)
  ∧ (∃ input, GetObject input
              ∈ calls_since []
                  (dataSourceObjectRead noTime noDate inQuotes
                     (sampleMeta (inl []) (inl (sampleHead (Some "application/json") None None)))
                     plainObject []).2).
Proof.
  destruct content_type_allow_list_C2 as (_ & _ & _ & Honly & Hfetch).
  split.
  - apply (Honly noTime noDate inQuotes). left.
    eexists. apply list_elem_of_lookup. exists 1. vm_compute. reflexivity.
  - apply (Hfetch noTime noDate inQuotes _ _ _ (sampleHead (Some "application/json") None None)).
    + reflexivity.
    + reflexivity.
    + vm_compute; reflexivity.
Defined.

(** C2 as stated reads the last pattern as [text/] followed by any character.
    The string [text/] followed by a line feed is of that form and is not
    allowed. *)
Lemma content_type_allow_list_C2_counterexample :
  (∃ c rest, text_newline = "text/" +:+ String c rest)
  ∧ isContentTypeAllowed (Some text_newline) = false
  ∧ ¬ (∀ s, isContentTypeAllowed (Some s) = true
            ↔ s ∈ exactContentTypes ∨ ∃ c rest, s = "text/" +:+ String c rest).
Proof.
  assert (Hform : ∃ c rest, text_newline = "text/" +:+ String c rest)
    by (by exists newline, "").
  assert (Hfalse : isContentTypeAllowed (Some text_newline) = false)
    by (vm_compute; reflexivity).
  split; [done |]. split; [done |].
  intros H. destruct (H text_newline) as [_ Hback].
  rewrite Hback in Hfalse; [discriminate | by right].
Qed.

(** C8.  When [HeadObject] succeeds with a response whose [DeleteMarker] is
    true, the read returns one error diagnostic and the resource data as it
    was given: no id and no attribute is set, and no further call is made.
    The diagnostic names the bucket and key, and the version if one is asked
    for, each quoted as the verb [%q] quotes it. *)
Theorem delete_marker_is_an_error_C8
    (FormatRFC1123 : Time → string) (flattenObjectDate : option Time → string)
    (Quote : string → string)
    (meta : AWSClient) (d : ResourceData) (log : list s3.Call) (out : HeadObjectOutput.t) :
  HeadObjectWithContext (S3Conn meta) log (headObjectInput d) = inl out →
  HeadObjectOutput.DeleteMarker out = Some true →
  ∃ diags,
    dataSourceObjectRead FormatRFC1123 flattenObjectDate Quote meta d log
    = (Ok (diags, d), log ++ [HeadObject (headObjectInput d)])
    ∧ HasError diags = true
    ∧ diags = [ {| severity := SeverityError;
                   Summary := "Requested S3 object "
                              +:+ Quote (GetString d "bucket" +:+ GetString d "key")
                              +:+ versionText Quote d +:+ " has been deleted" |} ].
Proof.
  intros Hhead Hdm. eexists. split.
  - apply (read_delete_marker _ _ _ _ _ _ _ Hhead). by rewrite Hdm.
  - split; [apply HasError_AppendErrorf | reflexivity].
Qed.

Lemma delete_marker_is_an_error_C8_witness :
  ∃ diags,
    dataSourceObjectRead noTime noDate inQuotes
      (sampleMeta (inl []) (inl (sampleHead (Some "text/plain") None (Some true))))
      versionedObject []
    = (Ok (diags, versionedObject), [] ++ [HeadObject (headObjectInput versionedObject)])
    ∧ HasError diags = true
    ∧ diags = [ {| severity := SeverityError;
                   Summary := "Requested S3 object "
                              +:+ inQuotes (GetString versionedObject "bucket"
                                          +:+ GetString versionedObject "key")
                              +:+ versionText inQuotes versionedObject +:+ " has been deleted" |} ].
Proof.
  apply (delete_marker_is_an_error_C8 noTime noDate inQuotes
           (sampleMeta (inl []) (inl (sampleHead (Some "text/plain") None (Some true))))
           versionedObject [] (sampleHead (Some "text/plain") None (Some true)));
    reflexivity.
Defined.

(** C9 (as amended).  Once [HeadObject] has answered with an object that is
    not a delete marker, the read stores [STANDARD] as [storage_class] when the
    response has no [StorageClass] and the value of [StorageClass] otherwise,
    whether or not it goes on without error; the stored [storage_class] is
    empty only when the response carries an empty [StorageClass]. *)
Theorem storage_class_default_C9
    (FormatRFC1123 : Time → string) (flattenObjectDate : option Time → string)
    (Quote : string → string)
    (meta : AWSClient) (d : ResourceData) (log : list s3.Call) (out : HeadObjectOutput.t) :
  HeadObjectWithContext (S3Conn meta) log (headObjectInput d) = inl out →
  aws.BoolValue (HeadObjectOutput.DeleteMarker out) = false →
  ∃ diags d' log',
    dataSourceObjectRead FormatRFC1123 flattenObjectDate Quote meta d log = (Ok (diags, d'), log')
    ∧ attrs d' !! "storage_class"
      = Some (VStr (match HeadObjectOutput.StorageClass out with
                    | None => "STANDARD"
                    | Some storageClass => storageClass
                    end))
    ∧ (HeadObjectOutput.StorageClass out ≠ Some "" →
       attrs d' !! "storage_class" ≠ Some (VStr "")).
Proof.
  intros Hhead Hdm.
  destruct (read_stored FormatRFC1123 flattenObjectDate Quote meta d log out Hhead Hdm)
    as (diags & d' & log' & Hrun & _ & Hsc).
  exists diags, d', log'. split; [done |].
  rewrite Hsc. unfold setStorageClass, d_SetStringPtr.
  destruct (HeadObjectOutput.StorageClass out) as [storageClass|];
    rewrite attrs_d_Set_eq; cbn [aws.StringValue default].
  - split; [done |]. intros Hne [= ->]. done.
  - split; [done |]. intros _ [=].
Qed.

Lemma storage_class_default_C9_witness :
  ∃ diags d' log',
    dataSourceObjectRead noTime noDate inQuotes
      (sampleMeta (inl []) (inl (sampleHead (Some "image/png") None None)))
      plainObject [] = (Ok (diags, d'), log')
    ∧ attrs d' !! "storage_class" = Some (VStr "STANDARD")
    ∧ (None ≠ Some "" → attrs d' !! "storage_class" ≠ Some (VStr "")).
Proof.
  apply (storage_class_default_C9 noTime noDate inQuotes
           (sampleMeta (inl []) (inl (sampleHead (Some "image/png") None None)))
           plainObject [] (sampleHead (Some "image/png") None None));
    reflexivity.
Defined.

(** C9 as stated concludes that the stored [storage_class] is never empty
    after a successful read.  A response with an empty [StorageClass] gives a
    read without error that stores the empty string. *)
Lemma storage_class_default_C9_counterexample :
  let run := dataSourceObjectRead noTime noDate inQuotes
               (sampleMeta (inl []) (inl (sampleHead (Some "image/png") (Some "") None)))
               plainObject [] in
  returned run = true
  ∧ HasError (diagsOf run) = false
  ∧ attrs (dataOf plainObject run) !! "storage_class" = Some (VStr "").
Proof. split; [| split]; vm_compute; reflexivity. Qed.

(** ** The exactly-one-of group of the Workforce schema *)

Lemma validateGroups_ResourceWorkforce (config : gmap string value) :
  validateGroups ResourceWorkforce config = true
  ↔ isSet config "cognito_config" = negb (isSet config "oidc_config").
Proof.
  unfold validateGroups, ResourceWorkforce. cbn [forallb fst snd].
  unfold validateExactlyOneAttribute. cbn [props ExactlyOneOf of_type computed optional
    required forceNew sensitive maxItems exactlyOneOf validateFunc].
  replace (remove_dups (["oidc_config"; "cognito_config"] ++ ["cognito_config"]))
    with ["oidc_config"; "cognito_config"] by (vm_compute; reflexivity).
  replace (remove_dups (["oidc_config"; "cognito_config"] ++ ["oidc_config"]))
    with ["cognito_config"; "oidc_config"] by (vm_compute; reflexivity).
  rewrite !filter_cons, filter_nil.
  destruct (isSet config "cognito_config"), (isSet config "oidc_config");
    repeat case_decide; try done; cbn; split; done.
Qed.

(** C7.  In the Workforce schema [cognito_config] and [oidc_config] each
    carry the exactly-one-of group of the two keys, so that the framework's
    check passes exactly when one of the two blocks is set and the other is
    not.  The resource functions have no check of their own: a create whose
    blocks expand calls [CreateWorkforce] with whatever authentication blocks
    the data holds, and an update that returns has called [UpdateWorkforce]. *)
Theorem exactly_one_auth_config_C7 :
  (∃ cognito oidc,
     schema.lookup "cognito_config" ResourceWorkforce = Some cognito
     ∧ schema.lookup "oidc_config" ResourceWorkforce = Some oidc
     ∧ ExactlyOneOf (props cognito) = ["oidc_config"; "cognito_config"]
     ∧ ExactlyOneOf (props oidc) = ["oidc_config"; "cognito_config"])
  ∧ (∀ config, validateGroups ResourceWorkforce config = true
               ↔ isSet config "cognito_config" = negb (isSet config "oidc_config"))
  ∧ (∀ (conn : API) (d : ResourceData) (log : list sagemaker.Call)
       cognito oidc sourceIp vpc,
       whenOk (GetOkList d "cognito_config") expandWorkforceCognitoConfig = Ok cognito →
       whenOk (GetOkList d "oidc_config") expandWorkforceOIDCConfig = Ok oidc →
       whenOk (GetOkList d "source_ip_config") expandWorkforceSourceIPConfig = Ok sourceIp →
       whenOk (GetOkList d "workforce_vpc_config") expandWorkforceVPCConfig = Ok vpc →
       ∃ diags d' rest,
         resourceWorkforceCreate conn d log
         = (Ok (diags, d'),
            log ++ CreateWorkforce (createInput d cognito oidc sourceIp vpc) :: rest))
  ∧ (∀ (conn : API) (d : ResourceData) (log log' : list sagemaker.Call)
       (r : Diagnostics * ResourceData),
       resourceWorkforceUpdate conn d log = (Ok r, log') →
       ∃ input rest, log' = log ++ UpdateWorkforce input :: rest).
Proof.
  split.
  { eexists _, _. split; [reflexivity |]. split; [reflexivity |]. split; reflexivity. }
  split; [exact validateGroups_ResourceWorkforce |].
  split.
  - intros conn d log cognito oidc sourceIp vpc Hc Ho Hs Hv.
    destruct (resourceWorkforceCreate_calls conn d log _ _ _ _ Hc Ho Hs Hv)
      as (diags & d' & rest & Hrun & _).
    by exists diags, d', rest.
  - intros conn d log log' r Hrun.
    destruct (resourceWorkforceUpdate_calls conn d log log' r Hrun)
      as (sourceIp & oidc & vpc & rest & _ & _ & _ & ->).
    by eexists _, _.
Qed.

Lemma exactly_one_auth_config_C7_witness :
  validateGroups ResourceWorkforce (attrs bothAuthConfigs) = false
  ∧ validateGroups ResourceWorkforce (attrs noAuthConfig) = false
  ∧ (∃ cognito oidc diags d' rest,
       resourceWorkforceCreate
         (scriptedSageMaker None None None (inl sampleWorkforce) None None) bothAuthConfigs []
       = (Ok (diags, d'),
          [] ++ CreateWorkforce
                  (createInput bothAuthConfigs (Some cognito) (Some oidc) None None) :: rest))
  ∧ (∃ diags d' rest,
       resourceWorkforceCreate
         (scriptedSageMaker None None None (inl sampleWorkforce) None None) noAuthConfig []
       = (Ok (diags, d'),
          [] ++ CreateWorkforce (createInput noAuthConfig None None None None) :: rest)).
Proof.
  destruct exactly_one_auth_config_C7 as (_ & _ & Hcreate & _).
  split; [vm_compute; reflexivity |].
  split; [vm_compute; reflexivity |].
  split.
  - eexists _, _. apply Hcreate; reflexivity.
  - apply Hcreate; reflexivity.
Defined.

(** C10.  Of an empty list, or of a list whose first element is nil, the
    expanders of the Cognito, OIDC and source-IP blocks return nil, and the
    expander of the VPC block returns a request that is not nil and has no
    field set.  So an update that clears [workforce_vpc_config] sends
    [UpdateWorkforce] with that empty VPC configuration, whereas a cleared
    [source_ip_config] or [oidc_config] is left out of the request. *)
Theorem expand_of_no_block_C10 :
  (∀ l : list (option block),
     l = [] ∨ (∃ rest, l = None :: rest) →
     expandWorkforceCognitoConfig l = Ok None
     ∧ expandWorkforceOIDCConfig l = Ok None
     ∧ expandWorkforceSourceIPConfig l = Ok None
     ∧ expandWorkforceVPCConfig l = Ok (Some emptyVpcConfigRequest))
  ∧ (∀ (conn : API) (d : ResourceData) (log log' : list sagemaker.Call)
       (r : Diagnostics * ResourceData),
       GetList d "workforce_vpc_config" = [] →
       HasChangeList d "workforce_vpc_config" = true →
       resourceWorkforceUpdate conn d log = (Ok r, log') →
       ∃ input rest,
         log' = log ++ UpdateWorkforce input :: rest
         ∧ UpdateWorkforceInput.WorkforceVpcConfig input = Some emptyVpcConfigRequest)
  ∧ (∀ (conn : API) (d : ResourceData) (log log' : list sagemaker.Call)
       (r : Diagnostics * ResourceData),
       GetList d "source_ip_config" = [] →
       GetList d "oidc_config" = [] →
       resourceWorkforceUpdate conn d log = (Ok r, log') →
       ∃ input rest,
         log' = log ++ UpdateWorkforce input :: rest
         ∧ UpdateWorkforceInput.SourceIpConfig input = None
         ∧ UpdateWorkforceInput.OidcConfig input = None).
Proof.
  split; [| split].
  - intros l [->|[rest ->]]; repeat split; reflexivity.
  - intros conn d log log' r Hempty Hchanged Hrun.
    destruct (resourceWorkforceUpdate_calls conn d log log' r Hrun)
      as (sourceIp & oidc & vpc & rest & _ & _ & Hvpc & ->).
    eexists _, rest. split; [reflexivity |].
    unfold whenChanged in Hvpc. rewrite Hchanged, Hempty in Hvpc.
    cbn in Hvpc. by injection Hvpc as <-.
  - intros conn d log log' r Hsource Hoidc Hrun.
    destruct (resourceWorkforceUpdate_calls conn d log log' r Hrun)
      as (sourceIp & oidc & vpc & rest & Hs & Ho & _ & ->).
    eexists _, rest. split; [reflexivity |].
    unfold whenChanged in Hs, Ho. rewrite Hsource in Hs. rewrite Hoidc in Ho.
    cbn [UpdateWorkforceInput.SourceIpConfig UpdateWorkforceInput.OidcConfig updateInput].
    destruct (HasChangeList d "source_ip_config"), (HasChangeList d "oidc_config");
      cbn in Hs, Ho; by simplify_eq.
Qed.

Lemma expand_of_no_block_C10_witness :
  expandWorkforceVPCConfig [None; Some (sampleVpc "")] = Ok (Some emptyVpcConfigRequest)
  ∧ expandWorkforceSourceIPConfig [] = Ok None
  ∧ (∃ input rest,
       (resourceWorkforceUpdate
          (scriptedSageMaker None None None (inl sampleWorkforce) None None)
          clearedVpcConfig []).2
       = [] ++ UpdateWorkforce input :: rest
       ∧ UpdateWorkforceInput.WorkforceVpcConfig input = Some emptyVpcConfigRequest).
Proof.
  destruct expand_of_no_block_C10 as (Hexpand & Hvpc & _).
  split; [| split].
  - apply Hexpand. right. by eexists.
  - apply Hexpand. by left.
  - eapply (Hvpc _ clearedVpcConfig []
              (resourceWorkforceUpdate
                 (scriptedSageMaker None None None (inl sampleWorkforce) None None)
                 clearedVpcConfig []).2).
    + vm_compute; reflexivity.
    + vm_compute; reflexivity.
    + apply (run_returned clearedVpcConfig). vm_compute; reflexivity.
Defined.

(** ** The tag helpers *)

Lemma ErrCodeEquals_noTagSet (err : error) :
  tfawserr.ErrCodeEquals (Some err) [errCodeNoSuchTagSet; errCodeNoSuchTagSetError] = true
  ↔ noTagSet err.
Proof.
  unfold tfawserr.ErrCodeEquals, noTagSet. cbn [mbind option_bind].
  destruct (asAwsError err) as [[code message]|].
  - rewrite bool_decide_eq_true, !elem_of_cons, elem_of_nil.
    unfold errCodeNoSuchTagSet, errCodeNoSuchTagSetError. split.
    + intros H. exists code, message. split; [done | tauto].
    + intros (c & m & [= -> ->] & H). tauto.
  - split; [done | by intros (c & m & ? & _)].
Qed.

(** What the three list functions make of the outcome of their read. *)
Lemma list_tags_not_found (output : TagSet + error) (err : error) :
  output = inr err → noTagSet err →
  tfawserr.ErrCodeEquals (errOf output) [errCodeNoSuchTagSet; errCodeNoSuchTagSetError] = true.
Proof. intros -> H. by apply ErrCodeEquals_noTagSet. Qed.

Lemma list_tags_other_error (output : TagSet + error) (err : error) :
  output = inr err → ¬ noTagSet err →
  tfawserr.ErrCodeEquals (errOf output) [errCodeNoSuchTagSet; errCodeNoSuchTagSetError] = false.
Proof. intros -> H. apply not_true_is_false. cbn [errOf]. by rewrite ErrCodeEquals_noTagSet. Qed.

(** C4.  When the read of the tags fails with the error code [NoSuchTagSet]
    or [NoSuchTagSetError], the three list functions return the empty tag
    map, which is not nil, and no error; when it fails with any other error
    they return the empty tag map and that error.  For the two object
    functions the read is the retried call, and what counts is the error it
    ends with. *)
Theorem list_tags_without_tag_set_C4 :
  (tftags.New None ≠ nil_map ∧ Map (tftags.New None) = ∅)
  ∧ (∀ (conn : S3API) (identifier : string) (log : list s3.Call) (err : error),
       GetBucketTaggingWithContext conn log identifier = inr err →
       (noTagSet err →
        BucketListTags conn identifier log
        = (Ok (tftags.New None, None), log ++ [GetBucketTagging identifier]))
       ∧ (¬ noTagSet err →
          BucketListTags conn identifier log
          = (Ok (tftags.New None, Some err), log ++ [GetBucketTagging identifier])))
  ∧ (∀ (conn : Client) (bucket key : string) (log log' : list s3.Call) (err : error),
       tfresource.RetryWhenIsA_NoSuchKey (retriesWithin_v2 conn 60)
         (call (GetObjectTagging bucket key) (λ log, GetObjectTagging_v2 conn log bucket key))
         log = (Ok (inr err), log') →
       (noTagSet err →
        ObjectListTags conn bucket key log = (Ok (tftags.New None, None), log'))
       ∧ (¬ noTagSet err →
          ObjectListTags conn bucket key log = (Ok (tftags.New None, Some err), log')))
  ∧ (∀ (conn : S3API) (bucket key : string) (log log' : list s3.Call) (err : error),
       tfresource.RetryWhenAWSErrCodeEquals (retriesWithin conn 60)
         (call (GetObjectTagging bucket key)
            (λ log, GetObjectTaggingWithContext conn log bucket key))
         [ErrCodeNoSuchKey] log = (Ok (inr err), log') →
       (noTagSet err →
        ObjectListTagsV1 conn bucket key log = (Ok (tftags.New None, None), log'))
       ∧ (¬ noTagSet err →
          ObjectListTagsV1 conn bucket key log = (Ok (tftags.New None, Some err), log'))).
Proof.
  split; [by split |].
  split; [| split].
  - intros conn identifier log err Hread.
    unfold BucketListTags, mbind, Conn_bind, conn_bind, call. split; intros H.
    + by rewrite (list_tags_not_found _ err Hread H).
    + by rewrite (list_tags_other_error _ err Hread H), Hread.
  - intros conn bucket key log log' err Hread.
    unfold ObjectListTags. unfold mbind at 1 2, Conn_bind, conn_bind. rewrite Hread.
    split; intros H.
    + by rewrite (list_tags_not_found _ err eq_refl H).
    + by rewrite (list_tags_other_error _ err eq_refl H).
  - intros conn bucket key log log' err Hread.
    unfold ObjectListTagsV1. unfold mbind at 1 2, Conn_bind, conn_bind. rewrite Hread.
    split; intros H.
    + by rewrite (list_tags_not_found _ err eq_refl H).
    + by rewrite (list_tags_other_error _ err eq_refl H).
Qed.

Lemma list_tags_without_tag_set_C4_witness :
  BucketListTags (scriptedS3 (inr noSuchTagSet) (inl []) (inr accessDenied) (inr accessDenied))
    "b" []
  = (Ok (tftags.New None, None), [] ++ [GetBucketTagging "b"])
  ∧ BucketListTags (scriptedS3 (inr accessDenied) (inl []) (inr accessDenied) (inr accessDenied))
      "b" []
    = (Ok (tftags.New None, Some accessDenied), [] ++ [GetBucketTagging "b"])
  ∧ ObjectListTags (scriptedClient (inr noSuchTagSet)) "b" "k" []
    = (Ok (tftags.New None, None), [GetObjectTagging "b" "k"])
  ∧ ObjectListTagsV1
      (scriptedS3 (inl []) (inr noSuchTagSet) (inr accessDenied) (inr accessDenied)) "b" "k" []
    = (Ok (tftags.New None, None), [GetObjectTagging "b" "k"]).
Proof.
  destruct list_tags_without_tag_set_C4 as (_ & Hbucket & Hobject & HobjectV1).
  assert (Hnone : noTagSet noSuchTagSet).
  { eexists _, _. split; [reflexivity | by left]. }
  assert (Hdenied : ¬ noTagSet accessDenied).
  { intros (code & message & [= <- <-] & [?|?]); discriminate. }
  split; [| split; [| split]].
  - by apply (Hbucket _ "b" [] noSuchTagSet).
  - by apply (Hbucket _ "b" [] accessDenied).
  - apply (Hobject _ "b" "k" [] _ noSuchTagSet); [vm_compute; reflexivity | done].
  - apply (HobjectV1 _ "b" "k" [] _ noSuchTagSet); [vm_compute; reflexivity | done].
Defined.

Lemma filter_mutating_replicate (n : nat) (bucket key : string) :
  List.filter mutating (replicate n (GetObjectTagging bucket key)) = [].
Proof. induction n as [|n IH]; [done | exact IH]. Qed.

(** The merged set is empty when both sets are. *)
Lemma Merge_nonempty (newTags ignoredTags : KeyValueTags) :
  0 < len newTags + len ignoredTags ↔ Map (Merge newTags ignoredTags) ≠ ∅.
Proof.
  unfold len, Merge. cbn [Map].
  rewrite <- (map_size_non_empty_iff (Map ignoredTags ∪ Map newTags)).
  split.
  - intros Hpos Hzero. apply map_size_empty_iff in Hzero.
    assert (Map ignoredTags = ∅) as Hi by (by eapply map_positive_l).
    rewrite Hi, (left_id_L ∅ (∪)) in Hzero.
    rewrite Hi, Hzero, !map_size_empty in Hpos. lia.
  - intros Hne.
    destruct (decide (size (Map newTags) = 0)) as [Hn|]; [| lia].
    destruct (decide (size (Map ignoredTags) = 0)) as [Hi|]; [| lia].
    apply map_size_empty_iff in Hn, Hi. rewrite Hn, Hi, (left_id_L ∅ (∪)) in Hne.
    by rewrite map_size_empty in Hne.
Qed.

(** What the corrective call is, in the terms of the three sets. *)
Lemma correction_spec (put : TagSet → s3.Call) (delete : s3.Call)
    (oldTags newTags ignoredTags : KeyValueTags) :
  length (correction put delete oldTags newTags ignoredTags) ≤ 1
  ∧ (Map (Merge newTags ignoredTags) ≠ ∅ →
     correction put delete oldTags newTags ignoredTags
     = [put (Tags (Merge newTags ignoredTags))])
  ∧ (Map newTags = ∅ → Map ignoredTags = ∅ → Map oldTags ≠ ∅ →
     correction put delete oldTags newTags ignoredTags = [delete])
  ∧ (Map (Merge newTags ignoredTags) = ∅ → Map oldTags = ∅ →
     correction put delete oldTags newTags ignoredTags = []).
Proof.
  unfold correction.
  destruct (decide (0 < len newTags + len ignoredTags)) as [Hpos|Hzero].
  - rewrite (bool_decide_eq_true_2 _ Hpos). split; [cbn; lia |].
    apply Merge_nonempty in Hpos. split; [done |].
    split.
    + intros Hn Hi _. exfalso. apply Hpos. unfold Merge. cbn [Map].
      by rewrite Hn, Hi, (left_id_L ∅ (∪)).
    + intros Hempty. done.
  - rewrite (bool_decide_eq_false_2 _ Hzero).
    assert (Hmerged : Map (Merge newTags ignoredTags) = ∅).
    { destruct (decide (Map (Merge newTags ignoredTags) = ∅)) as [|Hne]; [done |].
      by apply Merge_nonempty in Hne. }
    split; [by destruct (_ && _); cbn; lia |].
    split; [done |].
    split.
    + intros Hn Hi Ho.
      assert (0 < len oldTags) as Hold.
      { unfold len. apply map_size_non_empty_iff in Ho. lia. }
      assert (len ignoredTags = 0) as Hign by (unfold len; by rewrite Hi, map_size_empty).
      by rewrite (bool_decide_eq_true_2 _ Hold), (bool_decide_eq_true_2 _ Hign).
    + intros _ Ho.
      assert (¬ 0 < len oldTags) as Hold by (unfold len; rewrite Ho, map_size_empty; lia).
      by rewrite (bool_decide_eq_false_2 _ Hold).
Qed.

(** * Further properties of the three adapters *)

(** ** The expanders and flatteners of the Workforce blocks *)

Lemma not_elem_of_cons_ne {A} (x y : A) (l : list A) : x ∉ y :: l → x ≠ y ∧ x ∉ l.
Proof. by rewrite not_elem_of_cons. Qed.

(** A key off the list does not change the lookups of the keys on it. *)
Ltac off_keys :=
  repeat match goal with
         | H : _ ∉ _ :: _ |- _ => apply not_elem_of_cons_ne in H as [? ?]
         end;
  repeat (rewrite lookup_insert_ne by assumption).

(** A string that is none of the strings of a list. *)
Ltac not_in_list :=
  let H := fresh in
  intros H;
  repeat (apply elem_of_cons in H as [H|H]; [discriminate H |]);
  by apply elem_of_nil in H.

(** X1.  An expander looks at the first element of the list only, and in it
    at the fields it sends only: further elements and other keys, the computed
    [vpc_endpoint_id] among them, do not change what it returns. *)
Theorem expand_reads_own_fields_X1 :
  (∀ (x : option block) (rest : list (option block)),
     expandWorkforceCognitoConfig (x :: rest) = expandWorkforceCognitoConfig [x]
     ∧ expandWorkforceOIDCConfig (x :: rest) = expandWorkforceOIDCConfig [x]
     ∧ expandWorkforceSourceIPConfig (x :: rest) = expandWorkforceSourceIPConfig [x]
     ∧ expandWorkforceVPCConfig (x :: rest) = expandWorkforceVPCConfig [x])
  ∧ (∀ (m : block) (k : string) (v : fval),
       k ∉ ["client_id"; "user_pool"] →
       expandWorkforceCognitoConfig [Some (<[k := v]> m)]
       = expandWorkforceCognitoConfig [Some m])
  ∧ (∀ (m : block) (k : string) (v : fval),
       k ∉ ["authorization_endpoint"; "client_id"; "client_secret"; "issuer"; "jwks_uri";
            "logout_endpoint"; "token_endpoint"; "user_info_endpoint"] →
       expandWorkforceOIDCConfig [Some (<[k := v]> m)]
       = expandWorkforceOIDCConfig [Some m])
  ∧ (∀ (m : block) (k : string) (v : fval),
       k ≠ "cidrs" →
       expandWorkforceSourceIPConfig [Some (<[k := v]> m)]
       = expandWorkforceSourceIPConfig [Some m])
  ∧ (∀ (m : block) (k : string) (v : fval),
       k ∉ ["security_group_ids"; "subnets"; "vpc_id"] →
       expandWorkforceVPCConfig [Some (<[k := v]> m)]
       = expandWorkforceVPCConfig [Some m]).
Proof.
  split; [by intros [m|] rest |].
  split; [| split; [| split]].
  - intros m k v H. unfold expandWorkforceCognitoConfig. by off_keys.
  - intros m k v H. unfold expandWorkforceOIDCConfig. by off_keys.
  - intros m k v H. unfold expandWorkforceSourceIPConfig. by rewrite lookup_insert_ne.
  - intros m k v H. unfold expandWorkforceVPCConfig. by off_keys.
Qed.

Lemma expand_reads_own_fields_X1_witness :
  expandWorkforceVPCConfig [Some (<["vpc_endpoint_id" := VString "vpce-9"]> (sampleVpc ""))]
  = expandWorkforceVPCConfig [Some (sampleVpc "")]
  ∧ expandWorkforceCognitoConfig [Some (<["note" := VString "x"]> sampleCognito)]
    = expandWorkforceCognitoConfig [Some sampleCognito].
Proof.
  destruct expand_reads_own_fields_X1 as (_ & Hcognito & _ & _ & Hvpc).
  split.
  - apply Hvpc. not_in_list.
  - apply Hcognito. not_in_list.
Defined.

Lemma assertString_panicked (m : block) (key : string) :
  panicked (assertString (m !! key)) = false ↔ is_Some (stringField m key).
Proof.
  unfold stringField. destruct (m !! key) as [[s|xs]|]; cbn;
    (split; [try done; by eauto | try done; by intros [? [=]]]).
Qed.

Lemma assertSet_panicked (m : block) (key : string) :
  panicked (assertSet (m !! key)) = false ↔ is_Some (setField m key).
Proof.
  unfold setField. destruct (m !! key) as [[s|xs]|]; cbn;
    (split; [try done; by eauto | try done; by intros [? [=]]]).
Qed.

(** A bind panics when its first part does, and else as its second. *)
Lemma panicked_bind {A B} (r : result A) (f : A → result B) (P Q : Prop) :
  (panicked r = false ↔ P) →
  (∀ a, r = Ok a → (panicked (f a) = false ↔ Q)) →
  panicked (r ≫= f) = false ↔ P ∧ Q.
Proof.
  intros HP HQ. destruct r as [a|]; cbn.
  - rewrite (HQ a eq_refl). cbn in HP. tauto.
  - cbn in HP. split; [done |]. intros [HP' _]. by apply HP in HP'.
Qed.

(** X2.  On a list that begins with a block, an expander panics exactly when
    one of the fields it sends is missing from the block or is not of its
    type; it returns otherwise. *)
Theorem expand_panics_iff_X2 (m : block) (rest : list (option block)) :
  (panicked (expandWorkforceCognitoConfig (Some m :: rest)) = false
   ↔ is_Some (stringField m "client_id") ∧ is_Some (stringField m "user_pool"))
  ∧ (panicked (expandWorkforceOIDCConfig (Some m :: rest)) = false
     ↔ is_Some (stringField m "authorization_endpoint")
       ∧ is_Some (stringField m "client_id")
       ∧ is_Some (stringField m "client_secret")
       ∧ is_Some (stringField m "issuer")
       ∧ is_Some (stringField m "jwks_uri")
       ∧ is_Some (stringField m "logout_endpoint")
       ∧ is_Some (stringField m "token_endpoint")
       ∧ is_Some (stringField m "user_info_endpoint"))
  ∧ (panicked (expandWorkforceSourceIPConfig (Some m :: rest)) = false
     ↔ is_Some (setField m "cidrs"))
  ∧ (panicked (expandWorkforceVPCConfig (Some m :: rest)) = false
     ↔ is_Some (setField m "security_group_ids")
       ∧ is_Some (setField m "subnets")
       ∧ is_Some (stringField m "vpc_id")).
Proof.
  split; [| split; [| split]].
  - unfold expandWorkforceCognitoConfig.
    apply panicked_bind; [apply assertString_panicked |]. intros a _.
    rewrite <- (assertString_panicked m "user_pool").
    by destruct (assertString (m !! "user_pool")).
  - unfold expandWorkforceOIDCConfig.
    repeat (apply panicked_bind; [apply assertString_panicked |]; intros ? _).
    rewrite <- (assertString_panicked m "user_info_endpoint").
    by destruct (assertString (m !! "user_info_endpoint")).
  - unfold expandWorkforceSourceIPConfig.
    rewrite <- (assertSet_panicked m "cidrs").
    by destruct (assertSet (m !! "cidrs")).
  - unfold expandWorkforceVPCConfig.
    apply panicked_bind; [apply assertSet_panicked |]. intros ? _.
    apply panicked_bind; [apply assertSet_panicked |]. intros ? _.
    rewrite <- (assertString_panicked m "vpc_id").
    by destruct (assertString (m !! "vpc_id")).
Qed.

Lemma oidc_block_valid (ae ci cs iss jw lo te ui : string) :
  validBlock "oidc_config"
    {[ "authorization_endpoint" := VString ae; "client_id" := VString ci;
       "client_secret" := VString cs; "issuer" := VString iss; "jwks_uri" := VString jw;
       "logout_endpoint" := VString lo; "token_endpoint" := VString te;
       "user_info_endpoint" := VString ui ]}.
Proof. block_is_valid. Qed.

Lemma vpc_block_valid (sg sn : gset string) (ve vi : string) :
  validBlock "workforce_vpc_config"
    {[ "security_group_ids" := VSet sg; "subnets" := VSet sn;
       "vpc_endpoint_id" := VString ve; "vpc_id" := VString vi ]}.
Proof. block_is_valid. Qed.

(** X3.  What a flattener returns for a configuration is one block that is
    valid for the schema, whatever fields of the configuration are nil; the
    expander takes it without panic, and flattening what it expands to gives
    the same block again. *)
Theorem flatten_then_expand_X3 :
  (∀ config : CognitoConfig.t,
     ∃ m config',
       flattenWorkforceCognitoConfig (Some config) = [m]
       ∧ validBlock "cognito_config" m
       ∧ expandWorkforceCognitoConfig [Some m] = Ok (Some config')
       ∧ flattenWorkforceCognitoConfig (Some config') = [m])
  ∧ (∀ config : SourceIpConfig.t,
       ∃ m config',
         flattenWorkforceSourceIPConfig (Some config) = [m]
         ∧ validBlock "source_ip_config" m
         ∧ expandWorkforceSourceIPConfig [Some m] = Ok (Some config')
         ∧ flattenWorkforceSourceIPConfig (Some config') = [m])
  ∧ (∀ (config : OidcConfigForResponse.t) (clientSecret : string),
       ∃ m config',
         flattenWorkforceOIDCConfig (Some config) clientSecret = [m]
         ∧ validBlock "oidc_config" m
         ∧ expandWorkforceOIDCConfig [Some m] = Ok (Some config')
         ∧ OidcConfig.ClientSecret config' = Some clientSecret
         ∧ flattenWorkforceOIDCConfig (Some (oidcResponse config')) clientSecret = [m])
  ∧ (∀ config : WorkforceVpcConfigResponse.t,
       ∃ m config',
         flattenWorkforceVPCConfig (Some config) = [m]
         ∧ validBlock "workforce_vpc_config" m
         ∧ expandWorkforceVPCConfig [Some m] = Ok (Some config')
         ∧ flattenWorkforceVPCConfig
             (Some (vpcResponse config' (WorkforceVpcConfigResponse.VpcEndpointId config)))
           = [m]).
Proof.
  split; [| split; [| split]].
  - intros config. eexists _, _. split; [reflexivity |].
    split; [apply cognito_block_valid |]. split; reflexivity.
  - intros config. eexists _, _. split; [reflexivity |].
    split; [apply source_ip_block_valid |]. split; [reflexivity |].
    cbn. unfold flex.FlattenStringSet, flex.ExpandStringSet. cbn [default].
    by rewrite list_to_set_elements_L.
  - intros config clientSecret. eexists _, _. split; [reflexivity |].
    split; [apply oidc_block_valid |]. split; [reflexivity |]. split; reflexivity.
  - intros config. eexists _, _. split; [reflexivity |].
    split; [apply vpc_block_valid |]. split; [reflexivity |].
    cbn. unfold flex.FlattenStringSet, flex.ExpandStringSet. cbn [default].
    by rewrite !list_to_set_elements_L.
Qed.

(** ** Reading a Workforce *)

(** X4.  When the finder fails, the read makes no other call.  If the error
    is the finder's not-found error and the resource is not being created, the
    read returns no diagnostic and clears the id, so that the resource leaves
    the state; its attributes stay.  For any other error, and for a resource
    that is being created, it returns one error diagnostic and the resource
    data as it was. *)
Theorem workforce_read_gone_X4
    (conn : API) (d : ResourceData) (log : list sagemaker.Call) (err : error) :
  FindWorkforceByName conn log (Id d) = inr err →
  (isNotFound err = true → IsNewResource d = false →
   resourceWorkforceRead conn d log = (Ok ([], SetId "" d), log ++ [FindWorkforce (Id d)]))
  ∧ (isNotFound err = false ∨ IsNewResource d = true →
     resourceWorkforceRead conn d log
     = (Ok ([ {| severity := SeverityError;
                 Summary := "reading SageMaker Workforce (" +:+ Id d +:+ "): "
                              +:+ Error err |} ], d),
        log ++ [FindWorkforce (Id d)])).
Proof.
  intros Hfind. unfold resourceWorkforceRead.
  unfold mbind, Conn_bind, conn_bind, call. rewrite Hfind. split.
  - intros -> ->. reflexivity.
  - intros [->| ->]; [by rewrite andb_false_r | reflexivity].
Qed.

Lemma workforce_read_gone_X4_witness :
  resourceWorkforceRead
    (scriptedSageMaker None None None (inr (Wrapped "describing" notFound)) None None)
    oidcInState []
  = (Ok ([], SetId "" oidcInState), [] ++ [FindWorkforce (Id oidcInState)])
  ∧ HasError
      (diagsOf (resourceWorkforceRead
                  (scriptedSageMaker None None None (inr accessDenied) None None)
                  oidcInState [])) = true.
Proof.
  split.
  - apply (workforce_read_gone_X4 _ oidcInState [] (Wrapped "describing" notFound));
      reflexivity.
  - rewrite (proj2 (workforce_read_gone_X4
                      (scriptedSageMaker None None None (inr accessDenied) None None)
                      oidcInState [] accessDenied eq_refl)).
    + reflexivity.
    + by left.
Defined.

(** The keys that a read of a Workforce sets. *)
Lemma workforce_read_found (conn : API) (d : ResourceData) (log : list sagemaker.Call)
    (w : Workforce.t) :
  FindWorkforceByName conn log (Id d) = inl w →
  ∃ d', resourceWorkforceRead conn d log = (Ok ([], d'), log ++ [FindWorkforce (Id d)])
        ∧ Id d' = Id d ∧ IsNewResource d' = IsNewResource d ∧ state d' = state d
        ∧ attrs d' !! "arn" = Some (VStr (aws.StringValue (Workforce.WorkforceArn w)))
        ∧ attrs d' !! "subdomain" = Some (VStr (aws.StringValue (Workforce.SubDomain w)))
        ∧ attrs d' !! "workforce_name"
          = Some (VStr (aws.StringValue (Workforce.WorkforceName w)))
        ∧ attrs d' !! "cognito_config"
          = Some (blocks (flattenWorkforceCognitoConfig (Workforce.CognitoConfig w)))
        ∧ attrs d' !! "oidc_config"
          = match Workforce.OidcConfig w with
            | None => attrs d !! "oidc_config"
            | Some _ =>
                Some (blocks (flattenWorkforceOIDCConfig (Workforce.OidcConfig w)
                                (GetBlockString d "oidc_config" "client_secret")))
            end
        ∧ attrs d' !! "source_ip_config"
          = Some (blocks (flattenWorkforceSourceIPConfig (Workforce.SourceIpConfig w)))
        ∧ attrs d' !! "workforce_vpc_config"
          = Some (blocks (flattenWorkforceVPCConfig (Workforce.WorkforceVpcConfig w)))
        ∧ (∀ k, k ∉ ["arn"; "subdomain"; "workforce_name"; "cognito_config"; "oidc_config";
                     "source_ip_config"; "workforce_vpc_config"] →
                attrs d' !! k = attrs d !! k).
Proof.
  intros Hfind. unfold resourceWorkforceRead.
  unfold mbind, Conn_bind, conn_bind, call. rewrite Hfind.
  unfold mret, Conn_ret, conn_ret, d_SetStringPtr.
  eexists. split; [reflexivity |].
  assert (Hsecret : ∀ v1 v2 v3 v4,
            GetBlockString
              (d_Set "cognito_config" v4
                 (d_Set "workforce_name" v3 (d_Set "subdomain" v2 (d_Set "arn" v1 d))))
              "oidc_config" "client_secret"
            = GetBlockString d "oidc_config" "client_secret").
  { intros v1 v2 v3 v4. unfold GetBlockString, GetList.
    by rewrite !attrs_d_Set_ne. }
  destruct (Workforce.OidcConfig w) as [oidc|].
  - rewrite Hsecret.
    repeat split; try (by repeat first [rewrite attrs_d_Set_eq | rewrite attrs_d_Set_ne by done]).
    intros k Hk.
    repeat (apply not_elem_of_cons_ne in Hk as [? Hk]).
    by rewrite !attrs_d_Set_ne.
  - repeat split; try (by repeat first [rewrite attrs_d_Set_eq | rewrite attrs_d_Set_ne by done]).
    intros k Hk.
    repeat (apply not_elem_of_cons_ne in Hk as [? Hk]).
    by rewrite !attrs_d_Set_ne.
Qed.

(** X5.  When the finder returns a Workforce, the read makes that one call,
    returns no diagnostic, keeps the id and the prior state, and mirrors the
    response: the three names as they come (empty for nil), and each block
    flattened, an absent block as the empty list.  [oidc_config] alone is left
    as it was when the response has no OIDC configuration.  No other attribute
    changes. *)
Theorem workforce_read_mirrors_X5
    (conn : API) (d : ResourceData) (log : list sagemaker.Call) (w : Workforce.t) :
  FindWorkforceByName conn log (Id d) = inl w →
  ∃ d', resourceWorkforceRead conn d log = (Ok ([], d'), log ++ [FindWorkforce (Id d)])
        ∧ Id d' = Id d ∧ state d' = state d
        ∧ GetString d' "arn" = aws.StringValue (Workforce.WorkforceArn w)
        ∧ GetString d' "subdomain" = aws.StringValue (Workforce.SubDomain w)
        ∧ GetString d' "workforce_name" = aws.StringValue (Workforce.WorkforceName w)
        ∧ GetList d' "cognito_config"
          = Some <$> flattenWorkforceCognitoConfig (Workforce.CognitoConfig w)
        ∧ GetList d' "source_ip_config"
          = Some <$> flattenWorkforceSourceIPConfig (Workforce.SourceIpConfig w)
        ∧ GetList d' "workforce_vpc_config"
          = Some <$> flattenWorkforceVPCConfig (Workforce.WorkforceVpcConfig w)
        ∧ (Workforce.CognitoConfig w = None → GetList d' "cognito_config" = [])
        ∧ (Workforce.OidcConfig w = None → GetList d' "oidc_config" = GetList d "oidc_config")
        ∧ (∀ k, k ∉ ["arn"; "subdomain"; "workforce_name"; "cognito_config"; "oidc_config";
                     "source_ip_config"; "workforce_vpc_config"] →
                attrs d' !! k = attrs d !! k).
Proof.
  intros Hfind.
  destruct (workforce_read_found conn d log w Hfind)
    as (d' & Hrun & Hid & _ & Hstate & Harn & Hsub & Hname & Hcog & Hoidc & Hsip & Hvpc & Hrest).
  exists d'. unfold GetString, GetList.
  rewrite Harn, Hsub, Hname, Hcog, Hsip, Hvpc. cbn [stringOf listOf blocks].
  repeat split; try done.
  - by intros ->.
  - intros Hnone. by rewrite Hoidc, Hnone.
Qed.

Lemma workforce_read_mirrors_X5_witness :
  ∃ d', resourceWorkforceRead
          (scriptedSageMaker None None None (inl sampleWorkforce) None None) oidcInState []
        = (Ok ([], d'), [] ++ [FindWorkforce (Id oidcInState)])
        ∧ Id d' = Id oidcInState
        ∧ GetString d' "arn" = "arn:aws:sagemaker:eu-west-1:123456789012:workforce/team"
        ∧ GetList d' "source_ip_config" = []
        ∧ GetList d' "oidc_config" = [Some sampleOidc].
Proof.
  destruct (workforce_read_mirrors_X5
              (scriptedSageMaker None None None (inl sampleWorkforce) None None)
              oidcInState [] sampleWorkforce eq_refl)
    as (d' & Hrun & Hid & _ & Harn & _ & _ & _ & Hsip & _ & _ & Hoidc & _).
  exists d'. split; [exact Hrun |]. split; [exact Hid |]. split; [exact Harn |].
  split; [exact Hsip |]. rewrite (Hoidc eq_refl). reflexivity.
Defined.

(** X6.  A read never changes the client secret that the resource data holds
    in [oidc_config]: not when the Workforce is gone or the finder fails, not
    when the response has no OIDC configuration, and not when it has one, for
    the flattened block takes the secret from the data. *)
Theorem read_keeps_client_secret_X6
    (conn : API) (d : ResourceData) (log : list sagemaker.Call) :
  GetBlockString (dataOf d (resourceWorkforceRead conn d log)) "oidc_config" "client_secret"
  = GetBlockString d "oidc_config" "client_secret".
Proof.
  destruct (FindWorkforceByName conn log (Id d)) as [w|err] eqn:Hfind.
  - destruct (workforce_read_found conn d log w Hfind)
      as (d' & Hrun & _ & _ & _ & _ & _ & _ & _ & Hoidc & _).
    rewrite Hrun. unfold dataOf. cbn [fst].
    unfold GetBlockString at 1. unfold GetList. rewrite Hoidc.
    destruct (Workforce.OidcConfig w) as [oidc|]; reflexivity.
  - unfold resourceWorkforceRead, mbind, Conn_bind, conn_bind, call. rewrite Hfind.
    by destruct (negb (IsNewResource d) && isNotFound err).
Qed.

(** Writing stays within a schema, step by step. *)
Lemma writesWithin_refl (fields : list (string * Schema)) (d : ResourceData) :
  writesWithin fields d d.
Proof. intros k. by left. Qed.

Lemma writesWithin_Set (fields : list (string * Schema)) (d d1 : ResourceData)
    (key : string) (v : value) (s : Schema) :
  schema.lookup key fields = Some s →
  valueHasType (Type_ (props s)) v = true →
  writesWithin fields d d1 →
  writesWithin fields d (d_Set key v d1).
Proof.
  intros Hs Hv H k. destruct (decide (key = k)) as [<-|Hne].
  - right. exists s, v. by rewrite attrs_d_Set_eq.
  - rewrite attrs_d_Set_ne by done. apply H.
Qed.

Lemma writesWithin_SetId (fields : list (string * Schema)) (d d1 : ResourceData) (id : string) :
  writesWithin fields d d1 → writesWithin fields d (SetId id d1).
Proof. intros H k. apply H. Qed.

Ltac writes_step :=
  first [ apply writesWithin_refl
        | apply writesWithin_SetId
        | eapply writesWithin_Set; [vm_compute; reflexivity | reflexivity |] ].

Lemma writesConform_refl (d : ResourceData) : writesConform d d.
Proof. intros k. by left. Qed.

Lemma writesConform_Set (d d1 : ResourceData) (key : string) (v : value) (s : Schema) :
  schema.lookup key ResourceWorkforce = Some s →
  conformsTo key s v →
  writesConform d d1 →
  writesConform d (d_Set key v d1).
Proof.
  intros Hs Hv H k. destruct (decide (key = k)) as [<-|Hne].
  - right. exists s, v. by rewrite attrs_d_Set_eq.
  - rewrite attrs_d_Set_ne by done. apply H.
Qed.

(** What the flatteners return is a list as the schema wants it. *)
Lemma flattened_lists_valid :
  (∀ config, validList "cognito_config" (Some <$> flattenWorkforceCognitoConfig config))
  ∧ (∀ config secret,
       validList "oidc_config" (Some <$> flattenWorkforceOIDCConfig config secret))
  ∧ (∀ config, validList "source_ip_config" (Some <$> flattenWorkforceSourceIPConfig config))
  ∧ (∀ config,
       validList "workforce_vpc_config" (Some <$> flattenWorkforceVPCConfig config)).
Proof.
  split; [| split; [| split]].
  - intros [config|]; [right | by left]. eexists. split; [reflexivity |].
    apply cognito_block_valid.
  - intros [config|] secret; [right | by left]. eexists. split; [reflexivity |].
    apply oidc_block_valid.
  - intros [config|]; [right | by left]. eexists. split; [reflexivity |].
    apply source_ip_block_valid.
  - intros [config|]; [right | by left]. eexists. split; [reflexivity |].
    apply vpc_block_valid.
Qed.

Ltac conforms_step :=
  first [ apply writesConform_refl
        | eapply writesConform_Set;
          [ vm_compute; reflexivity
          | first [ reflexivity
                  | split; [reflexivity | apply flattened_lists_valid] ]
          | ] ].

(** X7.  Whatever the finder answers, every attribute that a read of a
    Workforce changes is one that the Workforce schema declares, and the value
    it is given is as the schema wants it: a string for the three names and,
    for each of the four block attributes, a list of no block or of one block
    that holds exactly the fields of the nested schema, each a string or a set
    as declared. *)
Theorem workforce_read_writes_schema_X7
    (conn : API) (d : ResourceData) (log : list sagemaker.Call) :
  writesConform d (dataOf d (resourceWorkforceRead conn d log)).
Proof.
  unfold resourceWorkforceRead, mbind, Conn_bind, conn_bind, call, dataOf.
  destruct (FindWorkforceByName conn log (Id d)) as [w|err].
  - unfold mret, Conn_ret, conn_ret, d_SetStringPtr, blocks. cbn [fst].
    destruct (Workforce.OidcConfig w); repeat conforms_step.
  - destruct (negb (IsNewResource d) && isNotFound err);
      unfold mret, Conn_ret, conn_ret; cbn [fst]; intros k; by left.
Qed.

(** ** Creating, updating and deleting a Workforce *)

(** X8.  A create whose blocks expand goes through three stages.  If
    [CreateWorkforce] fails it makes no other call, returns one error and
    leaves the resource data as it was, the id unset.  If the call succeeds
    and waiting for the Workforce fails, it returns one error with the id
    already set to the name, so that the Workforce stays tracked.  Otherwise
    it returns what reading the Workforce under the new id returns. *)
Theorem workforce_create_stages_X8
    (conn : API) (d : ResourceData) (log : list sagemaker.Call)
    cognito oidc sourceIp vpc :
  whenOk (GetOkList d "cognito_config") expandWorkforceCognitoConfig = Ok cognito →
  whenOk (GetOkList d "oidc_config") expandWorkforceOIDCConfig = Ok oidc →
  whenOk (GetOkList d "source_ip_config") expandWorkforceSourceIPConfig = Ok sourceIp →
  whenOk (GetOkList d "workforce_vpc_config") expandWorkforceVPCConfig = Ok vpc →
  let name := GetString d "workforce_name" in
  let input := createInput d cognito oidc sourceIp vpc in
  let log1 := log ++ [CreateWorkforce input] in
  let log2 := log1 ++ [WaitActive name] in
  (∀ err, CreateWorkforceWithContext conn log input = Some err →
          resourceWorkforceCreate conn d log
          = (Ok ([ {| severity := SeverityError;
                      Summary := "creating SageMaker Workforce (" +:+ name +:+ "): "
                                   +:+ Error err |} ], d), log1))
  ∧ (∀ err, CreateWorkforceWithContext conn log input = None →
            WaitWorkforceActive conn log1 name = Some err →
            resourceWorkforceCreate conn d log
            = (Ok ([ {| severity := SeverityError;
                        Summary := "waiting for SageMaker Workforce (" +:+ name
                                     +:+ ") create: " +:+ Error err |} ], SetId name d),
               log2))
  ∧ (CreateWorkforceWithContext conn log input = None →
     WaitWorkforceActive conn log1 name = None →
     resourceWorkforceCreate conn d log = resourceWorkforceRead conn (SetId name d) log2).
Proof.
  intros Hc Ho Hs Hv name input log1 log2. unfold resourceWorkforceCreate.
  unfold mbind, Conn_bind, conn_bind, lift, call. rewrite Hc, Ho, Hs, Hv.
  fold (createInput d cognito oidc sourceIp vpc). fold name. fold input. fold log1.
  split; [| split].
  - intros err ->. reflexivity.
  - intros err -> ->. reflexivity.
  - intros -> ->. fold log2.
    destruct (resourceWorkforceRead_run conn (SetId name d) log2) as (diags & d' & -> & _).
    reflexivity.
Qed.

Lemma workforce_create_stages_X8_witness :
  returned (resourceWorkforceCreate
              (scriptedSageMaker (Some accessDenied) None None (inl sampleWorkforce) None None)
              newWorkforce []) = true
  ∧ Id (dataOf newWorkforce
          (resourceWorkforceCreate
             (scriptedSageMaker (Some accessDenied) None None (inl sampleWorkforce) None None)
             newWorkforce [])) = ""
  ∧ Id (dataOf newWorkforce
          (resourceWorkforceCreate
             (scriptedSageMaker None None None (inl sampleWorkforce) (Some accessDenied) None)
             newWorkforce [])) = "team"
  ∧ resourceWorkforceCreate
      (scriptedSageMaker None None None (inl sampleWorkforce) None None) newWorkforce []
    = resourceWorkforceRead
        (scriptedSageMaker None None None (inl sampleWorkforce) None None)
        (SetId "team" newWorkforce)
        (([] ++ [CreateWorkforce
                   (createInput newWorkforce
                      (Some {| CognitoConfig.ClientId := Some "client-1";
                               CognitoConfig.UserPool := Some "pool-1" |}) None None None)])
         ++ [WaitActive "team"]).
Proof.
  pose proof (λ conn, workforce_create_stages_X8 conn newWorkforce []
                        (Some {| CognitoConfig.ClientId := Some "client-1";
                                 CognitoConfig.UserPool := Some "pool-1" |})
                        None None None eq_refl eq_refl eq_refl eq_refl) as H.
  destruct (H (scriptedSageMaker (Some accessDenied) None None (inl sampleWorkforce) None None))
    as (Hcreate & _ & _).
  destruct (H (scriptedSageMaker None None None (inl sampleWorkforce) (Some accessDenied) None))
    as (_ & Hwait & _).
  destruct (H (scriptedSageMaker None None None (inl sampleWorkforce) None None))
    as (_ & _ & Hread).
  split; [| split; [| split]].
  - rewrite (Hcreate accessDenied eq_refl). reflexivity.
  - rewrite (Hcreate accessDenied eq_refl). reflexivity.
  - rewrite (Hwait accessDenied eq_refl eq_refl). reflexivity.
  - apply Hread; reflexivity.
Defined.

(** An update whose changed blocks expand returns, and has called
    [UpdateWorkforce] first. *)
Lemma resourceWorkforceUpdate_returns (conn : API) (d : ResourceData)
    (log : list sagemaker.Call) sourceIp oidc vpc :
  whenChanged d "source_ip_config" expandWorkforceSourceIPConfig = Ok sourceIp →
  whenChanged d "oidc_config" expandWorkforceOIDCConfig = Ok oidc →
  whenChanged d "workforce_vpc_config" expandWorkforceVPCConfig = Ok vpc →
  ∃ r rest,
    resourceWorkforceUpdate conn d log
    = (Ok r, log ++ UpdateWorkforce (updateInput d oidc sourceIp vpc) :: rest).
Proof.
  intros Hs Ho Hv. unfold resourceWorkforceUpdate.
  unfold mbind, Conn_bind, conn_bind, lift, call. rewrite Hs, Ho, Hv.
  fold (updateInput d oidc sourceIp vpc).
  destruct (UpdateWorkforceWithContext conn log _) as [err|].
  { by eexists _, []. }
  destruct (WaitWorkforceActive conn _ _) as [err|].
  { eexists _, [_]. by rewrite <- app_assoc. }
  match goal with |- context [resourceWorkforceRead conn ?d1 ?l] =>
    destruct (resourceWorkforceRead_run conn d1 l) as (rd & d' & -> & _)
  end.
  eexists _, [_; _]. unfold mret, Conn_ret, conn_ret. by rewrite <- !app_assoc.
Qed.






(** X10.  A delete never panics and never touches the resource data.  It calls
    [DeleteWorkforce] first; it goes on to wait for the deletion exactly when
    that call returned no error, and makes no third call.  It returns no error
    diagnostic exactly when the call reported that there is no such Workforce,
    or the call and the wait both succeeded. *)
Theorem workforce_delete_outcomes_X10
    (conn : API) (d : ResourceData) (log : list sagemaker.Call) :
  let input := {| DeleteWorkforceInput.WorkforceName := aws.String (Id d) |} in
  let answer := DeleteWorkforceWithContext conn log input in
  ∃ diags rest,
    resourceWorkforceDelete conn d log = (Ok (diags, d), log ++ DeleteWorkforce input :: rest)
    ∧ (rest = [] ∨ rest = [WaitDeleted (Id d)])
    ∧ (rest = [WaitDeleted (Id d)] ↔ answer = None)
    ∧ (HasError diags = false
       ↔ tfawserr.ErrMessageContains answer "ValidationException" "No workforce" = true
         ∨ (answer = None
            ∧ WaitWorkforceDeleted conn (log ++ [DeleteWorkforce input]) (Id d) = None)).
Proof.
  intros input answer. unfold resourceWorkforceDelete.
  unfold mbind, Conn_bind, conn_bind, call. fold input. fold answer.
  destruct answer as [err|] eqn:Hanswer.
  - destruct (tfawserr.ErrMessageContains (Some err) _ _) eqn:Habsent.
    + exists [], []. split; [done |]. split; [by left |]. split; [done |].
      split; [by left | done].
    + eexists _, []. split; [reflexivity |]. split; [by left |]. split; [done |].
      split; [done |]. by intros [? | [? _]].
  - cbn [tfawserr.ErrMessageContains mbind option_bind].
    destruct (WaitWorkforceDeleted conn _ _) as [err|] eqn:Hwait.
    + eexists _, [_]. split; [by rewrite <- app_assoc |]. split; [by right |].
      split; [done |]. split; [done |]. by intros [? | [_ ?]].
    + exists [], [WaitDeleted (Id d)]. split; [by rewrite <- app_assoc |].
      split; [by right |]. split; [done |]. split; [by right | done].
Qed.

(** A list that is valid for its block expands. *)
Lemma validList_expands (l : list (option block)) :
  (validList "cognito_config" l → ∃ c, expandWorkforceCognitoConfig l = Ok c)
  ∧ (validList "oidc_config" l → ∃ c, expandWorkforceOIDCConfig l = Ok c)
  ∧ (validList "source_ip_config" l → ∃ c, expandWorkforceSourceIPConfig l = Ok c)
  ∧ (validList "workforce_vpc_config" l → ∃ c, expandWorkforceVPCConfig l = Ok c).
Proof.
  split; [| split; [| split]].
  - intros [->|H]; [by eexists |].
    destruct (cognito_round_trip l H) as (c & -> & _). by eexists.
  - intros [->|(m & -> & H)]; [by eexists |].
    destruct (oidc_round_trip m H) as (c & -> & _). by eexists.
  - intros [->|H]; [by eexists |].
    destruct (source_ip_round_trip l H) as (c & -> & _). by eexists.
  - intros [->|(m & -> & H)]; [by eexists |].
    destruct (vpc_round_trip m H) as (c & -> & _). by eexists.
Qed.

(** X11.  On resource data whose four list attributes are as the schema wants
    them, each empty or holding one valid block, neither a create nor an
    update panics: both reach their call and return diagnostics. *)
Theorem valid_data_never_panics_X11
    (conn : API) (d : ResourceData) (log : list sagemaker.Call) :
  validList "cognito_config" (GetList d "cognito_config") →
  validList "oidc_config" (GetList d "oidc_config") →
  validList "source_ip_config" (GetList d "source_ip_config") →
  validList "workforce_vpc_config" (GetList d "workforce_vpc_config") →
  returned (resourceWorkforceCreate conn d log) = true
  ∧ returned (resourceWorkforceUpdate conn d log) = true.
Proof.
  intros Hc Ho Hs Hv.
  destruct (proj1 (validList_expands _) Hc) as (c & Hce).
  destruct (proj1 (proj2 (validList_expands _)) Ho) as (o & Hoe).
  destruct (proj1 (proj2 (proj2 (validList_expands _))) Hs) as (s & Hse).
  destruct (proj2 (proj2 (proj2 (validList_expands _))) Hv) as (v & Hve).
  split.
  - assert (∃ c', whenOk (GetOkList d "cognito_config") expandWorkforceCognitoConfig = Ok c')
      as (c' & Hc').
    { unfold whenOk, GetOkList. cbn [fst snd]. destruct (bool_decide _); by eexists. }
    assert (∃ o', whenOk (GetOkList d "oidc_config") expandWorkforceOIDCConfig = Ok o')
      as (o' & Ho').
    { unfold whenOk, GetOkList. cbn [fst snd]. destruct (bool_decide _); by eexists. }
    assert (∃ s', whenOk (GetOkList d "source_ip_config") expandWorkforceSourceIPConfig = Ok s')
      as (s' & Hs').
    { unfold whenOk, GetOkList. cbn [fst snd]. destruct (bool_decide _); by eexists. }
    assert (∃ v', whenOk (GetOkList d "workforce_vpc_config") expandWorkforceVPCConfig = Ok v')
      as (v' & Hv').
    { unfold whenOk, GetOkList. cbn [fst snd]. destruct (bool_decide _); by eexists. }
    destruct (resourceWorkforceCreate_calls conn d log _ _ _ _ Hc' Ho' Hs' Hv')
      as (diags & d' & rest & -> & _).
    reflexivity.
  - assert (∃ s', whenChanged d "source_ip_config" expandWorkforceSourceIPConfig = Ok s')
      as (s' & Hs').
    { unfold whenChanged. destruct (HasChangeList _ _); by eexists. }
    assert (∃ o', whenChanged d "oidc_config" expandWorkforceOIDCConfig = Ok o')
      as (o' & Ho').
    { unfold whenChanged. destruct (HasChangeList _ _); by eexists. }
    assert (∃ v', whenChanged d "workforce_vpc_config" expandWorkforceVPCConfig = Ok v')
      as (v' & Hv').
    { unfold whenChanged. destruct (HasChangeList _ _); by eexists. }
    destruct (resourceWorkforceUpdate_returns conn d log _ _ _ Hs' Ho' Hv') as (r & rest & ->).
    reflexivity.
Qed.

Lemma valid_data_never_panics_X11_witness :
  returned (resourceWorkforceCreate
              (scriptedSageMaker None None None (inl sampleWorkforce) None None)
              newWorkforce []) = true
  ∧ returned (resourceWorkforceUpdate
                (scriptedSageMaker None None None (inl sampleWorkforce) None None)
                newWorkforce []) = true.
Proof.
  apply valid_data_never_panics_X11.
  - right. exists sampleCognito. split; [reflexivity | apply cognito_block_valid].
  - by left.
  - by left.
  - by left.
Defined.

(** ** Reading an S3 object *)

(** Reading the tags: the tags attribute, when it is set, is set to a map. *)
Lemma readTags_cases (meta : AWSClient) (bucket key : string)
    (diags : Diagnostics) (d : ResourceData) (log : list s3.Call) :
  ∃ k diags' d',
    readTags meta bucket key diags d log
    = (Ok (diags', d'), log ++ replicate (S k) (GetObjectTagging bucket key))
    ∧ ((d' = d ∧ HasError diags' = true) ∨ (diags' = diags ∧ ∃ m, d' = d_Set "tags" (VMap m) d)).
Proof.
  unfold readTags. unfold mbind at 1, Conn_bind, conn_bind.
  destruct (ObjectListTagsV1_run (S3Conn meta) bucket key log) as (k & tags & err & ->).
  exists k. destruct err as [err|]; unfold mret, Conn_ret, conn_ret.
  - eexists _, _. split; [reflexivity |]. left. split; [done | apply HasError_AppendErrorf].
  - eexists _, _. split; [reflexivity |]. right. eauto.
Qed.

Section ObjectReadMore.

Variable FormatRFC1123 : Time → string.
Variable flattenObjectDate : option Time → string.
Variable Quote : string → string.

Local Abbreviation read := (dataSourceObjectRead FormatRFC1123 flattenObjectDate Quote).
Local Abbreviation stored out d :=
  (setStorageClass out
     (setHeadAttributes FormatRFC1123 flattenObjectDate out (SetId (uniqueId d) d))).

(** The head of the read leaves the attributes that are not its own alone. *)
Lemma stored_other (out : HeadObjectOutput.t) (d : ResourceData) (k : string) :
  k ∉ headAttributes → k ≠ "storage_class" →
  attrs (stored out d) !! k = attrs d !! k.
Proof.
  intros Hk Hsc. unfold headAttributes in Hk.
  repeat (apply not_elem_of_cons_ne in Hk as [? Hk]).
  unfold setStorageClass, setHeadAttributes, d_SetStringPtr, d_SetBoolPtr, d_SetIntPtr.
  destruct (HeadObjectOutput.StorageClass out), (HeadObjectOutput.LastModified out);
    by rewrite !attrs_d_Set_ne.
Qed.

(** The outcomes of a read once [HeadObject] has answered with an object that
    is not a delete marker. *)
Lemma read_after_head (meta : AWSClient) (d : ResourceData) (log : list s3.Call)
    (out : HeadObjectOutput.t) :
  HeadObjectWithContext (S3Conn meta) log (headObjectInput d) = inl out →
  aws.BoolValue (HeadObjectOutput.DeleteMarker out) = false →
  let bucket := GetString d "bucket" in
  let key := GetString d "key" in
  let log1 := log ++ [HeadObject (headObjectInput d)] in
  let input := getObjectInput bucket key (stored out d) out in
  ∃ diags d' n,
    (read meta d log = (Ok (diags, d'), log1 ++ replicate (S n) (GetObjectTagging bucket key))
     ∧ isContentTypeAllowed (HeadObjectOutput.ContentType out) = false
     ∧ ((d' = stored out d ∧ HasError diags = true)
        ∨ (diags = [] ∧ ∃ m, d' = d_Set "tags" (VMap m) (stored out d))))
    ∨ (read meta d log = (Ok (diags, d'), log1 ++ [GetObject input])
       ∧ isContentTypeAllowed (HeadObjectOutput.ContentType out) = true
       ∧ d' = stored out d ∧ HasError diags = true
       ∧ ∃ err, (GetObjectWithContext (S3Conn meta) log1 input = inr err
                 ∧ diags = sdkdiag.AppendErrorf []
                             ("Failed getting S3 object: " +:+ Error err))
                ∨ (∃ got, GetObjectWithContext (S3Conn meta) log1 input = inl got
                          ∧ GetObjectOutput.Body got = inr err))
    ∨ (∃ content,
         read meta d log
         = (Ok (diags, d'),
            (log1 ++ [GetObject input]) ++ replicate (S n) (GetObjectTagging bucket key))
         ∧ isContentTypeAllowed (HeadObjectOutput.ContentType out) = true
         ∧ (∃ got, GetObjectWithContext (S3Conn meta) log1 input = inl got
                   ∧ GetObjectOutput.Body got = inl content)
         ∧ ((d' = d_Set "body" (VStr content) (stored out d) ∧ HasError diags = true)
            ∨ (diags = []
               ∧ ∃ m, d' = d_Set "tags" (VMap m)
                             (d_Set "body" (VStr content) (stored out d))))).
Proof.
  intros Hhead Hdm bucket key log1 input.
  destruct (isContentTypeAllowed (HeadObjectOutput.ContentType out)) eqn:Hct.
  - rewrite (read_allowed _ _ _ _ _ _ _ Hhead Hdm Hct). fold bucket key log1 input.
    destruct (GetObjectWithContext (S3Conn meta) log1 input) as [got|err] eqn:Hget.
    + destruct (GetObjectOutput.Body got) as [content|err] eqn:Hbody.
      * destruct (readTags_cases meta bucket key []
                    (d_Set "body" (VStr content) (stored out d)) (log1 ++ [GetObject input]))
          as (n & diags & d' & Hrun & Hd').
        exists diags, d', n. right. right. exists content.
        split; [exact Hrun |]. split; [done |]. split; [by eauto |]. exact Hd'.
      * eexists _, _, 0. right. left. split; [reflexivity |]. split; [done |].
        split; [done |]. split; [apply HasError_AppendErrorf |].
        exists err. right. by exists got.
    + eexists _, _, 0. right. left. split; [reflexivity |]. split; [done |].
      split; [done |]. split; [apply HasError_AppendErrorf |].
      exists err. by left.
  - rewrite (read_not_allowed _ _ _ _ _ _ _ Hhead Hdm Hct). fold bucket key log1.
    destruct (readTags_cases meta bucket key [] (stored out d) log1)
      as (n & diags & d' & Hrun & Hd').
    exists diags, d', n. left. split; [exact Hrun |]. split; [done |]. exact Hd'.
Qed.

End ObjectReadMore.

Lemma mutations_head {A} (log rest : list s3.Call) (i : HeadObjectInput.t) (r : result A) :
  mutations log (r, log ++ HeadObject i :: rest) = List.filter mutating rest.
Proof. unfold mutations. cbn [snd]. by rewrite calls_since_app. Qed.

(** X12.  The read of an object never panics and never makes a call that
    changes anything: it calls [HeadObject] first, then [GetObject] at most
    once, then only reads of the tags of that object.  It stops after
    [HeadObject] exactly when that call failed or found a delete marker, and
    then returns the resource data untouched. *)
Theorem object_read_calls_X12
    (FormatRFC1123 : Time → string) (flattenObjectDate : option Time → string)
    (Quote : string → string)
    (meta : AWSClient) (d : ResourceData) (log : list s3.Call) :
  let run := dataSourceObjectRead FormatRFC1123 flattenObjectDate Quote meta d log in
  let tagReads n := replicate n (GetObjectTagging (GetString d "bucket") (GetString d "key")) in
  returned run = true
  ∧ mutations log run = []
  ∧ ∃ rest,
      run.2 = log ++ HeadObject (headObjectInput d) :: rest
      ∧ (∃ n, rest = tagReads n ∨ ∃ input, rest = GetObject input :: tagReads n)
      ∧ (rest = []
         ↔ ¬ ∃ out, HeadObjectWithContext (S3Conn meta) log (headObjectInput d) = inl out
                    ∧ aws.BoolValue (HeadObjectOutput.DeleteMarker out) = false)
      ∧ (rest = [] → dataOf d run = d).
Proof.
  intros run tagReads. unfold run.
  destruct (HeadObjectWithContext (S3Conn meta) log (headObjectInput d))
    as [out|err] eqn:Hhead.
  2:{ rewrite (read_head_error _ _ _ _ _ _ _ Hhead).
      split; [done |]. split; [by rewrite mutations_head |].
      exists []. split; [done |]. split; [by exists 0; left |].
      split; [| done]. split; [| done]. by intros _ (out & [=] & _). }
  destruct (aws.BoolValue (HeadObjectOutput.DeleteMarker out)) eqn:Hdm.
  { rewrite (read_delete_marker _ _ _ _ _ _ _ Hhead Hdm).
    split; [done |]. split; [by rewrite mutations_head |].
    exists []. split; [done |]. split; [by exists 0; left |].
    split; [| done]. split; [| done]. intros _ (out' & [= <-] & Hdm'). congruence. }
  assert (Hthere : ∃ out0, @inl HeadObjectOutput.t error out = inl out0
                     ∧ aws.BoolValue (HeadObjectOutput.DeleteMarker out0) = false)
    by (by exists out).
  destruct (read_after_head FormatRFC1123 flattenObjectDate Quote meta d log out Hhead Hdm)
    as (diags & d' & n & [(Hrun & _)|[(Hrun & _)|(content & Hrun & _)]]);
    rewrite Hrun; split; try done.
  - rewrite <- app_assoc. cbn [app]. split.
    { rewrite mutations_head. apply filter_mutating_replicate. }
    eexists. split; [reflexivity |]. split; [exists (S n); by left |].
    split; [| done]. split; [done | by intros []].
  - rewrite <- app_assoc. cbn [app]. split; [by rewrite mutations_head |].
    eexists. split; [reflexivity |]. split; [exists 0; right; by eexists |].
    split; [| done]. split; [done | by intros []].
  - rewrite <- !app_assoc. cbn [app]. split.
    { rewrite mutations_head. cbn [List.filter mutating].
      apply filter_mutating_replicate. }
    eexists. split; [reflexivity |]. split; [exists (S n); right; by eexists |].
    split; [| done]. split; [done | by intros []].
Qed.

Section ObjectReadExtras.

Variable FormatRFC1123 : Time → string.
Variable flattenObjectDate : option Time → string.
Variable Quote : string → string.

Local Abbreviation read := (dataSourceObjectRead FormatRFC1123 flattenObjectDate Quote).
Local Abbreviation stored out d :=
  (setStorageClass out
     (setHeadAttributes FormatRFC1123 flattenObjectDate out (SetId (uniqueId d) d))).

Lemma stored_Id (out : HeadObjectOutput.t) (d : ResourceData) :
  Id (stored out d) = uniqueId d.
Proof. by rewrite setStorageClass_Id, setHeadAttributes_Id. Qed.

Lemma stored_content_type (out : HeadObjectOutput.t) (d : ResourceData) :
  attrs (stored out d) !! "content_type"
  = Some (VStr (aws.StringValue (HeadObjectOutput.ContentType out))).
Proof.
  unfold setStorageClass, setHeadAttributes, d_SetStringPtr, d_SetBoolPtr, d_SetIntPtr.
  destruct (HeadObjectOutput.StorageClass out), (HeadObjectOutput.LastModified out);
    by repeat first [rewrite attrs_d_Set_eq | rewrite attrs_d_Set_ne by done].
Qed.

Lemma stored_etag (out : HeadObjectOutput.t) (d : ResourceData) :
  attrs (stored out d) !! "etag"
  = Some (VStr (Trim (aws.StringValue (HeadObjectOutput.ETag out)) double_quote)).
Proof.
  unfold setStorageClass, setHeadAttributes, d_SetStringPtr, d_SetBoolPtr, d_SetIntPtr.
  destruct (HeadObjectOutput.StorageClass out), (HeadObjectOutput.LastModified out);
    by repeat first [rewrite attrs_d_Set_eq | rewrite attrs_d_Set_ne by done].
Qed.

Lemma stored_version_id (out : HeadObjectOutput.t) (d : ResourceData) :
  attrs (stored out d) !! "version_id"
  = Some (VStr (aws.StringValue (HeadObjectOutput.VersionId out))).
Proof.
  unfold setStorageClass, setHeadAttributes, d_SetStringPtr, d_SetBoolPtr, d_SetIntPtr.
  destruct (HeadObjectOutput.StorageClass out), (HeadObjectOutput.LastModified out);
    by repeat first [rewrite attrs_d_Set_eq | rewrite attrs_d_Set_ne by done].
Qed.

Lemma stored_writes (out : HeadObjectOutput.t) (d : ResourceData) :
  writesWithin DataSourceObject d (stored out d).
Proof.
  unfold setStorageClass, setHeadAttributes, d_SetStringPtr, d_SetBoolPtr, d_SetIntPtr.
  destruct (HeadObjectOutput.StorageClass out), (HeadObjectOutput.LastModified out);
    repeat writes_step.
Qed.

(** The request of [GetObject] is built after the attributes are stored, but
    reads the range only, which the read does not store. *)
Lemma getObjectInput_stored (bucket key : string) (out : HeadObjectOutput.t)
    (d : ResourceData) :
  getObjectInput bucket key (stored out d) out = getObjectInput bucket key d out.
Proof.
  unfold getObjectInput, GetOkString, GetString.
  rewrite stored_other; [done | not_in_list | done].
Qed.

End ObjectReadExtras.

(** X13.  When the content type is allowed and the call of [GetObject] fails,
    or the body it returns cannot be read, the read returns one error
    diagnostic that says which of the two happened, and makes no call for the
    tags.  By then the id and the attributes of the response are stored: the
    resource data has the id and the content type of the object, but neither
    body nor tags. *)
Theorem object_body_failure_X13
    (FormatRFC1123 : Time → string) (flattenObjectDate : option Time → string)
    (Quote : string → string)
    (meta : AWSClient) (d : ResourceData) (log : list s3.Call)
    (out : HeadObjectOutput.t) (answer : GetObjectOutput.t + error) (message : string) :
  let input := getObjectInput (GetString d "bucket") (GetString d "key") d out in
  HeadObjectWithContext (S3Conn meta) log (headObjectInput d) = inl out →
  aws.BoolValue (HeadObjectOutput.DeleteMarker out) = false →
  isContentTypeAllowed (HeadObjectOutput.ContentType out) = true →
  GetObjectWithContext (S3Conn meta) (log ++ [HeadObject (headObjectInput d)]) input = answer →
  match answer with
  | inr err => message = "Failed getting S3 object: " +:+ Error err
  | inl got =>
      ∃ err, GetObjectOutput.Body got = inr err
             ∧ message = "Failed reading content of S3 object (" +:+ uniqueId d +:+ "): "
                           +:+ Error err
  end →
  ∃ d',
    dataSourceObjectRead FormatRFC1123 flattenObjectDate Quote meta d log
    = (Ok ([ {| severity := SeverityError; Summary := message |} ], d'),
       log ++ [HeadObject (headObjectInput d); GetObject input])
    ∧ Id d' = uniqueId d
    ∧ attrs d' !! "content_type"
      = Some (VStr (aws.StringValue (HeadObjectOutput.ContentType out)))
    ∧ attrs d' !! "body" = attrs d !! "body"
    ∧ attrs d' !! "tags" = attrs d !! "tags".
Proof.
  intros input Hhead Hdm Hct Hget Hmessage.
  rewrite (read_allowed _ _ _ _ _ _ _ Hhead Hdm Hct).
  rewrite (getObjectInput_stored FormatRFC1123 flattenObjectDate). fold input. rewrite Hget.
  eexists.
  split; [| split; [apply stored_Id | split; [apply stored_content_type |]]].
  - destruct answer as [got|err].
    + destruct Hmessage as (err & -> & ->). by rewrite <- app_assoc.
    + subst message. by rewrite <- app_assoc.
  - split; apply stored_other; (done || not_in_list).
Qed.

Lemma object_body_failure_X13_witness :
  ∃ d',
    dataSourceObjectRead noTime noDate inQuotes
      (failingGetMeta (inl (sampleHead (Some "text/plain") None None)) accessDenied)
      plainObject []
    = (Ok ([ {| severity := SeverityError;
                Summary := "Failed getting S3 object: " +:+ Error accessDenied |} ], d'),
       [] ++ [HeadObject (headObjectInput plainObject);
              GetObject (getObjectInput (GetString plainObject "bucket")
                           (GetString plainObject "key") plainObject
                           (sampleHead (Some "text/plain") None None))])
    ∧ Id d' = uniqueId plainObject
    ∧ attrs d' !! "content_type" = Some (VStr (aws.StringValue (Some "text/plain")))
    ∧ attrs d' !! "body" = attrs plainObject !! "body"
    ∧ attrs d' !! "tags" = attrs plainObject !! "tags".
Proof.
  apply (object_body_failure_X13 noTime noDate inQuotes
           (failingGetMeta (inl (sampleHead (Some "text/plain") None None)) accessDenied)
           plainObject [] (sampleHead (Some "text/plain") None None) (inr accessDenied)).
  - reflexivity.
  - reflexivity.
  - vm_compute; reflexivity.
  - reflexivity.
  - reflexivity.
Defined.

Lemma elem_of_replicate_tagging (input : GetObjectInput.t) (n : nat) (bucket key : string) :
  GetObject input ∉ replicate n (GetObjectTagging bucket key).
Proof. intros [H _]%elem_of_replicate. discriminate. Qed.

(** X14.  When the read calls [GetObject], the content type of the response
    was allowed, and the request is for the bucket and key of the
    configuration, with the range that [HeadObject] was given.  Its version is
    the one that [HeadObject] returned, none if it returned none, whatever
    version the configuration asks for. *)
Theorem object_get_input_X14
    (FormatRFC1123 : Time → string) (flattenObjectDate : option Time → string)
    (Quote : string → string)
    (meta : AWSClient) (d : ResourceData) (log : list s3.Call) (input : GetObjectInput.t) :
  GetObject input
  ∈ calls_since log (dataSourceObjectRead FormatRFC1123 flattenObjectDate Quote meta d log).2 →
  ∃ out,
    HeadObjectWithContext (S3Conn meta) log (headObjectInput d) = inl out
    ∧ isContentTypeAllowed (HeadObjectOutput.ContentType out) = true
    ∧ GetObjectInput.Bucket input = Some (GetString d "bucket")
    ∧ GetObjectInput.Key input = Some (GetString d "key")
    ∧ GetObjectInput.Range input = HeadObjectInput.Range (headObjectInput d)
    ∧ GetObjectInput.VersionId input = HeadObjectOutput.VersionId out.
Proof.
  destruct (HeadObjectWithContext (S3Conn meta) log (headObjectInput d))
    as [out|err] eqn:Hhead.
  2:{ rewrite (read_head_error _ _ _ _ _ _ _ Hhead). cbn [snd]. rewrite calls_since_app.
      intros H. apply list_elem_of_singleton in H. discriminate. }
  destruct (aws.BoolValue (HeadObjectOutput.DeleteMarker out)) eqn:Hdm.
  { rewrite (read_delete_marker _ _ _ _ _ _ _ Hhead Hdm). cbn [snd]. rewrite calls_since_app.
    intros H. apply list_elem_of_singleton in H. discriminate. }
  assert (Hinput : ∀ i,
            i = getObjectInput (GetString d "bucket") (GetString d "key")
                  (setStorageClass out
                     (setHeadAttributes FormatRFC1123 flattenObjectDate out
                        (SetId (uniqueId d) d))) out →
            GetObjectInput.Bucket i = Some (GetString d "bucket")
            ∧ GetObjectInput.Key i = Some (GetString d "key")
            ∧ GetObjectInput.Range i = HeadObjectInput.Range (headObjectInput d)
            ∧ GetObjectInput.VersionId i = HeadObjectOutput.VersionId out).
  { intros i ->. unfold getObjectInput, headObjectInput, GetOkString, GetString.
    cbn [GetObjectInput.Bucket GetObjectInput.Key GetObjectInput.Range
         GetObjectInput.VersionId HeadObjectInput.Range fst snd].
    rewrite stored_other by (done || not_in_list). done. }
  destruct (read_after_head FormatRFC1123 flattenObjectDate Quote meta d log out Hhead Hdm)
    as (diags & d' & n & [(Hrun & _)|[(Hrun & Hct & _)|(content & Hrun & Hct & _)]]);
    rewrite Hrun; cbn [snd]; rewrite <- ?app_assoc, calls_since_app; cbn [app]; intros H.
  - apply elem_of_cons in H as [H|H]; [discriminate |].
    by apply elem_of_replicate_tagging in H.
  - apply elem_of_cons in H as [H|H]; [discriminate |].
    apply list_elem_of_singleton in H. injection H as H.
    exists out. split; [done |]. split; [done |]. by apply Hinput.
  - apply elem_of_cons in H as [H|H]; [discriminate |].
    apply elem_of_cons in H as [H|H]; [| by apply elem_of_replicate_tagging in H].
    injection H as H.
    exists out. split; [done |]. split; [done |]. by apply Hinput.
Qed.

Lemma object_get_input_X14_witness :
  ∃ out,
    HeadObjectWithContext
      (S3Conn (sampleMeta (inl []) (inl (sampleHead (Some "text/plain") None None))))
      [] (headObjectInput rangedObject) = inl out
    ∧ isContentTypeAllowed (HeadObjectOutput.ContentType out) = true
    ∧ GetObjectInput.Bucket
        {| GetObjectInput.Bucket := Some "b"; GetObjectInput.Key := Some "k";
           GetObjectInput.Range := Some "bytes=0-9"; GetObjectInput.VersionId := None |}
      = Some (GetString rangedObject "bucket")
    ∧ GetObjectInput.Key
        {| GetObjectInput.Bucket := Some "b"; GetObjectInput.Key := Some "k";
           GetObjectInput.Range := Some "bytes=0-9"; GetObjectInput.VersionId := None |}
      = Some (GetString rangedObject "key")
    ∧ GetObjectInput.Range
        {| GetObjectInput.Bucket := Some "b"; GetObjectInput.Key := Some "k";
           GetObjectInput.Range := Some "bytes=0-9"; GetObjectInput.VersionId := None |}
      = HeadObjectInput.Range (headObjectInput rangedObject)
    ∧ GetObjectInput.VersionId
        {| GetObjectInput.Bucket := Some "b"; GetObjectInput.Key := Some "k";
           GetObjectInput.Range := Some "bytes=0-9"; GetObjectInput.VersionId := None |}
      = HeadObjectOutput.VersionId out.
Proof.
  apply (object_get_input_X14 noTime noDate inQuotes).
  apply list_elem_of_lookup. exists 1. vm_compute. reflexivity.
Defined.

(** ** Retried reads of the tags *)

(** A retried call in full: the attempts made, why each but the last was
    retried, and what the last one answered. *)
Lemma RetryWhen_attempts {A} (retry : error → bool) (n : nat) (c : s3.Call)
    (answer : list s3.Call → A + error) (log : list s3.Call) :
  ∃ k, k ≤ n
       ∧ tfresource.RetryWhen retry n (call c answer) log
         = (Ok (answer (log ++ replicate k c)), log ++ replicate (S k) c)
       ∧ (∀ j, j < k → ∃ e, answer (log ++ replicate j c) = inr e ∧ retry e = true)
       ∧ (k < n → ∀ e, answer (log ++ replicate k c) = inr e → retry e = false).
Proof.
  revert log. induction n as [|n IH]; intros log.
  - exists 0. split; [done |]. cbn [replicate]. rewrite app_nil_r.
    split; [| split; [intros j H; lia | intros H; lia]].
    cbn. unfold mbind, Conn_bind, conn_bind, call. by destruct (answer log).
  - destruct (answer log) as [a|err] eqn:Hanswer.
    + exists 0. split; [lia |]. cbn [replicate]. rewrite app_nil_r, Hanswer.
      split; [| split; [intros j H; lia | by intros _ e [=]]].
      cbn. unfold mbind, Conn_bind, conn_bind, call. by rewrite Hanswer.
    + destruct (retry err) eqn:Hretry.
      * destruct (IH (log ++ [c])) as (k & Hk & Hrun & Hbefore & Hlast).
        exists (S k). split; [lia |].
        assert (Hshift : ∀ j, (log ++ [c]) ++ replicate j c = log ++ replicate (S j) c)
          by (intros j; by rewrite <- app_assoc).
        rewrite Hshift in Hrun. rewrite !Hshift in Hrun.
        split; [| split].
        -- cbn. unfold mbind at 1, Conn_bind, conn_bind, call. rewrite Hanswer, Hretry.
           exact Hrun.
        -- intros [|j] Hj.
           ++ exists err. cbn [replicate]. by rewrite app_nil_r.
           ++ rewrite <- Hshift. apply Hbefore. lia.
        -- intros Hlt. rewrite <- Hshift. apply Hlast. lia.
      * exists 0. split; [lia |]. cbn [replicate]. rewrite app_nil_r, Hanswer.
        split; [| split; [intros j H; lia |]].
        -- cbn. unfold mbind, Conn_bind, conn_bind, call. by rewrite Hanswer, Hretry.
        -- intros _ e [= <-]. done.
Qed.

(** X19.  [ObjectListTagsV1] reads the tags at least once and at most once
    more than the timeout leaves retries for, and makes no other call.  Every
    attempt but the last failed with the code [NoSuchKey]; if attempts were
    left, the last one did not.  What it returns is decided by the last
    answer: the tags of a tag set, the empty map without error for the
    no-tag-set error, the empty map with the error for any other. *)
Theorem object_list_tags_retries_X19
    (conn : S3API) (bucket key : string) (log : list s3.Call) :
  let c := GetObjectTagging bucket key in
  let answer l := GetObjectTaggingWithContext conn l bucket key in
  ∃ k tags err,
    k ≤ retriesWithin conn 60
    ∧ ObjectListTagsV1 conn bucket key log = (Ok (tags, err), log ++ replicate (S k) c)
    ∧ (∀ j, j < k →
            ∃ e, answer (log ++ replicate j c) = inr e
                 ∧ tfawserr.ErrCodeEquals (Some e) [ErrCodeNoSuchKey] = true)
    ∧ (k < retriesWithin conn 60 →
       tfawserr.ErrCodeEquals (errOf (answer (log ++ replicate k c))) [ErrCodeNoSuchKey]
       = false)
    ∧ (∀ tagSet, answer (log ++ replicate k c) = inl tagSet →
                 tags = KeyValueTags_of tagSet ∧ err = None)
    ∧ (∀ e, answer (log ++ replicate k c) = inr e →
            tags = tftags.New None
            ∧ (noTagSet e → err = None)
            ∧ (¬ noTagSet e → err = Some e)).
Proof.
  intros c answer. unfold ObjectListTagsV1, tfresource.RetryWhenAWSErrCodeEquals.
  unfold mbind at 1, Conn_bind, conn_bind.
  destruct (RetryWhen_attempts
              (λ err, tfawserr.ErrCodeEquals (Some err) [ErrCodeNoSuchKey])
              (retriesWithin conn 60) c answer log)
    as (k & Hk & Hrun & Hbefore & Hlast).
  fold c. fold answer. rewrite Hrun. exists k.
  destruct (answer (log ++ replicate k c)) as [tagSet|e] eqn:Hanswer.
  - exists (KeyValueTags_of tagSet), None.
    split; [done |]. split; [reflexivity |]. split; [exact Hbefore |].
    split; [done |]. split; [by intros ? [= <-] | by intros ? [=]].
  - cbn [errOf].
    destruct (tfawserr.ErrCodeEquals (Some e) [errCodeNoSuchTagSet; errCodeNoSuchTagSetError])
      eqn:Hcode.
    + exists (tftags.New None), None.
      split; [done |]. split; [reflexivity |]. split; [exact Hbefore |].
      split; [intros Hlt; by apply Hlast |]. split; [by intros ? [=] |].
      intros e' [= <-]. split; [done |]. split; [done |].
      intros Hnot. by apply ErrCodeEquals_noTagSet in Hcode.
    + exists (tftags.New None), (Some e).
      split; [done |]. split; [reflexivity |]. split; [exact Hbefore |].
      split; [intros Hlt; by apply Hlast |]. split; [by intros ? [=] |].
      intros e' [= <-]. split; [done |]. split; [| done].
      intros Hnone. apply ErrCodeEquals_noTagSet in Hnone. congruence.
Qed.

Lemma Map_ignore_empty (config : option IgnoreConfig_t) :
  Map (IgnoreConfig config (IgnoreAWS (tftags.New None))) = ∅.
Proof.
  unfold IgnoreConfig, IgnoreAWS, Ignore, tftags.New. cbn [default Map].
  destruct config; cbn [Map]; by rewrite !map_filter_empty.
Qed.

Lemma noTagSet_not_NoSuchKey (err : error) :
  noTagSet err → tfawserr.ErrCodeEquals (Some err) [ErrCodeNoSuchKey] = false.
Proof.
  intros (code & message & Hcode & Hor). unfold tfawserr.ErrCodeEquals.
  cbn [mbind option_bind]. rewrite Hcode. apply bool_decide_eq_false.
  intros H. apply list_elem_of_singleton in H. subst code. by destruct Hor.
Qed.

Lemma ObjectListTagsV1_same_error (conn : S3API) (bucket key : string) (err : error)
    (log : list s3.Call) :
  (∀ l, GetObjectTaggingWithContext conn l bucket key = inr err) →
  (noTagSet err →
   ObjectListTagsV1 conn bucket key log
   = (Ok (tftags.New None, None), log ++ [GetObjectTagging bucket key]))
  ∧ (¬ noTagSet err →
     ∃ k, ObjectListTagsV1 conn bucket key log
          = (Ok (tftags.New None, Some err),
             log ++ replicate (S k) (GetObjectTagging bucket key))).
Proof.
  intros Htags.
  destruct (RetryWhen_attempts
              (λ err, tfawserr.ErrCodeEquals (Some err) [ErrCodeNoSuchKey])
              (retriesWithin conn 60) (GetObjectTagging bucket key)
              (λ log, GetObjectTaggingWithContext conn log bucket key) log)
    as (k & Hk & Hrun & Hbefore & _).
  rewrite Htags in Hrun.
  split; intros H; [| exists k];
    unfold ObjectListTagsV1, tfresource.RetryWhenAWSErrCodeEquals;
    unfold mbind at 1, Conn_bind, conn_bind; rewrite Hrun; cbn [errOf].
  - assert (k = 0) as ->.
    { destruct k as [|k]; [done |].
      destruct (Hbefore 0) as (e & He & Hretry); [lia |].
      rewrite Htags in He. injection He as <-.
      by rewrite (noTagSet_not_NoSuchKey err H) in Hretry. }
    by rewrite (proj2 (ErrCodeEquals_noTagSet err) H).
  - assert (tfawserr.ErrCodeEquals (Some err) [errCodeNoSuchTagSet; errCodeNoSuchTagSetError]
            = false) as ->
      by (apply not_true_is_false; by rewrite ErrCodeEquals_noTagSet).
    done.
Qed.

(** X15.  For an object whose body is not fetched and whose tag read is always
    answered with the same error: if the error says that there is no tag set,
    the read returns no diagnostic after one read of the tags, and stores the
    empty map as [tags]; for any other error it returns an error diagnostic
    and leaves [tags] as it was. *)
Theorem object_read_no_tag_set_X15
    (FormatRFC1123 : Time → string) (flattenObjectDate : option Time → string)
    (Quote : string → string)
    (meta : AWSClient) (d : ResourceData) (log : list s3.Call)
    (out : HeadObjectOutput.t) (err : error) :
  HeadObjectWithContext (S3Conn meta) log (headObjectInput d) = inl out →
  aws.BoolValue (HeadObjectOutput.DeleteMarker out) = false →
  isContentTypeAllowed (HeadObjectOutput.ContentType out) = false →
  (∀ l, GetObjectTaggingWithContext (S3Conn meta) l (GetString d "bucket") (GetString d "key")
        = inr err) →
  let run := dataSourceObjectRead FormatRFC1123 flattenObjectDate Quote meta d log in
  (noTagSet err →
   run.2 = log ++ [HeadObject (headObjectInput d);
                   GetObjectTagging (GetString d "bucket") (GetString d "key")]
   ∧ returned run = true ∧ diagsOf run = []
   ∧ attrs (dataOf d run) !! "tags" = Some (VMap ∅))
  ∧ (¬ noTagSet err →
     returned run = true ∧ HasError (diagsOf run) = true
     ∧ attrs (dataOf d run) !! "tags" = attrs d !! "tags").
Proof.
  intros Hhead Hdm Hct Htags run. unfold run.
  rewrite (read_not_allowed _ _ _ _ _ _ _ Hhead Hdm Hct).
  destruct (ObjectListTagsV1_same_error (S3Conn meta) _ _ err
              (log ++ [HeadObject (headObjectInput d)]) Htags) as [Hnone Hother].
  split; intros H.
  - unfold readTags, mbind, Conn_bind, conn_bind. rewrite (Hnone H).
    unfold mret, Conn_ret, conn_ret, dataOf, diagsOf, returned. cbn [fst snd].
    split; [by rewrite <- app_assoc |]. split; [done |]. split; [done |].
    by rewrite attrs_d_Set_eq, Map_ignore_empty.
  - destruct (Hother H) as (k & Hrun).
    unfold readTags, mbind, Conn_bind, conn_bind. rewrite Hrun.
    unfold mret, Conn_ret, conn_ret, dataOf, diagsOf, returned. cbn [fst snd].
    split; [done |]. split; [apply HasError_AppendErrorf |].
    apply stored_other; (done || not_in_list).
Qed.

Lemma object_read_no_tag_set_X15_witness :
  let run := dataSourceObjectRead noTime noDate inQuotes
               (sampleMeta (inr noSuchTagSet) (inl (sampleHead (Some "image/png") None None)))
               plainObject [] in
  diagsOf run = [] ∧ attrs (dataOf plainObject run) !! "tags" = Some (VMap ∅).
Proof.
  destruct (object_read_no_tag_set_X15 noTime noDate inQuotes
              (sampleMeta (inr noSuchTagSet) (inl (sampleHead (Some "image/png") None None)))
              plainObject [] (sampleHead (Some "image/png") None None) noSuchTagSet)
    as [Hnone _].
  - reflexivity.
  - reflexivity.
  - vm_compute; reflexivity.
  - reflexivity.
  - destruct Hnone as (_ & _ & Hdiags & Htags).
    + eexists _, _. split; [reflexivity | by left].
    + by split.
Defined.

(** ** The object read against its schema *)

(** X16.  Whatever the service answers, every attribute that the read of an
    object changes is one that the data source's schema declares, and the
    value stored is of the declared type; [bucket], [key] and [range], which
    the configuration gives, are among those the read leaves alone. *)
Theorem object_read_writes_schema_X16
    (FormatRFC1123 : Time → string) (flattenObjectDate : option Time → string)
    (Quote : string → string)
    (meta : AWSClient) (d : ResourceData) (log : list s3.Call) :
  let d' := dataOf d (dataSourceObjectRead FormatRFC1123 flattenObjectDate Quote meta d log) in
  writesWithin DataSourceObject d d'
  ∧ (∀ k, k ∈ ["bucket"; "key"; "range"] → attrs d' !! k = attrs d !! k).
Proof.
  intros d'. unfold d'. clear d'.
  destruct (HeadObjectWithContext (S3Conn meta) log (headObjectInput d)) as [out|err] eqn:Hhead.
  2: { rewrite (read_head_error _ _ _ _ _ _ _ Hhead). unfold dataOf. cbn [fst].
       split; [apply writesWithin_refl | done]. }
  destruct (aws.BoolValue (HeadObjectOutput.DeleteMarker out)) eqn:Hdm.
  { rewrite (read_delete_marker _ _ _ _ _ _ _ Hhead Hdm). unfold dataOf. cbn [fst].
    split; [apply writesWithin_refl | done]. }
  pose proof (stored_writes FormatRFC1123 flattenObjectDate out d) as Hstored.
  assert (Hkeep : ∀ k, k ∈ ["bucket"; "key"; "range"] →
                       (k ∉ headAttributes) ∧ k ≠ "storage_class" ∧ k ≠ "body" ∧ k ≠ "tags").
  { intros k Hk. rewrite !elem_of_cons, elem_of_nil in Hk.
    destruct Hk as [-> | [-> | [-> | []]]]; (split; [not_in_list | done]). }
  destruct (read_after_head FormatRFC1123 flattenObjectDate Quote meta d log out Hhead Hdm)
    as (diags & d1 & n & [(Hrun & _ & Hd) | [(Hrun & _ & -> & _) | (content & Hrun & _ & _ & Hd)]]);
    rewrite Hrun; unfold dataOf; cbn [fst].
  - destruct Hd as [[-> _] | (_ & m & ->)].
    + split; [exact Hstored |]. intros k Hk. destruct (Hkeep k Hk) as (? & ? & _).
      by apply stored_other.
    + split; [by writes_step |]. intros k Hk. destruct (Hkeep k Hk) as (? & ? & ? & ?).
      rewrite attrs_d_Set_ne by done. by apply stored_other.
  - split; [exact Hstored |]. intros k Hk. destruct (Hkeep k Hk) as (? & ? & _).
    by apply stored_other.
  - destruct Hd as [[-> _] | (_ & m & ->)].
    + split; [by writes_step |]. intros k Hk. destruct (Hkeep k Hk) as (? & ? & ? & ?).
      rewrite attrs_d_Set_ne by done. by apply stored_other.
    + split; [by do 2 writes_step |]. intros k Hk. destruct (Hkeep k Hk) as (? & ? & ? & ?).
      rewrite !attrs_d_Set_ne by done. by apply stored_other.
Qed.

(** ** The ETag without its quotes *)

Lemma list_ascii_of_string_append (a b : string) :
  list_ascii_of_string (a +:+ b) = list_ascii_of_string a ++ list_ascii_of_string b.
Proof.
  induction a as [|c a IH]; [by rewrite append_nil_l |].
  rewrite append_cons. cbn [list_ascii_of_string app]. by rewrite IH.
Qed.

Lemma string_of_list_ascii_app (a b : list ascii) :
  string_of_list_ascii (a ++ b) = string_of_list_ascii a +:+ string_of_list_ascii b.
Proof.
  induction a as [|c a IH]; cbn [string_of_list_ascii app]; [by rewrite append_nil_l |].
  by rewrite append_cons, IH.
Qed.

Lemma reverse_string_involutive (s : string) : reverse_string (reverse_string s) = s.
Proof.
  unfold reverse_string.
  by rewrite list_ascii_of_string_of_list_ascii, rev_involutive, string_of_list_ascii_of_string.
Qed.

Lemma reverse_string_append (a b : string) :
  reverse_string (a +:+ b) = reverse_string b +:+ reverse_string a.
Proof.
  unfold reverse_string.
  by rewrite list_ascii_of_string_append, rev_app_distr, string_of_list_ascii_app.
Qed.

Lemma repeated_append (c : ascii) (a b : string) :
  repeated c (a +:+ b) ↔ repeated c a ∧ repeated c b.
Proof.
  induction a as [|c' a IH]; [rewrite append_nil_l; cbn; tauto |].
  rewrite append_cons. cbn [repeated]. tauto.
Qed.

Lemma repeated_reverse (c : ascii) (s : string) : repeated c s → repeated c (reverse_string s).
Proof.
  induction s as [|c' s IH]; [done |]. intros [-> Hs].
  change (String c s) with (String c EmptyString +:+ s).
  rewrite reverse_string_append. apply repeated_append. split; [by apply IH | done].
Qed.

(** [TrimLeft] removes a run of the character and nothing else. *)
Lemma TrimLeft_spec (c : ascii) (s : string) :
  ∃ l, repeated c l ∧ s = l +:+ TrimLeft c s ∧ ¬ startsWith c (TrimLeft c s).
Proof.
  induction s as [|c' s (l & Hl & Hs & Hstart)].
  - exists EmptyString. rewrite append_nil_l. cbn. tauto.
  - cbn [TrimLeft]. destruct (decide (c' = c)) as [->|Hne].
    + exists (String c l). rewrite append_cons, <- Hs. cbn [repeated]. tauto.
    + exists EmptyString. rewrite append_nil_l. cbn. tauto.
Qed.

Lemma startsWith_append (c : ascii) (a b : string) :
  startsWith c a → startsWith c (a +:+ b).
Proof. destruct a; [done |]. by rewrite append_cons. Qed.

(** [strings.Trim] with one character: what is cut off at either end is made
    of that character, and what is left neither begins nor ends with it. *)
Lemma Trim_spec (s : string) (c : ascii) :
  (∃ l r, repeated c l ∧ repeated c r ∧ s = l +:+ Trim s c +:+ r)
  ∧ ¬ startsWith c (Trim s c) ∧ ¬ endsWith c (Trim s c).
Proof.
  destruct (TrimLeft_spec c s) as (l & Hl & Hs & Hstart).
  destruct (TrimLeft_spec c (reverse_string (TrimLeft c s))) as (r & Hr & Ht & Hend).
  assert (Hmid : TrimLeft c s = Trim s c +:+ reverse_string r).
  { rewrite <- (reverse_string_involutive (TrimLeft c s)). rewrite Ht at 1.
    by rewrite reverse_string_append. }
  split; [| split].
  - exists l, (reverse_string r). split; [done |]. split; [by apply repeated_reverse |].
    by rewrite <- Hmid.
  - intros H. apply Hstart. rewrite Hmid. by apply startsWith_append.
  - unfold endsWith, Trim. by rewrite reverse_string_involutive.
Qed.

(** A string that neither begins nor ends with the character is left as it
    is. *)
Lemma Trim_unquoted (s : string) (c : ascii) :
  ¬ startsWith c s → ¬ endsWith c s → Trim s c = s.
Proof.
  intros Hstart Hend.
  assert (Hleft : ∀ t, ¬ startsWith c t → TrimLeft c t = t).
  { intros [|c' t] H; [done |]. cbn [TrimLeft]. by destruct (decide (c' = c)). }
  unfold Trim. rewrite (Hleft s Hstart), (Hleft _ Hend). apply reverse_string_involutive.
Qed.

(** X17.  After a read that got an object from [HeadObject], the stored
    [etag] is the ETag of the response without the double quotes around it:
    what was removed at either end consists of double quotes only, what is
    stored neither begins nor ends with one, and an ETag that came without
    quotes is stored as it is. *)
Theorem etag_without_quotes_X17
    (FormatRFC1123 : Time → string) (flattenObjectDate : option Time → string)
    (Quote : string → string)
    (meta : AWSClient) (d : ResourceData) (log : list s3.Call) (out : HeadObjectOutput.t) :
  HeadObjectWithContext (S3Conn meta) log (headObjectInput d) = inl out →
  aws.BoolValue (HeadObjectOutput.DeleteMarker out) = false →
  let d' := dataOf d (dataSourceObjectRead FormatRFC1123 flattenObjectDate Quote meta d log) in
  let sent := aws.StringValue (HeadObjectOutput.ETag out) in
  ∃ etag,
    attrs d' !! "etag" = Some (VStr etag)
    ∧ (∃ l r, repeated double_quote l ∧ repeated double_quote r ∧ sent = l +:+ etag +:+ r)
    ∧ ¬ startsWith double_quote etag ∧ ¬ endsWith double_quote etag
    ∧ (¬ startsWith double_quote sent → ¬ endsWith double_quote sent → etag = sent).
Proof.
  intros Hhead Hdm d' sent. unfold d'. clear d'.
  exists (Trim sent double_quote).
  destruct (Trim_spec sent double_quote) as (Hparts & Hstart & Hend).
  split; [| split; [exact Hparts | split; [exact Hstart | split; [exact Hend |]]]].
  2: { apply Trim_unquoted. }
  pose proof (stored_etag FormatRFC1123 flattenObjectDate out d) as Hetag.
  destruct (read_after_head FormatRFC1123 flattenObjectDate Quote meta d log out Hhead Hdm)
    as (diags & d1 & n & [(Hrun & _ & Hd) | [(Hrun & _ & -> & _) | (content & Hrun & _ & _ & Hd)]]);
    rewrite Hrun; unfold dataOf; cbn [fst].
  - destruct Hd as [[-> _] | (_ & m & ->)]; [done |]. by rewrite attrs_d_Set_ne.
  - done.
  - destruct Hd as [[-> _] | (_ & m & ->)]; by rewrite !attrs_d_Set_ne.
Qed.

Lemma etag_without_quotes_X17_witness :
  ∃ etag,
    attrs (dataOf plainObject
             (dataSourceObjectRead noTime noDate inQuotes
                (sampleMeta (inl []) (inl quotedETagHead)) plainObject []))
      !! "etag" = Some (VStr etag)
    ∧ ¬ startsWith double_quote etag.
Proof.
  destruct (etag_without_quotes_X17 noTime noDate inQuotes
              (sampleMeta (inl []) (inl quotedETagHead)) plainObject [] quotedETagHead)
    as (etag & Hetag & _ & Hstart & _).
  - reflexivity.
  - reflexivity.
  - exists etag. by split.
Defined.

(** ** Content types with parameters *)

Lemma prefix_append (s t : string) : String.prefix s (s +:+ t) = true.
Proof.
  induction s as [|c s IH]; [by destruct t |].
  rewrite append_cons. cbn [String.prefix]. by destruct (ascii_dec c c).
Qed.

(** None of the exact content types is the beginning of another one, or
    begins like a text type. *)
Lemma exact_type_extended (s t : string) :
  s ∈ exactContentTypes → t ≠ "" → isContentTypeAllowed (Some (s +:+ t)) = false.
Proof.
  intros Hs Ht. apply not_true_is_false. rewrite isContentTypeAllowed_iff.
  intros [Hin | (c & rest & Heq & _)].
  - pose proof (prefix_append s t) as Hprefix.
    assert (Hsame : s +:+ t = s → False).
    { intros H. rewrite <- (append_nil_r s) in H at 2. by apply String.app_inj in H. }
    unfold exactContentTypes in Hs, Hin. rewrite !elem_of_cons, elem_of_nil in Hs, Hin.
    repeat (destruct Hs as [-> | Hs]); try done;
      repeat (destruct Hin as [Hin | Hin]); try done;
        first [ by apply Hsame
              | rewrite Hin in Hprefix; vm_compute in Hprefix; discriminate ].
  - pose proof (prefix_append s t) as Hprefix. rewrite Heq in Hprefix.
    unfold exactContentTypes in Hs. rewrite !elem_of_cons, elem_of_nil in Hs.
    repeat (destruct Hs as [-> | Hs]); try done;
      rewrite append_cons in Hprefix; cbn [String.prefix] in Hprefix;
      by destruct (ascii_dec _ _).
Qed.

(** X18.  A content type that is allowed stays allowed when something is
    added after it, such as a [; charset=] parameter, exactly when it is a
    text type: the eight exact types are allowed only as they stand, so the
    body of an [application/json; charset=utf-8] object is not fetched. *)
Theorem content_type_parameters_X18 (s t : string) :
  isContentTypeAllowed (Some s) = true → t ≠ "" →
  (isContentTypeAllowed (Some (s +:+ t)) = true ↔ s ∉ exactContentTypes).
Proof.
  intros Hs Ht. split.
  - intros Hst Hin. by rewrite (exact_type_extended s t Hin Ht) in Hst.
  - intros Hout. apply isContentTypeAllowed_iff in Hs as [Hin | (c & rest & -> & Hc)]; [done |].
    apply isContentTypeAllowed_iff. right. exists c, (rest +:+ t).
    split; [| done]. by rewrite !append_cons, append_nil_l.
Qed.

Lemma content_type_parameters_X18_witness :
  isContentTypeAllowed (Some ("application/json" +:+ "; charset=utf-8")) = true
  ↔ "application/json" ∉ exactContentTypes.
Proof.
  apply (content_type_parameters_X18 "application/json" "; charset=utf-8").
  - vm_compute; reflexivity.
  - discriminate.
Defined.

(** ** What an update of the tags returns, and what it puts *)

Lemma BucketListTags_last (conn : S3API) (identifier : string) (log : list s3.Call) :
  ∃ tags err,
    BucketListTags conn identifier log = (Ok (tags, err), log ++ [GetBucketTagging identifier])
    ∧ match GetBucketTaggingWithContext conn log identifier with
      | inl tagSet => tags = KeyValueTags_of tagSet ∧ err = None
      | inr e =>
          tags = tftags.New None
          ∧ err = if tfawserr.ErrCodeEquals (Some e) [errCodeNoSuchTagSet; errCodeNoSuchTagSetError]
                  then None else Some e
      end.
Proof.
  unfold BucketListTags, mbind, Conn_bind, conn_bind, call.
  destruct (GetBucketTaggingWithContext conn log identifier) as [tagSet|e]; cbn [errOf].
  - by eexists _, _.
  - destruct (tfawserr.ErrCodeEquals (Some e) _); by eexists _, _.
Qed.

Lemma ObjectListTagsV1_last (conn : S3API) (bucket key : string) (log : list s3.Call) :
  ∃ n tags err,
    ObjectListTagsV1 conn bucket key log
    = (Ok (tags, err), log ++ replicate (S n) (GetObjectTagging bucket key))
    ∧ (n = 0 ∨ ∃ e, GetObjectTaggingWithContext conn log bucket key = inr e)
    ∧ match GetObjectTaggingWithContext conn
              (log ++ replicate n (GetObjectTagging bucket key)) bucket key with
      | inl tagSet => tags = KeyValueTags_of tagSet ∧ err = None
      | inr e =>
          tags = tftags.New None
          ∧ err = if tfawserr.ErrCodeEquals (Some e) [errCodeNoSuchTagSet; errCodeNoSuchTagSetError]
                  then None else Some e
      end.
Proof.
  unfold ObjectListTagsV1, tfresource.RetryWhenAWSErrCodeEquals.
  unfold mbind at 1, Conn_bind, conn_bind.
  destruct (RetryWhen_attempts
              (λ err, tfawserr.ErrCodeEquals (Some err) [ErrCodeNoSuchKey])
              (retriesWithin conn 60) (GetObjectTagging bucket key)
              (λ log, GetObjectTaggingWithContext conn log bucket key) log)
    as (n & _ & -> & Hbefore & _).
  exists n.
  assert (Hfirst : n = 0 ∨ ∃ e, GetObjectTaggingWithContext conn log bucket key = inr e).
  { destruct n as [|n]; [by left | right].
    destruct (Hbefore 0) as (e & He & _); [lia |].
    cbn [replicate] in He. rewrite app_nil_r in He. by exists e. }
  destruct (GetObjectTaggingWithContext conn (log ++ replicate n _) bucket key) as [tagSet|e];
    cbn [errOf].
  - by eexists _, _.
  - destruct (tfawserr.ErrCodeEquals (Some e) _); by eexists _, _.
Qed.

Lemma noTagSet_cases (e : error) :
  (tfawserr.ErrCodeEquals (Some e) [errCodeNoSuchTagSet; errCodeNoSuchTagSetError] = true
   ∧ noTagSet e)
  ∨ (tfawserr.ErrCodeEquals (Some e) [errCodeNoSuchTagSet; errCodeNoSuchTagSetError] = false
     ∧ ¬ noTagSet e).
Proof.
  destruct (tfawserr.ErrCodeEquals (Some e) _) eqn:H; [left | right]; (split; [done |]).
  - by apply ErrCodeEquals_noTagSet.
  - intros Hn. apply ErrCodeEquals_noTagSet in Hn. congruence.
Qed.

(** X20.  An update of the tags of a bucket or of an object never panics, and
    what it returns is decided by its last call: an error it returns is the
    error of that call wrapped with context, and it returns none exactly
    when that call succeeded or was the read of the tags answered with the
    no-tag-set error.  No failure of a put or delete is swallowed, and none
    is reported that the service did not give. *)
Theorem update_tags_last_call_X20
    (conn : S3API) (bucket key : string) (old new : option (gmap string string))
    (log : list s3.Call) :
  lastCallDecides conn log (BucketUpdateTags conn bucket old new log)
  ∧ lastCallDecides conn log (ObjectUpdateTags conn bucket key old new log).
Proof.
  split.
  - destruct (BucketListTags_last conn bucket log) as (tags & err & Hrun & Hlast).
    unfold BucketUpdateTags. unfold mbind at 1, Conn_bind, conn_bind. rewrite Hrun.
    assert (Hread : answeredWith conn (log ++ []) (GetBucketTagging bucket)
                    = errOf (GetBucketTaggingWithContext conn log bucket))
      by (by rewrite app_nil_r).
    destruct err as [err|].
    + exists (Some (Wrapped ("listing resource tags (" +:+ bucket +:+ "): " +:+ Error err) err)),
        [], (GetBucketTagging bucket).
      split; [done |]. rewrite Hread.
      destruct (GetBucketTaggingWithContext conn log bucket) as [tagSet|e]; [by destruct Hlast |].
      destruct Hlast as [_ Herr]. cbn [errOf].
      destruct (noTagSet_cases e) as [[Hcode _] | [Hcode Hnot]]; rewrite Hcode in Herr; [done |].
      injection Herr as ->. split; [by eexists | done].
    + assert (Hnone : match errOf (GetBucketTaggingWithContext conn log bucket) with
                      | Some cause => noTagSet cause
                      | None => True
                      end).
      { destruct (GetBucketTaggingWithContext conn log bucket) as [tagSet|e]; [done |].
        destruct Hlast as [_ Herr]. cbn [errOf].
        by destruct (noTagSet_cases e) as [[Hcode ?] | [Hcode _]]; rewrite Hcode in Herr. }
      destruct (bool_decide (0 < _ + _)); [| destruct (_ && _)].
      * unfold mbind, Conn_bind, conn_bind, call.
        match goal with |- context [PutBucketTaggingWithContext conn ?l bucket ?ts] =>
          destruct (PutBucketTaggingWithContext conn l bucket ts) as [e|] eqn:Hput;
          [ exists (Some (Wrapped ("setting resource tags (" +:+ bucket +:+ "): " +:+ Error e) e)),
              [GetBucketTagging bucket], (PutBucketTagging bucket ts)
          | exists None, [GetBucketTagging bucket], (PutBucketTagging bucket ts) ]
        end.
        -- split; [by rewrite <- app_assoc |]. cbn [answeredWith]. rewrite Hput.
           split; [by eexists | done].
        -- split; [by rewrite <- app_assoc |]. cbn [answeredWith]. by rewrite Hput.
      * unfold mbind, Conn_bind, conn_bind, call.
        match goal with |- context [DeleteBucketTaggingWithContext conn ?l bucket] =>
          destruct (DeleteBucketTaggingWithContext conn l bucket) as [e|] eqn:Hdel;
          [ exists (Some (Wrapped ("deleting resource tags (" +:+ bucket +:+ "): " +:+ Error e) e)),
              [GetBucketTagging bucket], (DeleteBucketTagging bucket)
          | exists None, [GetBucketTagging bucket], (DeleteBucketTagging bucket) ]
        end.
        -- split; [by rewrite <- app_assoc |]. cbn [answeredWith]. rewrite Hdel.
           split; [by eexists | done].
        -- split; [by rewrite <- app_assoc |]. cbn [answeredWith]. by rewrite Hdel.
      * exists None, [], (GetBucketTagging bucket). split; [done |]. rewrite Hread.
        by destruct (errOf _).
  - destruct (ObjectListTagsV1_last conn bucket key log) as (n & tags & err & Hrun & _ & Hlast).
    unfold ObjectUpdateTags. unfold mbind at 1, Conn_bind, conn_bind. rewrite Hrun.
    set (read := GetObjectTagging bucket key) in *.
    set (reads := replicate n read) in *.
    assert (Hlog : log ++ replicate (S n) read = log ++ reads ++ [read])
      by (by rewrite replicate_S_end).
    assert (Hread : answeredWith conn (log ++ reads) read
                    = errOf (GetObjectTaggingWithContext conn (log ++ reads) bucket key))
      by done.
    destruct err as [err|].
    + exists (Some (Wrapped ("listing resource tags (" +:+ bucket +:+ "/" +:+ key +:+ "): "
                               +:+ Error err) err)), reads, read.
      split; [by rewrite Hlog |]. rewrite Hread.
      destruct (GetObjectTaggingWithContext conn (log ++ reads) bucket key) as [tagSet|e];
        [by destruct Hlast |].
      destruct Hlast as [_ Herr]. cbn [errOf].
      destruct (noTagSet_cases e) as [[Hcode _] | [Hcode Hnot]]; rewrite Hcode in Herr; [done |].
      injection Herr as ->. split; [by eexists | done].
    + assert (Hnone : match errOf (GetObjectTaggingWithContext conn (log ++ reads) bucket key)
                      with
                      | Some cause => noTagSet cause
                      | None => True
                      end).
      { destruct (GetObjectTaggingWithContext conn (log ++ reads) bucket key) as [tagSet|e];
          [done |].
        destruct Hlast as [_ Herr]. cbn [errOf].
        by destruct (noTagSet_cases e) as [[Hcode ?] | [Hcode _]]; rewrite Hcode in Herr. }
      destruct (bool_decide (0 < _ + _)); [| destruct (_ && _)].
      * unfold mbind, Conn_bind, conn_bind, call.
        match goal with |- context [PutObjectTaggingWithContext conn ?l bucket key ?ts] =>
          destruct (PutObjectTaggingWithContext conn l bucket key ts) as [e|] eqn:Hput;
          [ exists (Some (Wrapped ("setting resource tags (" +:+ bucket +:+ "/" +:+ key +:+ "): "
                                     +:+ Error e) e)),
              (replicate (S n) read), (PutObjectTagging bucket key ts)
          | exists None, (replicate (S n) read), (PutObjectTagging bucket key ts) ]
        end.
        -- split; [by rewrite <- app_assoc |]. cbn [answeredWith]. rewrite Hput.
           split; [by eexists | done].
        -- split; [by rewrite <- app_assoc |]. cbn [answeredWith]. by rewrite Hput.
      * unfold mbind, Conn_bind, conn_bind, call.
        match goal with |- context [DeleteObjectTaggingWithContext conn ?l bucket key] =>
          destruct (DeleteObjectTaggingWithContext conn l bucket key) as [e|] eqn:Hdel;
          [ exists (Some (Wrapped ("deleting resource tags (" +:+ bucket +:+ "/" +:+ key +:+ "): "
                                     +:+ Error e) e)),
              (replicate (S n) read), (DeleteObjectTagging bucket key)
          | exists None, (replicate (S n) read), (DeleteObjectTagging bucket key) ]
        end.
        -- split; [by rewrite <- app_assoc |]. cbn [answeredWith]. rewrite Hdel.
           split; [by eexists | done].
        -- split; [by rewrite <- app_assoc |]. cbn [answeredWith]. by rewrite Hdel.
      * exists None, reads, read. split; [by rewrite Hlog |]. rewrite Hread.
        by destruct (errOf _).
Qed.

Lemma putTagSets_mutating (calls : list s3.Call) :
  putTagSets (List.filter mutating calls) = putTagSets calls.
Proof.
  induction calls as [|c calls IH]; [done |].
  unfold putTagSets in *. destruct c; simpl; first [exact IH | f_equal; exact IH].
Qed.

Lemma putTagSets_correction (put : TagSet → s3.Call) (delete : s3.Call)
    (oldTags newTags ignoredTags : KeyValueTags) (tagSet : TagSet) :
  putTagSets [delete] = [] →
  (∀ ts, putTagSets [put ts] = [ts]) →
  tagSet ∈ putTagSets (correction put delete oldTags newTags ignoredTags) →
  tagSet = Tags (Merge newTags ignoredTags).
Proof.
  intros Hdelete Hput. unfold correction.
  destruct (bool_decide _); [| destruct (_ && _)].
  - rewrite Hput. by intros ->%list_elem_of_singleton.
  - rewrite Hdelete. by intros ?%elem_of_nil.
  - by intros ?%elem_of_nil.
Qed.

(** The merged tag set, entry by entry. *)
Lemma Tags_Merge_Ignore (old new : option (gmap string string)) (allTags : KeyValueTags)
    (k v : string) :
  (k, v) ∈ Tags (Merge (tftags.New new)
                   (Ignore (Ignore allTags (tftags.New old)) (tftags.New new)))
  ↔ default ∅ new !! k = Some v
    ∨ (default ∅ new !! k = None ∧ default ∅ old !! k = None ∧ Map allTags !! k = Some v).
Proof.
  unfold Tags, Merge, Ignore, tftags.New. cbn [Map].
  rewrite elem_of_map_to_list, lookup_union_Some_raw.
  rewrite map_lookup_filter_None, !map_lookup_filter_Some. cbn [fst snd].
  split.
  - intros [((Hall & Hold) & Hnew) | [_ Hnew]]; [by right | by left].
  - intros [Hnew | (Hnew & Hold & Hall)]; [right | by left].
    split; [| done]. right. intros v' _. by rewrite Hnew.
Qed.

(** The calls of an update, from what the list function returned. *)
Lemma BucketUpdateTags_calls (conn : S3API) (identifier : string)
    (old new : option (gmap string string)) (log log1 : list s3.Call)
    (allTags : KeyValueTags) (err : option error) :
  BucketListTags conn identifier log = (Ok (allTags, err), log1) →
  (BucketUpdateTags conn identifier old new log).2
  = log1 ++ match err with
            | Some _ => []
            | None =>
                correction (PutBucketTagging identifier) (DeleteBucketTagging identifier)
                  (tftags.New old) (tftags.New new)
                  (Ignore (Ignore allTags (tftags.New old)) (tftags.New new))
            end.
Proof.
  intros Hrun.
  unfold BucketUpdateTags. unfold mbind at 1, Conn_bind, conn_bind. rewrite Hrun.
  destruct err as [err|]; [by rewrite app_nil_r |].
  unfold correction.
  destruct (bool_decide (0 < _ + _)).
  { unfold mbind, Conn_bind, conn_bind, call.
    by destruct (PutBucketTaggingWithContext conn _ _ _). }
  destruct (_ && _).
  { unfold mbind, Conn_bind, conn_bind, call.
    by destruct (DeleteBucketTaggingWithContext conn _ _). }
  by rewrite app_nil_r.
Qed.

Lemma ObjectUpdateTags_calls (conn : S3API) (bucket key : string)
    (old new : option (gmap string string)) (log log1 : list s3.Call)
    (allTags : KeyValueTags) (err : option error) :
  ObjectListTagsV1 conn bucket key log = (Ok (allTags, err), log1) →
  (ObjectUpdateTags conn bucket key old new log).2
  = log1 ++ match err with
            | Some _ => []
            | None =>
                correction (PutObjectTagging bucket key) (DeleteObjectTagging bucket key)
                  (tftags.New old) (tftags.New new)
                  (Ignore (Ignore allTags (tftags.New old)) (tftags.New new))
            end.
Proof.
  intros Hrun.
  unfold ObjectUpdateTags. unfold mbind at 1, Conn_bind, conn_bind. rewrite Hrun.
  destruct err as [err|]; [by rewrite app_nil_r |].
  unfold correction.
  destruct (bool_decide (0 < _ + _)).
  { unfold mbind, Conn_bind, conn_bind, call.
    by destruct (PutObjectTaggingWithContext conn _ _ _ _). }
  destruct (_ && _).
  { unfold mbind, Conn_bind, conn_bind, call.
    by destruct (DeleteObjectTaggingWithContext conn _ _ _). }
  by rewrite app_nil_r.
Qed.

Lemma correction_mutating (put : TagSet → s3.Call) (delete : s3.Call)
    (oldTags newTags ignoredTags : KeyValueTags) :
  (∀ tagSet, mutating (put tagSet) = true) → mutating delete = true →
  List.filter mutating (correction put delete oldTags newTags ignoredTags)
  = correction put delete oldTags newTags ignoredTags.
Proof.
  intros Hput Hdelete. unfold correction.
  destruct (bool_decide _); [| destruct (_ && _)]; cbn [List.filter]; by rewrite ?Hput, ?Hdelete.
Qed.

(** The attempts of [ObjectListTagsV1], and what it makes of the last answer. *)
Lemma ObjectListTagsV1_attempts (conn : S3API) (bucket key : string) (log : list s3.Call) :
  ∃ n tags err,
    n ≤ retriesWithin conn 60
    ∧ ObjectListTagsV1 conn bucket key log
      = (Ok (tags, err), log ++ replicate (S n) (GetObjectTagging bucket key))
    ∧ (∀ j, j < n →
            ∃ e, GetObjectTaggingWithContext conn
                   (log ++ replicate j (GetObjectTagging bucket key)) bucket key = inr e
                 ∧ tfawserr.ErrCodeEquals (Some e) [ErrCodeNoSuchKey] = true)
    ∧ match GetObjectTaggingWithContext conn
              (log ++ replicate n (GetObjectTagging bucket key)) bucket key with
      | inl tagSet => tags = KeyValueTags_of tagSet ∧ err = None
      | inr e =>
          tags = tftags.New None
          ∧ err = if tfawserr.ErrCodeEquals (Some e) [errCodeNoSuchTagSet; errCodeNoSuchTagSetError]
                  then None else Some e
      end.
Proof.
  unfold ObjectListTagsV1, tfresource.RetryWhenAWSErrCodeEquals.
  unfold mbind at 1, Conn_bind, conn_bind.
  destruct (RetryWhen_attempts
              (λ err, tfawserr.ErrCodeEquals (Some err) [ErrCodeNoSuchKey])
              (retriesWithin conn 60) (GetObjectTagging bucket key)
              (λ log, GetObjectTaggingWithContext conn log bucket key) log)
    as (n & Hn & -> & Hbefore & _).
  exists n.
  destruct (GetObjectTaggingWithContext conn (log ++ replicate n _) bucket key) as [tagSet|e];
    cbn [errOf].
  - by eexists _, _.
  - destruct (tfawserr.ErrCodeEquals (Some e) _); by eexists _, _.
Qed.

(** What a list function returns, from the answer it got last. *)
Lemma listed_found (answer : TagSet + error) (tags : KeyValueTags) (err : option error)
    (found : TagSet) :
  match answer with
  | inl tagSet => tags = KeyValueTags_of tagSet ∧ err = None
  | inr e =>
      tags = tftags.New None
      ∧ err = if tfawserr.ErrCodeEquals (Some e) [errCodeNoSuchTagSet; errCodeNoSuchTagSetError]
              then None else Some e
  end →
  tagsOnResource answer found →
  tags = KeyValueTags_of found ∧ err = None.
Proof.
  intros Hlast [-> | (-> & e & -> & Hnone)]; [done |].
  destruct Hlast as [-> ->]. by rewrite (proj2 (ErrCodeEquals_noTagSet e) Hnone).
Qed.

Lemma listed_failed (answer : TagSet + error) (tags : KeyValueTags) (err : option error)
    (e : error) :
  match answer with
  | inl tagSet => tags = KeyValueTags_of tagSet ∧ err = None
  | inr e =>
      tags = tftags.New None
      ∧ err = if tfawserr.ErrCodeEquals (Some e) [errCodeNoSuchTagSet; errCodeNoSuchTagSetError]
              then None else Some e
  end →
  answer = inr e → ¬ noTagSet e → err = Some e.
Proof.
  intros Hlast -> Hnot. destruct Hlast as [_ ->].
  by destruct (noTagSet_cases e) as [[_ ?] | [-> _]].
Qed.

(** C5.  Whatever the old tags, the new tags and the tags that the service
    shows to be on the bucket or object, an update makes at most one call that
    changes tags, after its reads of the tags and as its last call: one put of
    the new tags merged with the ignored ones when that merged set is not
    empty, one delete when the new and the ignored sets are empty and the old
    set is not, and none otherwise, in particular none when the read of the
    tags failed with another error than the no-tag-set error.  It never makes
    both.  The ignored tags are those the service answered with, less the
    keys of the old and of the new tags; for an object the answer is that of
    the last of the retried reads. *)
Theorem update_tags_one_correction_C5 :
  (∀ (conn : S3API) (identifier : string) (old new : option (gmap string string))
     (log : list s3.Call),
     let oldTags := tftags.New old in
     let newTags := tftags.New new in
     let answer := GetBucketTaggingWithContext conn log identifier in
     let run := BucketUpdateTags conn identifier old new log in
     let changes := mutations log run in
     length changes ≤ 1
     ∧ calls_since log run.2 = GetBucketTagging identifier :: changes
     ∧ (∀ err, answer = inr err → ¬ noTagSet err → changes = [])
     ∧ (∀ found, tagsOnResource answer found →
          let ignoredTags := Ignore (Ignore (KeyValueTags_of found) oldTags) newTags in
          (Map (Merge newTags ignoredTags) ≠ ∅ →
           changes = [PutBucketTagging identifier (Tags (Merge newTags ignoredTags))])
          ∧ (Map newTags = ∅ → Map ignoredTags = ∅ → Map oldTags ≠ ∅ →
             changes = [DeleteBucketTagging identifier])
          ∧ (Map (Merge newTags ignoredTags) = ∅ → Map oldTags = ∅ → changes = [])))
  ∧ (∀ (conn : S3API) (bucket key : string) (old new : option (gmap string string))
       (log : list s3.Call),
       let oldTags := tftags.New old in
       let newTags := tftags.New new in
       let read := GetObjectTagging bucket key in
       let run := ObjectUpdateTags conn bucket key old new log in
       let changes := mutations log run in
       length changes ≤ 1
       ∧ ∃ n,
           let answer := GetObjectTaggingWithContext conn (log ++ replicate n read) bucket key in
           n ≤ retriesWithin conn 60
           ∧ calls_since log run.2 = replicate (S n) read ++ changes
           ∧ (∀ err, answer = inr err → ¬ noTagSet err → changes = [])
           ∧ (∀ found, tagsOnResource answer found →
                let ignoredTags := Ignore (Ignore (KeyValueTags_of found) oldTags) newTags in
                (Map (Merge newTags ignoredTags) ≠ ∅ →
                 changes = [PutObjectTagging bucket key (Tags (Merge newTags ignoredTags))])
                ∧ (Map newTags = ∅ → Map ignoredTags = ∅ → Map oldTags ≠ ∅ →
                   changes = [DeleteObjectTagging bucket key])
                ∧ (Map (Merge newTags ignoredTags) = ∅ → Map oldTags = ∅ → changes = []))).
Proof.
  split.
  - intros conn identifier old new log oldTags newTags answer run changes.
    destruct (BucketListTags_last conn identifier log) as (tags & err & Hrun & Hlast).
    fold answer in Hlast.
    pose proof (BucketUpdateTags_calls conn identifier old new log _ tags err Hrun) as Hcalls.
    fold run oldTags newTags in Hcalls.
    set (corr := match err with
                 | Some _ => []
                 | None => correction (PutBucketTagging identifier)
                             (DeleteBucketTagging identifier) oldTags newTags
                             (Ignore (Ignore tags oldTags) newTags)
                 end) in Hcalls.
    assert (Hfilter : List.filter mutating corr = corr).
    { unfold corr. destruct err; [done |]. by apply correction_mutating. }
    assert (Hchanges : changes = corr).
    { unfold changes, mutations. rewrite Hcalls, <- app_assoc, calls_since_app.
      cbn [app List.filter mutating]. exact Hfilter. }
    assert (Hlen : length corr ≤ 1).
    { unfold corr. destruct err; [cbn; lia |]. apply correction_spec. }
    rewrite Hchanges. split; [exact Hlen |].
    split; [by rewrite Hcalls, <- app_assoc, calls_since_app |].
    split.
    + intros e He Hnot. unfold corr. by rewrite (listed_failed _ _ _ _ Hlast He Hnot).
    + intros found Hfound ignoredTags.
      destruct (listed_found _ _ _ _ Hlast Hfound) as [Htags Herr].
      unfold corr. rewrite Herr, Htags. apply correction_spec.
  - intros conn bucket key old new log oldTags newTags read run changes.
    destruct (ObjectListTagsV1_attempts conn bucket key log)
      as (n & tags & err & Hn & Hrun & _ & Hlast).
    fold read in Hrun, Hlast.
    pose proof (ObjectUpdateTags_calls conn bucket key old new log _ tags err Hrun) as Hcalls.
    fold run oldTags newTags in Hcalls.
    set (corr := match err with
                 | Some _ => []
                 | None => correction (PutObjectTagging bucket key)
                             (DeleteObjectTagging bucket key) oldTags newTags
                             (Ignore (Ignore tags oldTags) newTags)
                 end) in Hcalls.
    assert (Hfilter : List.filter mutating corr = corr).
    { unfold corr. destruct err; [done |]. by apply correction_mutating. }
    assert (Hchanges : changes = corr).
    { unfold changes, mutations. rewrite Hcalls, <- app_assoc, calls_since_app.
      rewrite List.filter_app. unfold read. by rewrite filter_mutating_replicate. }
    assert (Hlen : length corr ≤ 1).
    { unfold corr. destruct err; [cbn; lia |]. apply correction_spec. }
    rewrite Hchanges. split; [exact Hlen |]. exists n.
    split; [exact Hn |].
    split; [by rewrite Hcalls, <- app_assoc, calls_since_app |].
    split.
    + intros e He Hnot. unfold corr. by rewrite (listed_failed _ _ _ _ Hlast He Hnot).
    + intros found Hfound ignoredTags.
      destruct (listed_found _ _ _ _ Hlast Hfound) as [Htags Herr].
      unfold corr. rewrite Herr, Htags. apply correction_spec.
Qed.

Lemma update_tags_one_correction_C5_witness :
  mutations []
    (BucketUpdateTags
       (scriptedS3 (inl [("owner", "ops")]) (inl []) (inr accessDenied) (inr accessDenied))
       "b" (Some sampleTags) None [])
  = [PutBucketTagging "b" [("owner", "ops")]]
  ∧ mutations []
      (ObjectUpdateTags
         (scriptedS3 (inl []) (inl [("env", "test")]) (inr accessDenied) (inr accessDenied))
         "b" "k" (Some sampleTags) None [])
    = [DeleteObjectTagging "b" "k"]
  ∧ mutations []
      (BucketUpdateTags
         (scriptedS3 (inr accessDenied) (inl []) (inr accessDenied) (inr accessDenied))
         "b" (Some sampleTags) (Some sampleTags) [])
    = [].
Proof.
  destruct update_tags_one_correction_C5 as [Hbucket Hobject].
  split; [| split].
  - destruct (Hbucket
                (scriptedS3 (inl [("owner", "ops")]) (inl []) (inr accessDenied)
                   (inr accessDenied))
                "b" (Some sampleTags) None []) as (_ & _ & _ & Hfound).
    destruct (Hfound [("owner", "ops")]) as (Hput & _ & _); [by left |].
    rewrite Hput.
    + vm_compute; reflexivity.
    + apply Merge_nonempty. vm_compute. lia.
  - destruct (Hobject
                (scriptedS3 (inl []) (inl [("env", "test")]) (inr accessDenied)
                   (inr accessDenied))
                "b" "k" (Some sampleTags) None []) as (_ & n & _ & _ & _ & Hfound).
    destruct (Hfound [("env", "test")]) as (_ & Hdelete & _); [by left |].
    apply Hdelete.
    + vm_compute; reflexivity.
    + vm_compute; reflexivity.
    + apply map_size_non_empty_iff. vm_compute. lia.
  - destruct (Hbucket
                (scriptedS3 (inr accessDenied) (inl []) (inr accessDenied) (inr accessDenied))
                "b" (Some sampleTags) (Some sampleTags) []) as (_ & _ & Hfailed & _).
    apply (Hfailed accessDenied); [reflexivity |].
    intros (code & message & [= <- <-] & [? | ?]); discriminate.
Defined.

(** X21.  The tag set that an update puts, if it puts one, holds the new tags
    and, of the tags that the service shows to be on the bucket or object,
    those whose key is neither among the old nor among the new tags: tags that
    others manage are kept, old tags that are no longer wanted are dropped,
    and a new value replaces the one found.  For an object the tags are those
    of the last of the retried reads, so that an object which is found only
    at a later attempt keeps its tags too.  The merge and the two diffs are
    those of the tag package as modelled. *)
Theorem update_tags_put_content_X21
    (conn : S3API) (bucket key : string) (old new : option (gmap string string))
    (log : list s3.Call) :
  (∀ found tagSet,
     tagsOnResource (GetBucketTaggingWithContext conn log bucket) found →
     tagSet ∈ putTagSets (calls_since log (BucketUpdateTags conn bucket old new log).2) →
     keepsUnmanaged old new found tagSet)
  ∧ (let read := GetObjectTagging bucket key in
     let run := ObjectUpdateTags conn bucket key old new log in
     ∃ n,
       n ≤ retriesWithin conn 60
       ∧ calls_since log run.2 = replicate (S n) read ++ mutations log run
       ∧ (∀ j, j < n →
               ∃ e, GetObjectTaggingWithContext conn (log ++ replicate j read) bucket key = inr e
                    ∧ tfawserr.ErrCodeEquals (Some e) [ErrCodeNoSuchKey] = true)
       ∧ ∀ found tagSet,
           tagsOnResource
             (GetObjectTaggingWithContext conn (log ++ replicate n read) bucket key) found →
           tagSet ∈ putTagSets (calls_since log run.2) →
           keepsUnmanaged old new found tagSet).
Proof.
  split.
  - intros found tagSet Hfound. rewrite <- putTagSets_mutating.
    destruct (BucketListTags_last conn bucket log) as (tags & err & Hrun & Hlast).
    destruct (listed_found _ _ _ _ Hlast Hfound) as [-> ->].
    rewrite (BucketUpdateTags_calls _ _ old new _ _ _ _ Hrun), <- app_assoc, calls_since_app.
    cbn [app List.filter mutating]. rewrite correction_mutating by done.
    intros ->%putTagSets_correction; [| done | done].
    intros k v. apply Tags_Merge_Ignore.
  - intros read run.
    destruct (ObjectListTagsV1_attempts conn bucket key log)
      as (n & tags & err & Hn & Hrun & Hbefore & Hlast).
    fold read in Hrun, Hbefore, Hlast.
    pose proof (ObjectUpdateTags_calls conn bucket key old new log _ tags err Hrun) as Hcalls.
    fold run in Hcalls.
    assert (Hcorr : ∀ corr, List.filter mutating corr = corr →
                            run.2 = (log ++ replicate (S n) read) ++ corr →
                            calls_since log run.2 = replicate (S n) read ++ mutations log run).
    { intros corr Hfilter Heq. unfold mutations.
      rewrite Heq, <- app_assoc, calls_since_app, List.filter_app.
      unfold read. by rewrite filter_mutating_replicate, Hfilter. }
    exists n. split; [exact Hn |]. split; [| split; [exact Hbefore |]].
    + eapply Hcorr; [| exact Hcalls]. destruct err; [done |]. by apply correction_mutating.
    + intros found tagSet Hfound. rewrite <- putTagSets_mutating.
      destruct (listed_found _ _ _ _ Hlast Hfound) as [-> ->].
      rewrite Hcalls, <- app_assoc, calls_since_app, List.filter_app.
      unfold read. rewrite filter_mutating_replicate, correction_mutating by done.
      intros ->%putTagSets_correction; [| done | done].
      intros k v. apply Tags_Merge_Ignore.
Qed.

Lemma update_tags_put_content_X21_witness :
  let puts :=
    putTagSets
      (calls_since []
         (ObjectUpdateTags (lateObjectS3 [("owner", "ops"); ("env", "dev")])
            "b" "k" (Some sampleTags) (Some sampleTags) []).2) in
  length puts = 1
  ∧ Forall (keepsUnmanaged (Some sampleTags) (Some sampleTags)
              [("owner", "ops"); ("env", "dev")]) puts.
Proof.
  split; [vm_compute; reflexivity |].
  apply Forall_forall. intros tagSet.
  destruct (update_tags_put_content_X21 (lateObjectS3 [("owner", "ops"); ("env", "dev")])
              "b" "k" (Some sampleTags) (Some sampleTags) [])
    as (_ & n & _ & Hcalls & _ & Hfound).
  assert (n = 1) as ->.
  { apply (f_equal length) in Hcalls. rewrite length_app, length_replicate in Hcalls.
    match type of Hcalls with
    | ?a = S n + ?b =>
        assert (a = 3) as Ha by (vm_compute; reflexivity);
        assert (b = 1) as Hb by (vm_compute; reflexivity);
        rewrite Ha, Hb in Hcalls
    end.
    lia. }
  apply Hfound. by left.
Defined.
